(** * Citation manager: record store, bibliography codec, verification
      and deduplication

    A shallow embedding of [citation_manager.py], of the bibliography
    loader of [main.py] and of the report of [provenance_tracker.py].
    Python text is modelled as
    a list of Latin-1 code points ([ascii], code points 0..255), integers as
    [Z], [Optional[T]] as [option T], the citation store (an insertion-ordered
    [dict]) as an association list with the dictionary operations written
    out, and the effects of the verification engine (HEAD requests, sleeping,
    reading the clock) as explicit passing of a [World]. *)

From Stdlib Require Import List ZArith NArith Ascii String Bool Lia QArith.
From Stdlib Require Import Permutation.
Import ListNotations.
Local Open Scope Z_scope.

(* ================================================================== *)
(** * Python built-ins used by the source *)
(* ================================================================== *)

Module Py.

Definition str := list ascii.

Definition lit (s : string) : str := list_ascii_of_string s.
Arguments lit s%_string.

(** The line feed, Python's ['\n'], and the double quote. *)
Definition NL : ascii := "010"%char.
Definition DQUOTE : ascii := "034"%char.

Definition code (c : ascii) : N := N_of_ascii c.

Definition between (lo hi : N) (n : N) : bool := (N.leb lo n && N.leb n hi)%bool.

(** [str.isspace] on one character: what [str.strip()] removes. *)
Definition isspace (c : ascii) : bool :=
  (between 9 13 (code c) || between 28 32 (code c)
   || N.eqb (code c) 133 || N.eqb (code c) 160)%bool.

(** The white space skipped by [int()] around the literal. *)
Definition int_space (c : ascii) : bool :=
  (between 9 13 (code c) || N.eqb (code c) 32
   || N.eqb (code c) 133 || N.eqb (code c) 160)%bool.

(** The class [\w] of the [re] module on [str] patterns. *)
Definition is_word (c : ascii) : bool :=
  let n := code c in
  (between 48 57 n || between 65 90 n || N.eqb n 95 || between 97 122 n
   || N.eqb n 170 || between 178 179 n || N.eqb n 181 || between 185 186 n
   || between 188 190 n || between 192 214 n || between 216 246 n
   || between 248 255 n)%bool.

(** [str.lower] on one character. *)
Definition lower_char (c : ascii) : ascii :=
  let n := code c in
  if (between 65 90 n || between 192 214 n || between 216 222 n)%bool
  then ascii_of_N (n + 32) else c.

Definition lower (s : str) : str := map lower_char s.

Fixpoint str_eqb (a b : str) : bool :=
  match a, b with
  | [], [] => true
  | x :: a', y :: b' => (Ascii.eqb x y && str_eqb a' b')%bool
  | _, _ => false
  end.

Fixpoint dropWhile {A} (p : A -> bool) (l : list A) : list A :=
  match l with
  | [] => []
  | x :: l' => if p x then dropWhile p l' else l
  end.

Fixpoint takeWhile {A} (p : A -> bool) (l : list A) : list A :=
  match l with
  | [] => []
  | x :: l' => if p x then x :: takeWhile p l' else []
  end.

Definition lstrip_by (p : ascii -> bool) (s : str) : str := dropWhile p s.
Definition rstrip_by (p : ascii -> bool) (s : str) : str :=
  rev (dropWhile p (rev s)).
Definition strip_by (p : ascii -> bool) (s : str) : str :=
  rstrip_by p (lstrip_by p s).

Definition mem_char (cs : str) (c : ascii) : bool :=
  existsb (Ascii.eqb c) cs.

(** [s.strip()], [s.strip(chars)], [s.rstrip(chars)]. *)
Definition strip (s : str) : str := strip_by isspace s.
Definition strip_chars (cs : str) (s : str) : str := strip_by (mem_char cs) s.
Definition rstrip_chars (cs : str) (s : str) : str := rstrip_by (mem_char cs) s.

(** [c in s] for a one-character [c]. *)
Definition contains (c : ascii) (s : str) : bool := existsb (Ascii.eqb c) s.

Fixpoint starts_with (p s : str) : bool :=
  match p, s with
  | [], _ => true
  | x :: p', y :: s' => (Ascii.eqb x y && starts_with p' s')%bool
  | _ :: _, [] => false
  end.

(** [s.split(sep)] for a non-empty [sep]: the leftmost occurrences of [sep],
    not overlapping.  [skip] counts the characters of a separator that are
    still to be passed, [cur] holds the piece being read, reversed. *)
Fixpoint split_from (sep : str) (skip : nat) (cur : str) (s : str) : list str :=
  match s with
  | [] => [rev cur]
  | c :: s' =>
      match skip with
      | S k => split_from sep k cur s'
      | O =>
          if starts_with sep s
          then rev cur :: split_from sep (Nat.pred (List.length sep)) [] s'
          else split_from sep O (c :: cur) s'
      end
  end.

Definition split (sep : str) (s : str) : list str := split_from sep O [] s.

(** [s.split(c, 1)] for a one-character [c]: the text before the first [c]
    and the text after it (the whole of [s] and nothing when [c] is absent;
    the source only calls it under [c in s]). *)
Fixpoint split_once (c : ascii) (s : str) : str * str :=
  match s with
  | [] => ([], [])
  | x :: s' =>
      if Ascii.eqb x c then ([], s')
      else let (a, b) := split_once c s' in (x :: a, b)
  end.

(** [sep.join(l)]. *)
Fixpoint join (sep : str) (l : list str) : str :=
  match l with
  | [] => []
  | [x] => x
  | x :: l' => x ++ sep ++ join sep l'
  end.

(** ** Integers and text *)

Definition digit_val (c : ascii) : option Z :=
  if between 48 57 (code c) then Some (Z.of_N (code c) - 48) else None.

(** The rest of an integer literal after its first digit: digits, single
    underscores between digits, then white space to the end. *)
Fixpoint int_body (acc : Z) (s : str) : option Z :=
  match s with
  | [] => Some acc
  | c :: s' =>
      match digit_val c with
      | Some d => int_body (10 * acc + d) s'
      | None =>
          if Ascii.eqb c "_" then
            match s' with
            | d :: s'' =>
                match digit_val d with
                | Some v => int_body (10 * acc + v) s''
                | None => None
                end
            | [] => None
            end
          else if forallb int_space s then Some acc else None
      end
  end.

(** [int(s)] in base ten; [None] stands for [ValueError].  (The
    interpreter's optional cap on the number of digits is not modelled.) *)
Definition py_int (s : str) : option Z :=
  let s1 := dropWhile int_space s in
  let '(neg, s2) :=
    match s1 with
    | c :: r =>
        if Ascii.eqb c "-" then (true, r)
        else if Ascii.eqb c "+" then (false, r) else (false, s1)
    | [] => (false, s1)
    end in
  match s2 with
  | c :: r =>
      match digit_val c with
      | Some d =>
          match int_body d r with
          | Some v => Some (if neg then - v else v)
          | None => None
          end
      | None => None
      end
  | [] => None
  end.

Definition digit_char (n : N) : ascii := ascii_of_N (48 + n).

(** The decimal digits of [n], most significant first, in front of [acc]. *)
Fixpoint digits_of (fuel : nat) (n : N) (acc : str) : str :=
  match fuel with
  | O => acc
  | S f =>
      let d := digit_char (N.modulo n 10) in
      if N.ltb n 10 then d :: acc else digits_of f (N.div n 10) (d :: acc)
  end.

Definition str_of_N (n : N) : str := digits_of (S (N.to_nat (N.log2 n))) n [].

(** [str(z)], which is also what [f'{z}'] renders for an [int]. *)
Definition str_of_int (z : Z) : str :=
  match z with
  | Zneg p => "-"%char :: str_of_N (Npos p)
  | _ => str_of_N (Z.to_N z)
  end.

(** ** Truthiness *)

Definition truthy_str (s : str) : bool :=
  match s with [] => false | _ => true end.
Definition truthy_opt (o : option str) : bool :=
  match o with Some s => truthy_str s | None => false end.
Definition truthy_list {A} (l : list A) : bool :=
  match l with [] => false | _ => true end.
Definition truthy_int (z : Z) : bool := negb (z =? 0).

(** ** Ordering of text (by code point) and of [(int, str)] tuples *)

Fixpoint str_leb (a b : str) : bool :=
  match a, b with
  | [], _ => true
  | _ :: _, [] => false
  | x :: a', y :: b' =>
      if N.ltb (code x) (code y) then true
      else if N.ltb (code y) (code x) then false
      else str_leb a' b'
  end.

Definition tuple_leb (a b : Z * str) : bool :=
  if fst a <? fst b then true
  else if fst b <? fst a then false
  else str_leb (snd a) (snd b).

(** [sorted(l, key=key)]: a stable sort. *)
Fixpoint insert_sorted {A} (key : A -> Z * str) (x : A) (l : list A) : list A :=
  match l with
  | [] => [x]
  | y :: l' =>
      if tuple_leb (key x) (key y) then x :: l
      else y :: insert_sorted key x l'
  end.

Definition sorted {A} (key : A -> Z * str) (l : list A) : list A :=
  fold_right (insert_sorted key) [] l.

(** ** Text files *)

(** The carriage return, Python's ['\r']. *)
Definition CR : ascii := "013"%char.

(** [open(path, 'w', encoding='utf-8').write(t)]: what the file holds.  In
    text mode every line feed is written as the line separator of the
    platform ([os.linesep]: a line feed, or a carriage return and a line
    feed); the encoding gives the text back when the file is decoded. *)
Fixpoint write_text (linesep : str) (t : str) : str :=
  match t with
  | [] => []
  | c :: t' =>
      if Ascii.eqb c NL then linesep ++ write_text linesep t'
      else c :: write_text linesep t'
  end.

(** [open(path, 'r', encoding='utf-8').read()]: the text read from what the
    file holds.  In text mode (universal newlines) a carriage return
    followed by a line feed, a lone carriage return and a line feed are
    each read as one line feed. *)
Fixpoint read_text (held : str) : str :=
  match held with
  | [] => []
  | c :: rest =>
      if Ascii.eqb c CR then
        match rest with
        | d :: rest' =>
            if Ascii.eqb d NL then NL :: read_text rest'
            else NL :: read_text rest
        | [] => [NL]
        end
      else c :: read_text rest
  end.

(** ** Exceptions *)

Inductive exn := RequestException | KeyError | ZeroDivisionError.

Inductive result (A : Type) :=
| Ok (a : A)
| Raise (e : exn).
Arguments Ok {A} a.
Arguments Raise {A} e.

(** ** [dict]: insertion-ordered, one entry per key *)

Section Dict.
Context {K V : Type} (eqb : K -> K -> bool).

Definition dict := list (K * V).

(** [d.get(k)] *)
Fixpoint dict_get (k : K) (d : dict) : option V :=
  match d with
  | [] => None
  | (k', v) :: d' => if eqb k' k then Some v else dict_get k d'
  end.

(** [k in d] *)
Definition dict_mem (k : K) (d : dict) : bool :=
  match dict_get k d with Some _ => true | None => false end.

(** [d[k]] *)
Definition dict_getitem (k : K) (d : dict) : result V :=
  match dict_get k d with Some v => Ok v | None => Raise KeyError end.

(** [d[k] = v]: a known key keeps its place, a new key goes last. *)
Fixpoint dict_set (k : K) (v : V) (d : dict) : dict :=
  match d with
  | [] => [(k, v)]
  | (k', v') :: d' =>
      if eqb k' k then (k', v) :: d' else (k', v') :: dict_set k v d'
  end.

Fixpoint dict_remove (k : K) (d : dict) : dict :=
  match d with
  | [] => []
  | (k', v') :: d' => if eqb k' k then d' else (k', v') :: dict_remove k d'
  end.

(** [del d[k]] *)
Definition dict_del (k : K) (d : dict) : result dict :=
  if dict_mem k d then Ok (dict_remove k d) else Raise KeyError.

End Dict.

End Py.

Import Py.

(* ================================================================== *)
(** * The record: [class Citation] *)
(* ================================================================== *)

Record Citation := mkCitation {
  citekey : str;
  title : str;
  authors : list str;
  year : Z;
  journal : option str;
  ads_bibcode : option str;
  doi : option str;
  arxiv_id : option str;
  ads_url : option str;
  publisher_url : option str;
  last_verified : option str;
  http_status_ads : option Z;
  http_status_doi : option Z;
  crossref_match : bool;
  ads_match : bool;
  notes : str;
  bibtex_entry : str
}.

(** Assignments to the four fields that the verification engine writes. *)
Definition set_http_status_ads (v : option Z) (c : Citation) : Citation :=
  mkCitation (citekey c) (title c) (authors c) (year c) (journal c)
    (ads_bibcode c) (doi c) (arxiv_id c) (ads_url c) (publisher_url c)
    (last_verified c) v (http_status_doi c) (crossref_match c) (ads_match c)
    (notes c) (bibtex_entry c).

Definition set_http_status_doi (v : option Z) (c : Citation) : Citation :=
  mkCitation (citekey c) (title c) (authors c) (year c) (journal c)
    (ads_bibcode c) (doi c) (arxiv_id c) (ads_url c) (publisher_url c)
    (last_verified c) (http_status_ads c) v (crossref_match c) (ads_match c)
    (notes c) (bibtex_entry c).

Definition set_publisher_url (v : option str) (c : Citation) : Citation :=
  mkCitation (citekey c) (title c) (authors c) (year c) (journal c)
    (ads_bibcode c) (doi c) (arxiv_id c) (ads_url c) v
    (last_verified c) (http_status_ads c) (http_status_doi c)
    (crossref_match c) (ads_match c) (notes c) (bibtex_entry c).

Definition set_last_verified (v : option str) (c : Citation) : Citation :=
  mkCitation (citekey c) (title c) (authors c) (year c) (journal c)
    (ads_bibcode c) (doi c) (arxiv_id c) (ads_url c) (publisher_url c)
    v (http_status_ads c) (http_status_doi c)
    (crossref_match c) (ads_match c) (notes c) (bibtex_entry c).

(** [Citation(citekey=..., title=..., authors=..., year=..., journal=...,
    doi=..., arxiv_id=..., bibtex_entry=...)]: the other fields take the
    defaults of the dataclass. *)
Definition new_citation (ck t : str) (a : list str) (y : Z)
    (j d x : option str) (b : str) : Citation :=
  mkCitation ck t a y j None d x None None None None None false false [] b.

(** [all([...])] on the truth values of its items. *)
Definition py_all (l : list bool) : bool := forallb (fun b => b) l.

(* ================================================================== *)
(** * The store: [class CitationManager] *)
(* ================================================================== *)

Record CitationManager := mkManager {
  citations : @dict str Citation;
  verification_timeout : Z;
  max_retries : Z
}.

Definition with_citations (d : @dict str Citation) (self : CitationManager) :=
  mkManager d (verification_timeout self) (max_retries self).

Definition add_citation (self : CitationManager) (c : Citation) :=
  with_citations (dict_set str_eqb (citekey c) c (citations self)) self.

(* ================================================================== *)
(** * Bibliography codec *)
(* ================================================================== *)

(** [f'  name={{{value}}},']: one field line of a generated entry. *)
Definition field_line (name value : str) : str :=
  lit "  " ++ name ++ lit "={" ++ value ++ lit "},".

(** The text of an optional field that is known to be set. *)
Definition opt_text (o : option str) : str :=
  match o with Some s => s | None => [] end.

(** [if b: lines.append(...)]: the lines added under a condition. *)
Definition when (b : bool) (l : list str) : list str := if b then l else [].

(** [citation.ads_url or "https://ui.adsabs.harvard.edu/abs/" + citation.ads_bibcode] *)
Definition adsurl_value (c : Citation) : str :=
  if truthy_opt (ads_url c) then opt_text (ads_url c)
  else lit "https://ui.adsabs.harvard.edu/abs/" ++ opt_text (ads_bibcode c).

Definition _generate_basic_bibtex (c : Citation) : str :=
  let entry_type := if truthy_opt (journal c) then lit "article" else lit "misc" in
  let lines :=
    [lit "@" ++ entry_type ++ lit "{" ++ citekey c ++ lit ","]
    ++ [field_line (lit "title") (title c)]
    ++ [field_line (lit "author") (join (lit " and ") (authors c))]
    ++ [field_line (lit "year") (str_of_int (year c))]
    ++ when (truthy_opt (journal c))
         [field_line (lit "journal") (opt_text (journal c))]
    ++ when (truthy_opt (doi c))
         [field_line (lit "doi") (opt_text (doi c))]
    ++ when (truthy_opt (arxiv_id c))
         [field_line (lit "eprint") (opt_text (arxiv_id c));
          field_line (lit "archivePrefix") (lit "arXiv")]
    ++ when (truthy_opt (ads_bibcode c))
         [field_line (lit "adsurl") (adsurl_value c)]
    ++ when (truthy_opt (publisher_url c))
         [field_line (lit "url") (opt_text (publisher_url c))]
    ++ [lit "}"] in
  join [NL] lines.

(** What [generate_bibtex] writes for one citation, before the blank line. *)
Definition bibtex_block (c : Citation) : str :=
  if truthy_str (bibtex_entry c) then bibtex_entry c
  else _generate_basic_bibtex c.

(** [generate_bibtex]: the text written to the file. *)
Definition generate_bibtex (self : CitationManager) : str :=
  List.concat (map (fun c => bibtex_block c ++ [NL; NL])
              (sorted (fun x => (year x, citekey x))
                      (map snd (citations self)))).

(** [re.match(r'@\w+\{([^,]+),', line)], giving group 1.  Both runs are
    greedy; a shorter run can never match, since what must follow a run
    ([{], then [,]) lies outside the class of the run. *)
Definition not_comma (c : ascii) : bool := negb (Ascii.eqb c ",").

Definition match_header (line : str) : option str :=
  match line with
  | c :: rest =>
      if Ascii.eqb c "@" then
        match takeWhile is_word rest, dropWhile is_word rest with
        | _ :: _, b :: rest2 =>
            if Ascii.eqb b "{" then
              match takeWhile not_comma rest2, dropWhile not_comma rest2 with
              | (_ :: _) as key, d :: _ =>
                  if Ascii.eqb d "," then Some key else None
              | _, _ => None
              end
            else None
        | _, _ => None
        end
      else None
  | [] => None
  end.

(** The local variables of the parser's loop. *)
Record Fields := mkFields {
  f_title : str;
  f_authors : list str;
  f_year : Z;
  f_journal : option str;
  f_doi : option str;
  f_arxiv_id : option str
}.

Definition init_fields : Fields := mkFields [] [] 0 None None None.

(** The [if key == ... elif ...] chain of the loop: what a [key=value] line
    assigns. *)
Definition assign (f : Fields) (key value : str) : Fields :=
  if str_eqb key (lit "title") then
    mkFields value (f_authors f) (f_year f) (f_journal f) (f_doi f) (f_arxiv_id f)
  else if str_eqb key (lit "author") then
    mkFields (f_title f) (map strip (split (lit " and ") value)) (f_year f)
             (f_journal f) (f_doi f) (f_arxiv_id f)
  else if str_eqb key (lit "year") then
    match py_int value with
    | Some y =>
        mkFields (f_title f) (f_authors f) y (f_journal f) (f_doi f) (f_arxiv_id f)
    | None => f
    end
  else if str_eqb key (lit "journal") then
    mkFields (f_title f) (f_authors f) (f_year f) (Some value) (f_doi f) (f_arxiv_id f)
  else if str_eqb key (lit "doi") then
    mkFields (f_title f) (f_authors f) (f_year f) (f_journal f) (Some value) (f_arxiv_id f)
  else if str_eqb key (lit "eprint") then
    mkFields (f_title f) (f_authors f) (f_year f) (f_journal f) (f_doi f) (Some value)
  else f.

(** [value.strip().strip('{}').strip(DQUOTE)], the last with the one-character
    text made of the double quote. *)
Definition unwrap (value : str) : str :=
  strip_chars [DQUOTE] (strip_chars (lit "{}") (strip value)).

(** One turn of [for line in lines[1:]]. *)
Definition parse_line (f : Fields) (line0 : str) : Fields :=
  let line := rstrip_chars (lit ",") (strip line0) in
  if contains "=" line then
    let (key, value) := split_once "=" line in
    assign f (strip key) (unwrap value)
  else f.

Definition create_citation_from_bibtex (entry : str) : option Citation :=
  match split [NL] (strip entry) with
  | [] => None
  | first :: rest =>
      match match_header first with
      | None => None
      | Some ck =>
          let f := fold_left parse_line rest init_fields in
          if py_all [truthy_str ck; truthy_str (f_title f);
                     truthy_list (f_authors f); truthy_int (f_year f)]
          then Some (new_citation ck (f_title f) (f_authors f) (f_year f)
                       (f_journal f) (f_doi f) (f_arxiv_id f) entry)
          else None
      end
  end.

(* ================================================================== *)
(** * Loading a bibliography file ([main.py]) *)
(* ================================================================== *)

(** The variables of the loop that cuts the file into entries. *)
Record SplitState := mkSplit {
  entries : list str;
  current_entry : list str;
  in_entry : bool
}.

(** [if current_entry: entries.append('\n'.join(current_entry))] *)
Definition flush_entry (st : SplitState) : list str :=
  if truthy_list (current_entry st)
  then entries st ++ [join [NL] (current_entry st)]
  else entries st.

(** One turn of [for line in content.split('\n')]. *)
Definition split_step (st : SplitState) (line : str) : SplitState :=
  if starts_with (lit "@") (strip line) then
    mkSplit (flush_entry st) [line] true
  else if in_entry st then
    mkSplit (entries st) (current_entry st ++ [line])
            (if str_eqb (strip line) (lit "}") then false else in_entry st)
  else st.

(** The entries of a bibliography file. *)
Definition split_entries (content : str) : list str :=
  flush_entry (fold_left split_step (split [NL] content) (mkSplit [] [] false)).

(** [_load_existing_bibliography], from the text read from the file: every
    entry that parses is added to the store. *)
Definition _load_existing_bibliography (self : CitationManager) (content : str)
    : CitationManager :=
  fold_left
    (fun m entry =>
       match create_citation_from_bibtex entry with
       | Some citation => add_citation m citation
       | None => m
       end)
    (split_entries content) self.

(* ================================================================== *)
(** * Verification engine *)
(* ================================================================== *)

(** What the program has done to the outside so far: the number of HEAD
    requests issued and the seconds slept. *)
Record World := mkWorld { heads : nat; slept : nat }.

(** What one HEAD request comes back with: a response carrying a status
    code, or a [requests.RequestException]. *)
Inductive outcome :=
| Response (status_code : Z)
| TransportFault.

(** Computations that act on the world and may raise. *)
Definition M (A : Type) : Type := World -> result A * World.

Definition ret {A} (a : A) : M A := fun w => (Ok a, w).

Definition bind {A B} (m : M A) (k : A -> M B) : M B :=
  fun w =>
    match m w with
    | (Ok a, w') => k a w'
    | (Raise e, w') => (Raise e, w')
    end.

Notation "x <- m ;; k" := (bind m (fun x => k))
  (at level 61, m at next level, right associativity).

Definition exn_eqb (a b : exn) : bool :=
  match a, b with
  | RequestException, RequestException => true
  | KeyError, KeyError => true
  | ZeroDivisionError, ZeroDivisionError => true
  | _, _ => false
  end.

(** [try: body  except caught: handler] *)
Definition try_except {A} (body : M A) (caught : exn) (handler : M A) : M A :=
  fun w =>
    match body w with
    | (Raise e, w') => if exn_eqb e caught then handler w' else (Raise e, w')
    | r => r
    end.

(** [range(n)] *)
Definition range (n : Z) : list Z := map Z.of_nat (seq 0 (Z.to_nat n)).

(** The verdict of [verify_citation]: the error dictionary, or the three
    flags. *)
Inductive report :=
| NotFound
| Results (ads_url_valid doi_url_valid metadata_complete : bool).

Section Verification.

(** The network and the clock, as the program meets them. *)
Variable network : World -> str -> outcome.
Variable utcnow_isoformat : World -> str.

(** [requests.head(url, timeout=..., allow_redirects=True).status_code] *)
Definition requests_head (url : str) : M Z :=
  fun w =>
    (match network w url with
     | Response s => Ok s
     | TransportFault => Raise RequestException
     end, mkWorld (S (heads w)) (slept w)).

Definition time_sleep (seconds : nat) : M unit :=
  fun w => (Ok tt, mkWorld (heads w) (slept w + seconds)).

Definition datetime_utcnow_isoformat : M str :=
  fun w => (Ok (utcnow_isoformat w), w).

(** One turn of the loop of [verify_url]: [Some v] when the turn returns [v]
    from the function, [None] when the loop goes on. *)
Definition verify_url_attempt (self : CitationManager) (url : str)
    (attempt : Z) : M (option (bool * Z)) :=
  try_except
    (status <- requests_head url ;;
     ret (Some (status =? 200, status)))
    RequestException
    (if attempt =? max_retries self - 1 then ret (Some (false, 0))
     else _ <- time_sleep 1 ;; ret None).

Fixpoint verify_url_loop (self : CitationManager) (url : str)
    (attempts : list Z) : M (bool * Z) :=
  match attempts with
  | [] => ret (false, 0)
  | attempt :: rest =>
      r <- verify_url_attempt self url attempt ;;
      match r with
      | Some v => ret v
      | None => verify_url_loop self url rest
      end
  end.

Definition verify_url (self : CitationManager) (url : str) : M (bool * Z) :=
  verify_url_loop self url (range (max_retries self)).

(** [verify_citation]: the report and the manager after the call.  The
    citation is one object, changed in place, so it keeps its place in the
    store. *)
Definition verify_citation (self : CitationManager) (ck : str)
    : M (report * CitationManager) :=
  match dict_get str_eqb ck (citations self) with
  | None => ret (NotFound, self)
  | Some citation =>
      r1 <- (if truthy_opt (ads_url citation) then
               vs <- verify_url self (opt_text (ads_url citation)) ;;
               ret (fst vs, set_http_status_ads (Some (snd vs)) citation)
             else ret (false, citation)) ;;
      r2 <- (if truthy_opt (doi (snd r1)) then
               let doi_url := lit "https://doi.org/" ++ opt_text (doi (snd r1)) in
               vs <- verify_url self doi_url ;;
               ret (fst vs,
                    set_publisher_url (Some doi_url)
                      (set_http_status_doi (Some (snd vs)) (snd r1)))
             else ret (false, snd r1)) ;;
      let complete :=
        py_all [truthy_str (title (snd r2)); truthy_list (authors (snd r2));
                truthy_int (year (snd r2)); truthy_str (citekey (snd r2))] in
      now <- datetime_utcnow_isoformat ;;
      ret (Results (fst r1) (fst r2) complete,
           with_citations
             (dict_set str_eqb ck (set_last_verified (Some now) (snd r2))
                (citations self)) self)
  end.

End Verification.

(** ** The whole store: [verify_all_citations] *)

Section VerifyAll.

Variable network : World -> str -> outcome.
Variable utcnow_isoformat : World -> str.

(** The variables of the loop of [verify_all_citations]: the reports
    gathered, the manager, and the number of pauses of half a second made
    between records ([time.sleep(0.5)]; the whole seconds slept inside
    [verify_url] are counted in the world). *)
Record BatchState := mkBatch {
  batch_results : @dict str report;
  batch_self : CitationManager;
  batch_pauses : nat
}.

(** [for citekey in self.citations: results[citekey] = self.verify_citation(citekey); time.sleep(0.5)]
    (the progress line printed for each key is left out). *)
Fixpoint verify_all_loop (keys : list str) (st : BatchState) : M BatchState :=
  match keys with
  | [] => ret st
  | ck :: rest =>
      r <- verify_citation network utcnow_isoformat (batch_self st) ck ;;
      verify_all_loop rest
        (mkBatch (dict_set str_eqb ck (fst r) (batch_results st)) (snd r)
                 (S (batch_pauses st)))
  end.

Definition verify_all_citations (self : CitationManager) : M BatchState :=
  verify_all_loop (map fst (citations self)) (mkBatch [] self 0).

End VerifyAll.

(* ================================================================== *)
(** * Coverage report *)
(* ================================================================== *)

(** A Python number: an [int], or a [float].  A [float] is a double
    (IEEE 754 binary64); a finite double is kept as the rational number
    that it is.  The report meets no other: its quotient is at most 1. *)
Inductive number :=
| PyInt (z : Z)
| PyFloat (q : Q).

(** The integer nearest to [n / d], for a positive [d]; of two nearest
    integers, the even one. *)
Definition round_half_even (n d : Z) : Z :=
  let q := n / d in
  let r := n mod d in
  if 2 * r <? d then q
  else if d <? 2 * r then q + 1
  else if Z.even q then q else q + 1.

(** The binary exponent of the positive rational [n / d]: the [e] with
    [2^e <= n / d < 2^(e+1)]. *)
Definition ilog2 (n d : positive) : Z :=
  let k := Z.log2 (Zpos d) + 1 in
  Z.log2 (Zpos n * 2 ^ k / Zpos d) - k.

(** The double nearest to the positive rational [n / d], ties going to the
    even significand: a significand of 53 bits, or of fewer bits for the
    subnormal numbers, whose exponent stays at -1022.  The result is
    reduced, so that a double has one representation.  (The overflow of a
    result of magnitude [2^1024] or more is not modelled.) *)
Definition round_double_pos (n d : positive) : Q :=
  let s := Z.min (52 - ilog2 n d) 1074 in
  if 0 <=? s
  then Qred (Qmake (round_half_even (Zpos n * 2 ^ s) (Zpos d))
                   (Z.to_pos (2 ^ s)))
  else Qred (inject_Z (round_half_even (Zpos n) (Zpos d * 2 ^ (- s))
                       * 2 ^ (- s))).

Definition round_double (q : Q) : Q :=
  match Qnum q with
  | Z0 => 0%Q
  | Zpos n => round_double_pos n (Qden q)
  | Zneg n => (- round_double_pos n (Qden q))%Q
  end.

(** [a / b] on integers: the double nearest to the quotient. *)
Definition truediv (a b : Z) : result Q :=
  if b =? 0 then Raise ZeroDivisionError
  else Ok (round_double (Qmake (a * Z.sgn b) (Z.to_pos (Z.abs b)))).

(** [x * y] on floats, and [x * n] for an [int] that is a double: the double
    nearest to the product. *)
Definition float_mul (x y : Q) : Q := round_double (x * y).

Record Report := mkReport {
  total_citations : Z;
  verified_count : Z;
  ads_urls_valid : Z;
  doi_urls_valid : Z;
  verification_percentage : number
}.

(** [sum(1 for c in values if p(c))] *)
Definition count_if {A} (p : A -> bool) (l : list A) : Z :=
  Z.of_nat (List.length (filter p l)).

Definition status_is_200 (o : option Z) : bool :=
  match o with Some s => s =? 200 | None => false end.

Definition get_verification_report (self : CitationManager) : result Report :=
  let values := map snd (citations self) in
  let total := Z.of_nat (List.length (citations self)) in
  let verified := count_if (fun c => truthy_opt (last_verified c)) values in
  let ads_valid := count_if (fun c => status_is_200 (http_status_ads c)) values in
  let doi_valid := count_if (fun c => status_is_200 (http_status_doi c)) values in
  match (if 0 <? total
         then match truediv verified total with
              | Ok q => Ok (PyFloat (float_mul q 100))
              | Raise e => Raise e
              end
         else Ok (PyInt 0)) with
  | Ok pct => Ok (mkReport total verified ads_valid doi_valid pct)
  | Raise e => Raise e
  end.

(* ================================================================== *)
(** * The ledger *)
(* ================================================================== *)

(** A ledger file: absent, or holding the list of records that
    [json.dump] wrote, each with all its fields ([to_dict] then [from_dict]
    give the record back). *)
Definition ledger := option (list Citation).

(** [save_to_ledger]: what is written to the file. *)
Definition save_to_ledger (self : CitationManager) : ledger :=
  Some (map snd (citations self)).

(** One turn of [for entry in data]: the entry is stored under its own
    citekey. *)
Definition ledger_put (m : CitationManager) (entry : Citation)
    : CitationManager :=
  with_citations (dict_set str_eqb (citekey entry) entry (citations m)) m.

(** [load_from_ledger]: a missing file ([FileNotFoundError]) leaves the
    manager as it is. *)
Definition load_from_ledger (self : CitationManager) (file : ledger)
    : CitationManager :=
  match file with
  | Some data => fold_left ledger_put data self
  | None => self
  end.

(* ================================================================== *)
(** * Deduplication engine *)
(* ================================================================== *)

Definition _citation_completeness (c : Citation) : Z :=
  let score := 0 in
  let score := if truthy_opt (ads_bibcode c) then score + 3 else score in
  let score := if truthy_opt (doi c) then score + 2 else score in
  let score := if truthy_opt (arxiv_id c) then score + 1 else score in
  let score := if truthy_opt (journal c) then score + 1 else score in
  let score := if truthy_str (bibtex_entry c) then score + 2 else score in
  score.

(** [(citation.title.lower().strip(), citation.year)] *)
Definition dedup_key (c : Citation) : str * Z :=
  (strip (lower (title c)), year c).

Definition key_eqb (a b : str * Z) : bool :=
  (str_eqb (fst a) (fst b) && (snd a =? snd b))%bool.

(** The variables of the loop of [deduplicate_citations], with the store. *)
Record DedupState := mkDedup {
  seen : @dict (str * Z) str;
  duplicates : list str;
  store : @dict str Citation
}.

(** One turn of [for citekey, citation in list(self.citations.items())]. *)
Definition dedup_step (st : DedupState) (item : str * Citation)
    : result DedupState :=
  let (ck, citation) := item in
  let key := dedup_key citation in
  match dict_get key_eqb key (seen st) with
  | Some kept =>
      match dict_getitem str_eqb kept (store st) with
      | Raise e => Raise e
      | Ok existing =>
          if _citation_completeness citation >? _citation_completeness existing
          then
            match dict_del str_eqb kept (store st) with
            | Raise e => Raise e
            | Ok d =>
                Ok (mkDedup (dict_set key_eqb key ck (seen st))
                            (duplicates st ++ [kept]) d)
            end
          else
            match dict_del str_eqb ck (store st) with
            | Raise e => Raise e
            | Ok d => Ok (mkDedup (seen st) (duplicates st ++ [ck]) d)
            end
      end
  | None =>
      Ok (mkDedup (dict_set key_eqb key ck (seen st)) (duplicates st) (store st))
  end.

Fixpoint dedup_loop (items : list (str * Citation)) (st : DedupState)
    : result DedupState :=
  match items with
  | [] => Ok st
  | item :: rest =>
      match dedup_step st item with
      | Ok st' => dedup_loop rest st'
      | Raise e => Raise e
      end
  end.

(** [deduplicate_citations]: the list returned and the manager after the
    call. *)
Definition deduplicate_citations (self : CitationManager)
    : result (list str * CitationManager) :=
  match dedup_loop (citations self) (mkDedup [] [] (citations self)) with
  | Ok st => Ok (duplicates st, with_citations (store st) self)
  | Raise e => Raise e
  end.

(* ================================================================== *)
(** * Provenance tracker ([provenance_tracker.py]) *)
(* ================================================================== *)

(** [class SearchQuery] and [class InclusionDecision]; the fields of the
    second that bear a name of the first or of [Citation] are prefixed. *)
Record SearchQuery := mkQuery {
  query_string : str;
  database : str;
  timestamp : str;
  num_results : Z;
  included_count : Z;
  excluded_count : Z;
  query_notes : str
}.

Record InclusionDecision := mkDecision {
  decision_citekey : str;
  decision_title : str;
  decision : str;
  rationale : str;
  criteria_met : list str;
  criteria_failed : list str;
  decision_timestamp : str;
  reviewed_by : str
}.

(** Of the configuration (a dictionary read from a YAML file), the entry
    [config['literature_search']] and, in it, the three lists that the
    tracker reads.  Each may be missing; one that is there is taken to be
    a list of texts. *)
Record LiteratureSearch := mkSearch {
  inclusion_criteria : option (list str);
  exclusion_criteria : option (list str);
  ads_queries : option (list str)
}.

Record Config := mkConfig {
  literature_search : option LiteratureSearch
}.

(** [config['literature_search'][name]]: a missing key raises. *)
Definition config_list (cfg : Config)
    (name : LiteratureSearch -> option (list str)) : result (list str) :=
  match literature_search cfg with
  | None => Raise KeyError
  | Some section =>
      match name section with
      | None => Raise KeyError
      | Some l => Ok l
      end
  end.

(** [class ProvenanceTracker] *)
Record ProvenanceTracker := mkTracker {
  config : Config;
  queries : list SearchQuery;
  decisions : @dict str InclusionDecision
}.

Definition add_query (self : ProvenanceTracker) (query : SearchQuery)
    : ProvenanceTracker :=
  mkTracker (config self) (queries self ++ [query]) (decisions self).

Definition add_decision (self : ProvenanceTracker) (d : InclusionDecision)
    : ProvenanceTracker :=
  mkTracker (config self) (queries self)
    (dict_set str_eqb (decision_citekey d) d (decisions self)).

(** [create_default_queries], with the reading of the clock. *)
Definition create_default_queries (cfg : Config) (now : str)
    : result (list SearchQuery) :=
  match config_list cfg ads_queries with
  | Ok l =>
      Ok (map (fun q => mkQuery q (lit "NASA/ADS") now 0 0 0
                          (lit "Default query from configuration")) l)
  | Raise e => Raise e
  end.

(** [[d for d in self.decisions.values() if d.decision == label]] *)
Definition decisions_with (label : str) (self : ProvenanceTracker)
    : list InclusionDecision :=
  filter (fun d => str_eqb (decision d) label) (map snd (decisions self)).











(* ================================================================== *)
(** * Vocabulary of the specification and of the proofs *)
(* ================================================================== *)

(** ** Verification *)

(** The success class of HTTP status codes (2xx). *)
Definition success_class (status : Z) : bool :=
  ((200 <=? status) && (status <? 300))%bool.

(** The world in which the attempt of index [i] of one [verify_url] call is
    made, when every earlier attempt of the call failed: one more request and
    one more second of sleep per failed attempt. *)
Definition after_faults (w : World) (i : nat) : World :=
  mkWorld (heads w + i) (slept w + i).

(** The record that [verify_citation] leaves behind, from the statuses
    [sa] and [sd] observed for the ADS and the DOI URL and the time read. *)
Definition verified_record (c : Citation) (sa sd : Z) (now : str) : Citation :=
  let c1 := if truthy_opt (ads_url c)
            then set_http_status_ads (Some sa) c else c in
  let c2 := if truthy_opt (doi c1)
            then set_publisher_url
                   (Some (lit "https://doi.org/" ++ opt_text (doi c1)))
                   (set_http_status_doi (Some sd) c1)
            else c1 in
  set_last_verified (Some now) c2.

(** Two records agree on every field that is not one of the four
    verification fields ([http_status_ads], [http_status_doi],
    [publisher_url], [last_verified]). *)
Definition same_outside_verification (c c' : Citation) : Prop :=
  citekey c' = citekey c /\ title c' = title c
  /\ authors c' = authors c /\ year c' = year c
  /\ journal c' = journal c /\ doi c' = doi c
  /\ arxiv_id c' = arxiv_id c /\ ads_bibcode c' = ads_bibcode c
  /\ ads_url c' = ads_url c /\ crossref_match c' = crossref_match c
  /\ ads_match c' = ads_match c /\ notes c' = notes c
  /\ bibtex_entry c' = bibtex_entry c.

(** ** Codec *)

(** A valid record: non-empty citekey and title, at least one author, a
    year that is not 0; what the parser's [all([...])] asks for. *)
Definition valid_record (r : Citation) : bool :=
  (truthy_str (citekey r) && truthy_str (title r)
   && truthy_list (authors r) && truthy_int (year r))%bool.

(** The characters that the parser strips from both ends of a value: the
    two braces and the double quote. *)
Definition is_wrapper (c : ascii) : bool := mem_char (lit "{}" ++ [DQUOTE]) c.

(** [s] is empty, or neither its first nor its last character is in [p]. *)
Definition ends_clear (p : ascii -> bool) (s : str) : bool :=
  match s with
  | [] => true
  | c :: _ => (negb (p c) && negb (p (last s c)))%bool
  end.

Definition no_newline (s : str) : bool := negb (contains NL s).

(** No carriage return in [s]. *)
Definition no_return (s : str) : bool := negb (contains CR s).

(** [sep] occurs somewhere in [s] ([sep in s], for a non-empty [sep]), and
    [s] ends with [suffix] ([s.endswith(suffix)]). *)
Fixpoint occurs (sep s : str) : bool :=
  match s with
  | [] => false
  | _ :: s' => (starts_with sep s || occurs sep s')%bool
  end.

Definition ends_with (suffix s : str) : bool :=
  starts_with (rev suffix) (rev s).

(** An author name that survives [" and ".join] followed by
    [split(" and ")] and [strip()]: no line feed, no white space at either
    end, no [" and "] inside and no [" and"] at the end. *)
Definition author_ok (a : str) : bool :=
  (no_newline a && ends_clear isspace a
   && negb (occurs (lit " and ") a) && negb (ends_with (lit " and") a))%bool.

(** The records whose generated text the parser reads back: valid, no cached
    text, no comma or line feed in the citekey, no line feed in any field
    that generation may emit, a title and a joined author list that neither
    begin nor end with a brace or a double quote, and authors that are
    [author_ok]. *)
Definition round_trips (r : Citation) : bool :=
  (valid_record r
   && negb (truthy_str (bibtex_entry r))
   && forallb not_comma (citekey r) && no_newline (citekey r)
   && no_newline (title r) && ends_clear is_wrapper (title r)
   && forallb author_ok (authors r)
   && ends_clear is_wrapper (join (lit " and ") (authors r))
   && no_newline (opt_text (journal r)) && no_newline (opt_text (doi r))
   && no_newline (opt_text (arxiv_id r)) && no_newline (opt_text (ads_bibcode r))
   && no_newline (opt_text (ads_url r))
   && no_newline (opt_text (publisher_url r)))%bool.

(** The Tully and Fisher record of the specification's scenario. *)
Definition tully1977 : Citation :=
  mkCitation (lit "tully1977new")
    (lit "A New Method of Determining Distances to Galaxies")
    [lit "R. Brent Tully"; lit "J. Richard Fisher"] 1977
    (Some (lit "Astronomy and Astrophysics")) (Some (lit "1977A&A....54..661T"))
    None None None None None None None false false [] [].

(** No occurrence of [sep] begins inside [a] when [a] is followed by
    [tail]. *)
Fixpoint clear_of (sep a tail : str) : bool :=
  match a with
  | [] => true
  | _ :: a' => (negb (starts_with sep (a ++ tail)) && clear_of sep a' tail)%bool
  end.

(** A line that leaves title, authors and year as they are. *)
Definition inert (line : str) : Prop :=
  forall f,
    f_title (parse_line f line) = f_title f
    /\ f_authors (parse_line f line) = f_authors f
    /\ f_year (parse_line f line) = f_year f.

(** The lines that follow the year line of a generated entry. *)
Definition tail_lines (c : Citation) : list str :=
  when (truthy_opt (journal c))
    [field_line (lit "journal") (opt_text (journal c))]
  ++ when (truthy_opt (doi c))
       [field_line (lit "doi") (opt_text (doi c))]
  ++ when (truthy_opt (arxiv_id c))
       [field_line (lit "eprint") (opt_text (arxiv_id c));
        field_line (lit "archivePrefix") (lit "arXiv")]
  ++ when (truthy_opt (ads_bibcode c))
       [field_line (lit "adsurl") (adsurl_value c)]
  ++ when (truthy_opt (publisher_url c))
       [field_line (lit "url") (opt_text (publisher_url c))]
  ++ [lit "}"].

(** A run of decimal digits, and the number it writes (after [acc]). *)
Definition all_digits (ds : str) : bool :=
  forallb (fun c => between 48 57 (code c)) ds.

Definition digits_value (acc : Z) (ds : str) : Z :=
  fold_left (fun a c => 10 * a + (Z.of_N (code c) - 48)) ds acc.

(** ** Deduplication *)

(** The best record met so far for the equality key [g], as the loop keeps
    it: a record of the group replaces the one kept only with a strictly
    higher score. *)
Definition running_best (g : str * Z) (best : option (str * Citation))
    (x : str * Citation) : option (str * Citation) :=
  if key_eqb (dedup_key (snd x)) g then
    match best with
    | None => Some x
    | Some b =>
        if _citation_completeness (snd x) >? _citation_completeness (snd b)
        then Some x else Some b
    end
  else best.

Definition leader (g : str * Z) (p : list (str * Citation))
    : option (str * Citation) :=
  fold_left (running_best g) p None.

(** The key of a record is not among the keys removed. *)
Definition alive (removed : list str) (y : str * Citation) : bool :=
  negb (existsb (str_eqb (fst y)) removed).

(** The state of the loop of [deduplicate_citations] once the items [p] of
    the store [s] have been passed: the store holds the records of [s] that
    were not removed, [seen] maps each equality key met to the citekey of
    its running best, and the citekeys removed are those of the records of
    [p] that are not the running best of their key. *)
Definition dedup_inv (s p : list (str * Citation)) (st : DedupState) : Prop :=
  store st = filter (alive (duplicates st)) s
  /\ NoDup (duplicates st)
  /\ (forall g, dict_get key_eqb g (seen st) = option_map fst (leader g p))
  /\ (forall k, In k (duplicates st) <->
        exists c, In (k, c) p
                  /\ option_map fst (leader (dedup_key c) p) <> Some k).

(** ** Bibliography files *)

(** The lines of the entry that [_generate_basic_bibtex] writes. *)
Definition entry_lines (c : Citation) : list str :=
  ("@"%char
   :: (if truthy_opt (journal c) then lit "article" else lit "misc")
      ++ "{"%char :: citekey c ++ [","%char])
  :: field_line (lit "title") (title c)
  :: field_line (lit "author") (join (lit " and ") (authors c))
  :: field_line (lit "year") (str_of_int (year c))
  :: tail_lines c.

(** A line at which the loader begins an entry, and a line at which it
    ends one. *)
Definition opens (line : str) : bool := starts_with (lit "@") (strip line).
Definition closes (line : str) : bool := str_eqb (strip line) (lit "}").

(** Of the lines that follow the first line of an entry, up to the next
    line that opens one, the lines that the loader keeps: those up to the
    first line that closes, that line included. *)
Fixpoint until_close (ls : list str) : list str :=
  match ls with
  | [] => []
  | l :: ls' => if closes l then [l] else l :: until_close ls'
  end.

(** [l] is in non-decreasing order of [key]. *)
Fixpoint ordered {A} (key : A -> Z * str) (l : list A) : bool :=
  match l with
  | x :: l' =>
      match l' with
      | y :: _ => (tuple_leb (key x) (key y) && ordered key l')%bool
      | [] => true
      end
  | [] => true
  end.

(** ** Provenance *)




(* ================================================================== *)
(** * Facts on the built-ins *)
(* ================================================================== *)

Lemma str_eqb_eq (a b : str) : str_eqb a b = true <-> a = b.
Proof.
  revert b; induction a as [|x a IH]; intros [|y b]; simpl;
    try (split; congruence).
  rewrite andb_true_iff, Ascii.eqb_eq, IH. split.
  - intros [-> ->]; reflexivity.
  - intros H; inversion H; auto.
Qed.

Lemma str_eqb_refl (a : str) : str_eqb a a = true.
Proof. apply str_eqb_eq; reflexivity. Qed.

Lemma str_eqb_neq (a b : str) : a <> b -> str_eqb a b = false.
Proof.
  intros H. destruct (str_eqb a b) eqn:E; auto.
  apply str_eqb_eq in E; contradiction.
Qed.

Section DictFacts.
Context {K V : Type} (eqb : K -> K -> bool).
Hypothesis eqb_eq : forall a b, eqb a b = true <-> a = b.

Lemma eqb_same (a : K) : eqb a a = true.
Proof. apply eqb_eq; reflexivity. Qed.

Lemma eqb_diff (a b : K) : a <> b -> eqb a b = false.
Proof.
  intros H. destruct (eqb a b) eqn:E; auto. apply eqb_eq in E; contradiction.
Qed.

Lemma dict_get_set_same (k : K) (v : V) (d : @dict K V) :
  dict_get eqb k (dict_set eqb k v d) = Some v.
Proof.
  induction d as [|[k' v'] d IH]; simpl.
  - rewrite eqb_same; reflexivity.
  - destruct (eqb k' k) eqn:E; simpl; rewrite E; auto.
Qed.

Lemma dict_get_set_other (k k0 : K) (v : V) (d : @dict K V) :
  k0 <> k -> dict_get eqb k0 (dict_set eqb k v d) = dict_get eqb k0 d.
Proof.
  intros Hne. induction d as [|[k' v'] d IH]; simpl.
  - rewrite eqb_diff; auto.
  - destruct (eqb k' k) eqn:E; simpl.
    + apply eqb_eq in E; subst k'. rewrite eqb_diff; auto.
    + rewrite IH; reflexivity.
Qed.

Lemma dict_set_keys (k : K) (v v0 : V) (d : @dict K V) :
  dict_get eqb k d = Some v0 ->
  map fst (dict_set eqb k v d) = map fst d.
Proof.
  induction d as [|[k' v'] d IH]; simpl; [discriminate|].
  destruct (eqb k' k) eqn:E; simpl; intros H; [reflexivity|].
  rewrite IH; auto.
Qed.

Lemma dict_set_keys_new (k : K) (v : V) (d : @dict K V) :
  dict_get eqb k d = None ->
  map fst (dict_set eqb k v d) = map fst d ++ [k] /\ ~ In k (map fst d).
Proof.
  induction d as [|[k' v'] d IH]; simpl; intros H.
  - auto.
  - destruct (eqb k' k) eqn:E; [discriminate|].
    destruct (IH H) as [E' Hn]. cbn [map fst]. rewrite E'.
    split; [reflexivity|].
    intros [->|Hin]; [|contradiction].
    rewrite eqb_same in E. discriminate.
Qed.

End DictFacts.

Lemma NoDup_snoc {A} (l : list A) (a : A) :
  NoDup l -> ~ In a l -> NoDup (l ++ [a]).
Proof.
  induction l as [|x l IH]; simpl; intros Hn Ha.
  - constructor; auto.
  - inversion Hn; subst. constructor.
    + rewrite in_app_iff. simpl. intuition congruence.
    + apply IH; auto.
Qed.

(** The store is a dictionary: [add_citation] keeps one entry per key. *)
Lemma add_citation_keeps_keys (self : CitationManager) (c : Citation) :
  NoDup (map fst (citations self)) ->
  NoDup (map fst (citations (add_citation self c))).
Proof.
  unfold add_citation, with_citations. cbn [citations]. intros Hd.
  destruct (dict_get str_eqb (citekey c) (citations self)) as [v0|] eqn:E.
  - rewrite (dict_set_keys str_eqb (citekey c) c v0 _ E). exact Hd.
  - destruct (dict_set_keys_new str_eqb str_eqb_eq (citekey c) c _ E)
      as [-> Hn].
    apply NoDup_snoc; auto.
Qed.

(* ================================================================== *)
(** * The verification engine *)
(* ================================================================== *)

Section VerificationFacts.

Variable network : World -> str -> outcome.
Variable utcnow_isoformat : World -> str.
Variable self : CitationManager.
Variable url : str.

Lemma after_faults_0 (w : World) : after_faults w 0 = w.
Proof. destruct w; unfold after_faults; simpl. f_equal; lia. Qed.

Lemma after_faults_S (w : World) (i : nat) :
  after_faults (mkWorld (S (heads w)) (slept w + 1)) i = after_faults w (S i).
Proof. unfold after_faults; simpl. f_equal; lia. Qed.

Lemma attempt_response (a : Z) (w : World) (s : Z) :
  network w url = Response s ->
  verify_url_attempt network self url a w
  = (Ok (Some (s =? 200, s)), mkWorld (S (heads w)) (slept w)).
Proof.
  intros H. unfold verify_url_attempt, try_except, bind, requests_head, ret.
  rewrite H. reflexivity.
Qed.

Lemma attempt_fault (a : Z) (w : World) :
  network w url = TransportFault ->
  verify_url_attempt network self url a w
  = if a =? max_retries self - 1
    then (Ok (Some (false, 0)), mkWorld (S (heads w)) (slept w))
    else (Ok None, mkWorld (S (heads w)) (slept w + 1)).
Proof.
  intros H. unfold verify_url_attempt, try_except, bind, requests_head, ret.
  rewrite H. simpl. destruct (a =? max_retries self - 1); reflexivity.
Qed.

(** The loop never raises and issues at most one request per turn. *)
Lemma verify_url_loop_returns (attempts : list Z) (w : World) :
  exists v w',
    verify_url_loop network self url attempts w = (Ok v, w')
    /\ (heads w <= heads w' <= heads w + List.length attempts)%nat.
Proof.
  revert w. induction attempts as [|a rest IH]; intros w; simpl.
  - exists (false, 0), w. split; [reflexivity | lia].
  - unfold bind. destruct (network w url) as [s|] eqn:E.
    + rewrite (attempt_response a w s E).
      eexists _, _. split; [reflexivity | simpl; lia].
    + rewrite (attempt_fault a w E).
      destruct (a =? max_retries self - 1).
      * eexists _, _. split; [reflexivity | simpl; lia].
      * destruct (IH (mkWorld (S (heads w)) (slept w + 1)))
          as (v & w' & Hv & Hh).
        exists v, w'. split; [exact Hv | simpl in Hh; lia].
Qed.

(** The turns [a, a+1, ..., a+k-1] that end the range of [max_retries]. *)
Lemma verify_url_loop_all_fail (k a : nat) (w : World) :
  (a + k = Z.to_nat (max_retries self))%nat ->
  (forall i, (i < k)%nat -> network (after_faults w i) url = TransportFault) ->
  exists w',
    verify_url_loop network self url (map Z.of_nat (seq a k)) w
    = (Ok (false, 0), w')
    /\ heads w' = (heads w + k)%nat.
Proof.
  revert a w. induction k as [|k IH]; intros a w Hn Hall; simpl.
  - exists w. split; [reflexivity | lia].
  - unfold bind.
    assert (H0 : network w url = TransportFault).
    { rewrite <- (after_faults_0 w). apply Hall; lia. }
    rewrite (attempt_fault _ w H0).
    destruct (Z.of_nat a =? max_retries self - 1) eqn:E.
    + assert (k = 0)%nat by lia. subst k.
      eexists. split; [reflexivity | simpl; lia].
    + destruct (IH (S a) (mkWorld (S (heads w)) (slept w + 1)))
        as (w' & Hv & Hh).
      * lia.
      * intros i Hi. rewrite after_faults_S. apply Hall; lia.
      * exists w'. split; [exact Hv | simpl in Hh; lia].
Qed.

Lemma verify_url_loop_first_response (k a j : nat) (w : World) (s : Z) :
  (a + k = Z.to_nat (max_retries self))%nat ->
  (j < k)%nat ->
  (forall i, (i < j)%nat -> network (after_faults w i) url = TransportFault) ->
  network (after_faults w j) url = Response s ->
  verify_url_loop network self url (map Z.of_nat (seq a k)) w
  = (Ok (s =? 200, s), mkWorld (heads w + j + 1) (slept w + j)).
Proof.
  revert a j w. induction k as [|k IH]; intros a j w Hn Hj Hall Hs; [lia|].
  simpl. unfold bind. destruct j as [|j].
  - rewrite after_faults_0 in Hs. rewrite (attempt_response _ w s Hs).
    unfold ret. do 2 f_equal; lia.
  - assert (H0 : network w url = TransportFault).
    { rewrite <- (after_faults_0 w). apply Hall; lia. }
    rewrite (attempt_fault _ w H0).
    destruct (Z.of_nat a =? max_retries self - 1) eqn:E; [lia|].
    rewrite (IH (S a) j).
    + simpl. do 2 f_equal; lia.
    + lia.
    + lia.
    + intros i Hi. rewrite after_faults_S. apply Hall; lia.
    + rewrite after_faults_S. exact Hs.
Qed.

Lemma verify_url_returns (w : World) :
  exists v w',
    verify_url network self url w = (Ok v, w')
    /\ (heads w <= heads w' <= heads w + Z.to_nat (max_retries self))%nat.
Proof.
  unfold verify_url.
  destruct (verify_url_loop_returns (range (max_retries self)) w)
    as (v & w' & Hv & Hh).
  exists v, w'. split; [exact Hv|].
  unfold range in Hh. rewrite length_map, length_seq in Hh. exact Hh.
Qed.

End VerificationFacts.

(** C4.  [verify_url] always returns a pair and never raises, whatever the
    network does; it issues at most [max_retries] requests; when the first
    [max_retries] attempts all meet a transport fault it returns
    [(False, 0)] after exactly [max_retries] requests, every failed attempt
    having used up one of them; and when the attempt of index [j] is the
    first to get a response, it returns on that attempt, after [j + 1]
    requests, with the verdict of that response. *)
Theorem verify_url_bounded_retry
    (network : World -> str -> outcome) (self : CitationManager)
    (url : str) (w : World) :
  let n := Z.to_nat (max_retries self) in
  (exists v w',
      verify_url network self url w = (Ok v, w')
      /\ (heads w <= heads w' <= heads w + n)%nat)
  /\ ((forall i, (i < n)%nat ->
         network (after_faults w i) url = TransportFault) ->
      exists w',
        verify_url network self url w = (Ok (false, 0), w')
        /\ heads w' = (heads w + n)%nat)
  /\ (forall j s, (j < n)%nat ->
        (forall i, (i < j)%nat ->
           network (after_faults w i) url = TransportFault) ->
        network (after_faults w j) url = Response s ->
        exists w',
          verify_url network self url w = (Ok (s =? 200, s), w')
          /\ heads w' = (heads w + j + 1)%nat).
Proof.
  intros n. split; [|split].
  - destruct (verify_url_returns network self url w) as (v & w' & Hv & Hh).
    exists v, w'. split; [exact Hv | exact Hh].
  - intros Hall.
    destruct (verify_url_loop_all_fail network self url n 0 w) as (w' & Hv & Hh);
      [reflexivity | exact Hall |].
    exists w'. split; [exact Hv | exact Hh].
  - intros j s Hj Hall Hs. eexists. split.
    + apply (verify_url_loop_first_response network self url n 0 j w s);
        auto.
    + reflexivity.
Qed.

(** A manager with three retries whose network never answers: three
    requests, then [(False, 0)]; and one whose network answers 200 on the
    second attempt. *)
Lemma verify_url_bounded_retry_witness :
  (exists w',
      verify_url (fun _ _ => TransportFault) (mkManager [] 10 3)
        (lit "https://doi.org/10.1/x") (mkWorld 0 0) = (Ok (false, 0), w')
      /\ heads w' = 3%nat)
  /\ (exists w',
      verify_url (fun w _ => if Nat.eqb (heads w) 1 then Response 200
                             else TransportFault)
        (mkManager [] 10 3) (lit "https://doi.org/10.1/x") (mkWorld 0 0)
      = (Ok (true, 200), w')
      /\ heads w' = 2%nat).
Proof.
  split.
  - apply (proj1 (proj2 (verify_url_bounded_retry (fun _ _ => TransportFault)
                           (mkManager [] 10 3) (lit "https://doi.org/10.1/x")
                           (mkWorld 0 0)))).
    intros i Hi. reflexivity.
  - apply (proj2 (proj2 (verify_url_bounded_retry
                           (fun w _ => if Nat.eqb (heads w) 1 then Response 200
                                       else TransportFault)
                           (mkManager [] 10 3) (lit "https://doi.org/10.1/x")
                           (mkWorld 0 0))) 1%nat 200).
    + simpl. lia.
    + intros i Hi. assert (i = 0)%nat by lia. subst i. reflexivity.
    + reflexivity.
Defined.

(** C5, as stated, fails: a response with status 204 is of the success
    class, and [verify_url] reports the URL as not live. *)
Lemma verify_url_204_is_not_live :
  success_class 204 = true
  /\ fst (verify_url (fun _ _ => Response 204) (mkManager [] 10 3)
            (lit "https://doi.org/10.1/x") (mkWorld 0 0))
     = Ok (false, 204).
Proof. split; reflexivity. Qed.

(** C5, amended.  When the server responds (on the first attempt that is not
    a transport fault), [verify_url] returns [(status == 200, status)]: live
    exactly when the status is 200, which is a status of the success class,
    and [(False, status)] with the observed status for any other one. *)
Theorem verify_url_live_iff_200
    (network : World -> str -> outcome) (self : CitationManager)
    (url : str) (w : World) (j : nat) (s : Z) :
  (j < Z.to_nat (max_retries self))%nat ->
  (forall i, (i < j)%nat -> network (after_faults w i) url = TransportFault) ->
  network (after_faults w j) url = Response s ->
  exists live w',
    verify_url network self url w = (Ok (live, s), w')
    /\ (live = true <-> s = 200)
    /\ (live = true -> success_class s = true)
    /\ (s <> 200 -> live = false).
Proof.
  intros Hj Hall Hs. exists (s =? 200). eexists. split.
  - apply (verify_url_loop_first_response network self url _ 0 j w s); auto.
  - unfold success_class. repeat split; intros; lia.
Qed.

Lemma verify_url_live_iff_200_witness :
  exists live w',
    verify_url (fun _ _ => Response 404) (mkManager [] 10 3)
      (lit "https://doi.org/10.1/x") (mkWorld 0 0) = (Ok (live, 404), w')
    /\ (live = true <-> 404 = 200)
    /\ (live = true -> success_class 404 = true)
    /\ (404 <> 200 -> live = false).
Proof.
  apply (verify_url_live_iff_200 (fun _ _ => Response 404) (mkManager [] 10 3)
           (lit "https://doi.org/10.1/x") (mkWorld 0 0) 0%nat 404).
  - simpl. lia.
  - intros i Hi. lia.
  - reflexivity.
Defined.

Section VerifyCitationFacts.

Variable network : World -> str -> outcome.
Variable utcnow_isoformat : World -> str.
Variable self : CitationManager.

Lemma verify_citation_present (ck : str) (c : Citation) (w : World) :
  dict_get str_eqb ck (citations self) = Some c ->
  exists va vd complete sa sd w',
    verify_citation network utcnow_isoformat self ck w
    = (Ok (Results va vd complete,
           with_citations
             (dict_set str_eqb ck
                (verified_record c sa sd (utcnow_isoformat w'))
                (citations self)) self), w').
Proof.
  intros Hc. unfold verify_citation. rewrite Hc.
  assert (Hdoi : forall sa, doi (set_http_status_ads (Some sa) c) = doi c)
    by reflexivity.
  destruct (truthy_opt (ads_url c)) eqn:Ea.
  - destruct (verify_url_returns network self (opt_text (ads_url c)) w)
      as ([va sa] & w1 & Hv1 & _).
    destruct (truthy_opt (doi c)) eqn:Ed.
    + destruct (verify_url_returns network self
                  (lit "https://doi.org/" ++ opt_text (doi c)) w1)
        as ([vd sd] & w2 & Hv2 & _).
      eexists va, vd, _, sa, sd, w2.
      unfold bind. rewrite Hv1. unfold ret at 1. cbn [fst snd].
      rewrite Hdoi, Ed, Hv2. unfold verified_record. rewrite Ea, Hdoi, Ed.
      reflexivity.
    + eexists va, false, _, sa, 0, w1.
      unfold bind. rewrite Hv1. unfold ret at 1. cbn [fst snd].
      rewrite Hdoi, Ed. unfold verified_record. rewrite Ea, Hdoi, Ed.
      reflexivity.
  - destruct (truthy_opt (doi c)) eqn:Ed.
    + destruct (verify_url_returns network self
                  (lit "https://doi.org/" ++ opt_text (doi c)) w)
        as ([vd sd] & w2 & Hv2 & _).
      eexists false, vd, _, 0, sd, w2.
      unfold bind. unfold ret at 1. cbn [fst snd].
      rewrite Ed, Hv2. unfold verified_record. rewrite Ea, Ed.
      reflexivity.
    + eexists false, false, _, 0, 0, w.
      unfold bind. unfold ret at 1. cbn [fst snd].
      rewrite Ed. unfold verified_record. rewrite Ea, Ed.
      reflexivity.
Qed.

End VerifyCitationFacts.

(** C6.  For a record that is in the store, [verify_citation] returns a
    report (it does not raise) and leaves under the same key a record whose
    [last_verified] is the time read from the clock at the end of the call,
    whether or not the record has a [doi] or an [ads_url]; and when its [doi]
    is set, the record's [publisher_url] is ["https://doi.org/" + doi],
    whatever it held before. *)
Theorem verify_citation_stamps
    (network : World -> str -> outcome) (utcnow_isoformat : World -> str)
    (self : CitationManager) (ck : str) (c : Citation) (w : World) :
  dict_get str_eqb ck (citations self) = Some c ->
  exists rep self' w' c',
    verify_citation network utcnow_isoformat self ck w = (Ok (rep, self'), w')
    /\ dict_get str_eqb ck (citations self') = Some c'
    /\ last_verified c' = Some (utcnow_isoformat w')
    /\ (truthy_opt (doi c) = true ->
        publisher_url c' = Some (lit "https://doi.org/" ++ opt_text (doi c))).
Proof.
  intros Hc.
  destruct (verify_citation_present network utcnow_isoformat self ck c w Hc)
    as (va & vd & complete & sa & sd & w' & Hv).
  eexists _, _, w', _. split; [exact Hv|]. split; [|split].
  - simpl. apply dict_get_set_same. exact str_eqb_eq.
  - reflexivity.
  - intros Hd. unfold verified_record.
    destruct (truthy_opt (ads_url c)); simpl; rewrite Hd; reflexivity.
Qed.

(** A store of one record that has a DOI and a stale publisher URL. *)
Lemma verify_citation_stamps_witness :
  let c := mkCitation (lit "tully1977new") (lit "A New Method") [lit "R. Brent Tully"]
             1977 None None (Some (lit "10.1/x")) None None
             (Some (lit "http://old.example/")) None None None false false [] [] in
  let clock := fun w : World => lit "2024-01-01T00:00:00" in
  let net := fun (w : World) (u : str) => Response 200 in
  exists rep self' w' c',
    verify_citation net clock (mkManager [(lit "tully1977new", c)] 10 3)
      (lit "tully1977new") (mkWorld 0 0) = (Ok (rep, self'), w')
    /\ dict_get str_eqb (lit "tully1977new") (citations self') = Some c'
    /\ last_verified c' = Some (clock w')
    /\ (truthy_opt (doi c) = true ->
        publisher_url c' = Some (lit "https://doi.org/" ++ opt_text (doi c))).
Proof.
  intros c clock net.
  apply (verify_citation_stamps net clock
           (mkManager [(lit "tully1977new", c)] 10 3) (lit "tully1977new") c
           (mkWorld 0 0)).
  reflexivity.
Defined.

(** C9.  When the key is absent, [verify_citation] returns the not-found
    report and leaves the manager (and the world) as they were.  When it is
    present, the record left under the key agrees with the old one on
    every field other than [http_status_ads], [http_status_doi],
    [publisher_url] and [last_verified]; every other key of the store holds
    what it held, and the keys and their order are unchanged. *)
Theorem verify_citation_frame
    (network : World -> str -> outcome) (utcnow_isoformat : World -> str)
    (self : CitationManager) (ck : str) (w : World) :
  (dict_get str_eqb ck (citations self) = None ->
   verify_citation network utcnow_isoformat self ck w = (Ok (NotFound, self), w))
  /\ (forall c, dict_get str_eqb ck (citations self) = Some c ->
      exists va vd mc self' w' c',
        verify_citation network utcnow_isoformat self ck w
        = (Ok (Results va vd mc, self'), w')
        /\ dict_get str_eqb ck (citations self') = Some c'
        /\ same_outside_verification c c'
        /\ (forall k, k <> ck ->
            dict_get str_eqb k (citations self')
            = dict_get str_eqb k (citations self))
        /\ map fst (citations self') = map fst (citations self)
        /\ max_retries self' = max_retries self
        /\ verification_timeout self' = verification_timeout self).
Proof.
  split.
  - intros Hc. unfold verify_citation. rewrite Hc. reflexivity.
  - intros c Hc.
    destruct (verify_citation_present network utcnow_isoformat self ck c w Hc)
      as (va & vd & complete & sa & sd & w' & Hv).
    eexists va, vd, complete, _, w', _. split; [exact Hv|].
    split; [apply dict_get_set_same; exact str_eqb_eq|].
    split.
    { unfold verified_record, same_outside_verification.
      destruct (truthy_opt (ads_url c)); simpl;
        destruct (truthy_opt (doi c)); simpl; repeat split; reflexivity. }
    split.
    { intros k Hk. simpl. apply dict_get_set_other; auto using str_eqb_eq. }
    split.
    { simpl. eapply dict_set_keys; eauto. }
    split; reflexivity.
Qed.

(** A store of two records: an unknown key, then the first record checked
    over a network that never answers. *)
Lemma verify_citation_frame_witness :
  let c := mkCitation (lit "a") (lit "T") [lit "X"] 2001 None None
             (Some (lit "10.1/x")) None (Some (lit "https://ads/abs/a")) None
             None None None false false (lit "n") [] in
  let d := mkCitation (lit "b") (lit "U") [lit "Y"] 2002 None None None None
             None None None None None false false [] [] in
  let self := mkManager [(lit "a", c); (lit "b", d)] 10 3 in
  let clock := fun w : World => lit "2024-01-01T00:00:00" in
  let net := fun (w : World) (u : str) => TransportFault in
  verify_citation net clock self (lit "zz") (mkWorld 0 0)
  = (Ok (NotFound, self), mkWorld 0 0)
  /\ exists va vd mc self' w' c',
        verify_citation net clock self (lit "a") (mkWorld 0 0)
        = (Ok (Results va vd mc, self'), w')
        /\ dict_get str_eqb (lit "a") (citations self') = Some c'
        /\ same_outside_verification c c'
        /\ (forall k, k <> lit "a" ->
            dict_get str_eqb k (citations self')
            = dict_get str_eqb k (citations self))
        /\ map fst (citations self') = map fst (citations self)
        /\ max_retries self' = max_retries self
        /\ verification_timeout self' = verification_timeout self.
Proof.
  intros c d self clock net. split.
  - apply (proj1 (verify_citation_frame net clock self (lit "zz") (mkWorld 0 0))).
    reflexivity.
  - apply (proj2 (verify_citation_frame net clock self (lit "a") (mkWorld 0 0)) c).
    reflexivity.
Defined.

(** C10.  On a store with no record, [get_verification_report] returns (it
    does not divide by zero) with every count at 0 and the percentage the
    integer 0; and on every store it returns a report. *)
Theorem get_verification_report_empty (timeout retries : Z) :
  get_verification_report (mkManager [] timeout retries)
  = Ok (mkReport 0 0 0 0 (PyInt 0))
  /\ forall self, exists r, get_verification_report self = Ok r.
Proof.
  split; [reflexivity|].
  intros self. unfold get_verification_report, truediv.
  destruct (0 <? Z.of_nat (List.length (citations self))) eqn:E.
  - assert (H : (Z.of_nat (List.length (citations self)) =? 0) = false) by lia.
    rewrite H. eexists; reflexivity.
  - eexists; reflexivity.
Qed.

(* ================================================================== *)
(** * Facts on text *)
(* ================================================================== *)

Section TextFacts.

Lemma takeWhile_stop {A} (p : A -> bool) (l : list A) (y : A) (r : list A) :
  forallb p l = true -> p y = false ->
  takeWhile p (l ++ y :: r) = l /\ dropWhile p (l ++ y :: r) = y :: r.
Proof.
  intros Hl Hy. induction l as [|x l IH]; simpl in *.
  - rewrite Hy. auto.
  - apply andb_true_iff in Hl as [Hx Hl]. rewrite Hx.
    destruct (IH Hl) as [-> ->]. auto.
Qed.

Lemma dropWhile_head {A} (p : A -> bool) (x : A) (l : list A) :
  p x = false -> dropWhile p (x :: l) = x :: l.
Proof. intros H; simpl; rewrite H; reflexivity. Qed.

Lemma rstrip_by_last (p : ascii -> bool) (s : str) (d : ascii) :
  p d = false -> rstrip_by p (s ++ [d]) = s ++ [d].
Proof.
  intros H. unfold rstrip_by. rewrite rev_app_distr. simpl. rewrite H.
  simpl. rewrite rev_involutive. reflexivity.
Qed.

Lemma rstrip_by_drop (p : ascii -> bool) (s : str) (d : ascii) :
  p d = true -> rstrip_by p (s ++ [d]) = rstrip_by p s.
Proof.
  intros H. unfold rstrip_by. rewrite rev_app_distr. simpl. rewrite H.
  reflexivity.
Qed.

(** A text that neither begins nor ends in [p] is left alone by the strip. *)
Lemma strip_by_bounded (p : ascii -> bool) (c d : ascii) (m : str) :
  p c = false -> p d = false ->
  strip_by p (c :: m ++ [d]) = c :: m ++ [d].
Proof.
  intros Hc Hd. unfold strip_by, lstrip_by. rewrite dropWhile_head by auto.
  apply (rstrip_by_last p (c :: m) d Hd).
Qed.

Lemma ends_clear_strip (p : ascii -> bool) (s : str) :
  ends_clear p s = true -> strip_by p s = s.
Proof.
  destruct s as [|c s]; [reflexivity|]. unfold ends_clear.
  rewrite andb_true_iff, !negb_true_iff. intros [Hc Hl].
  unfold strip_by, lstrip_by. rewrite dropWhile_head by auto.
  rewrite (app_removelast_last c (l := c :: s)) by discriminate.
  apply rstrip_by_last. exact Hl.
Qed.

(** Wrapped in two characters of [p], a text strips to what it strips to
    bare. *)
Lemma strip_by_wrapped (p : ascii -> bool) (a b : ascii) (v : str) :
  p a = true -> p b = true ->
  ends_clear p v = true ->
  strip_by p (a :: v ++ [b]) = v.
Proof.
  intros Ha Hb Hv. unfold strip_by, lstrip_by. simpl. rewrite Ha.
  destruct v as [|c v]; simpl.
  - rewrite Hb. reflexivity.
  - unfold ends_clear in Hv.
    rewrite andb_true_iff, !negb_true_iff in Hv. destruct Hv as [Hc Hl].
    rewrite Hc. change (c :: v ++ [b]) with ((c :: v) ++ [b]).
    rewrite rstrip_by_drop by auto.
    rewrite (app_removelast_last c (l := c :: v)) by discriminate.
    apply rstrip_by_last. exact Hl.
Qed.

Lemma mem_char_weaken (cs cs' : str) (c : ascii) :
  mem_char (cs ++ cs') c = false ->
  mem_char cs c = false /\ mem_char cs' c = false.
Proof.
  unfold mem_char. rewrite existsb_app, orb_false_iff. auto.
Qed.

Lemma ends_clear_weaken (p q : ascii -> bool) (s : str) :
  (forall c, p c = false -> q c = false) ->
  ends_clear p s = true -> ends_clear q s = true.
Proof.
  intros Hpq. destruct s as [|c s]; [reflexivity|]. unfold ends_clear.
  rewrite !andb_true_iff, !negb_true_iff. intros [H1 H2]. auto.
Qed.

(** ** Splitting on one character *)

Lemma split_char_line (c : ascii) (l cur rest : str) :
  contains c l = false ->
  split_from [c] 0 cur (l ++ c :: rest)
  = (rev cur ++ l) :: split_from [c] 0 [] rest.
Proof.
  revert cur. induction l as [|x l IH]; intros cur H; simpl in *.
  - rewrite Ascii.eqb_refl. simpl. rewrite app_nil_r. reflexivity.
  - apply orb_false_iff in H as [Hx Hl].
    rewrite Hx. simpl.
    rewrite IH by auto. simpl. rewrite <- app_assoc. reflexivity.
Qed.

Lemma split_char_last (c : ascii) (l cur : str) :
  contains c l = false ->
  split_from [c] 0 cur l = [rev cur ++ l].
Proof.
  revert cur. induction l as [|x l IH]; intros cur H; simpl in *.
  - rewrite app_nil_r. reflexivity.
  - apply orb_false_iff in H as [Hx Hl].
    rewrite Hx. simpl.
    rewrite IH by auto. simpl. rewrite <- app_assoc. reflexivity.
Qed.

Lemma split_join_char (c : ascii) (x : str) (lines : list str) :
  forallb (fun l => negb (contains c l)) (x :: lines) = true ->
  split [c] (join [c] (x :: lines)) = x :: lines.
Proof.
  revert x. induction lines as [|y lines IH]; intros x H.
  - simpl in *. rewrite andb_true_r, negb_true_iff in H.
    unfold split. apply (split_char_last c x [] H).
  - change (join [c] (x :: y :: lines)) with (x ++ c :: join [c] (y :: lines)).
    simpl in H. apply andb_true_iff in H as [Hx H].
    rewrite negb_true_iff in Hx.
    unfold split. rewrite split_char_line by auto. simpl. f_equal.
    apply IH. exact H.
Qed.

Lemma split_from_nonempty (sep : str) (k : nat) (cur s : str) :
  split_from sep k cur s <> [].
Proof.
  revert k cur. induction s as [|c s IH]; intros k cur; simpl.
  - discriminate.
  - destruct k; [destruct (starts_with sep (c :: s))|]; try discriminate;
      apply IH.
Qed.

Lemma split_once_found (c : ascii) (k rest : str) :
  contains c k = false ->
  split_once c (k ++ c :: rest) = (k, rest)
  /\ contains c (k ++ c :: rest) = true.
Proof.
  induction k as [|x k IH]; intros H; simpl in *.
  - rewrite Ascii.eqb_refl. auto.
  - apply orb_false_iff in H as [Hx Hk].
    destruct (IH Hk) as [E1 E2]. rewrite E1, E2.
    rewrite Ascii.eqb_sym, Hx, orb_true_r. auto.
Qed.

(** ** Splitting on a longer separator *)

Lemma starts_with_app (p s v : str) :
  starts_with p s = true -> starts_with p (s ++ v) = true.
Proof.
  revert s. induction p as [|x p IH]; intros [|y s]; simpl; auto;
    try discriminate.
  rewrite !andb_true_iff. intros [H1 H2]. auto.
Qed.

Lemma starts_with_long (p s v : str) :
  (List.length p <= List.length s)%nat ->
  starts_with p (s ++ v) = starts_with p s.
Proof.
  revert s. induction p as [|x p IH]; intros [|y s]; simpl; auto.
  - lia.
  - intros H. rewrite IH by lia. reflexivity.
Qed.

Lemma starts_with_self (p v : str) : starts_with p (p ++ v) = true.
Proof.
  induction p as [|x p IH]; simpl; auto.
  rewrite Ascii.eqb_refl, IH. reflexivity.
Qed.

Lemma split_from_skip (sep l cur s : str) :
  split_from sep (List.length l) cur (l ++ s) = split_from sep 0 cur s.
Proof.
  induction l as [|x l IH]; simpl; auto.
Qed.

Lemma split_piece (sep : str) (x0 : ascii) (a cur rest : str) :
  clear_of (x0 :: sep) a ((x0 :: sep) ++ rest) = true ->
  split_from (x0 :: sep) 0 cur (a ++ (x0 :: sep) ++ rest)
  = (rev cur ++ a) :: split_from (x0 :: sep) 0 [] rest.
Proof.
  revert cur. induction a as [|c a IH]; intros cur H.
  - cbn [app]. cbn [split_from].
    pose proof (starts_with_self (x0 :: sep) rest) as E.
    cbn [app] in E. rewrite E.
    rewrite app_nil_r. f_equal.
    apply (split_from_skip (x0 :: sep) sep [] rest).
  - cbn [clear_of] in H. apply andb_true_iff in H as [H1 H2].
    rewrite negb_true_iff in H1.
    change ((c :: a) ++ (x0 :: sep) ++ rest)
      with (c :: (a ++ (x0 :: sep) ++ rest)) in *.
    cbn [split_from]. rewrite H1. rewrite IH by auto.
    simpl. rewrite <- app_assoc. reflexivity.
Qed.

Lemma split_last_piece (sep a cur : str) :
  clear_of sep a [] = true ->
  split_from sep 0 cur a = [rev cur ++ a].
Proof.
  revert cur. induction a as [|c a IH]; intros cur H.
  - simpl. rewrite app_nil_r. reflexivity.
  - cbn [clear_of] in H. apply andb_true_iff in H as [H1 H2].
    rewrite negb_true_iff, app_nil_r in H1.
    cbn [split_from]. rewrite H1. rewrite IH by auto.
    simpl. rewrite <- app_assoc. reflexivity.
Qed.

(** What is asked of a piece in front of a shortened separator is enough in
    front of the whole separator and more, and at the end of the text. *)
Lemma clear_of_extend (sep a t v : str) :
  (List.length sep <= 1 + List.length t)%nat ->
  clear_of sep a t = true -> clear_of sep a (t ++ v) = true.
Proof.
  intros Hlen. induction a as [|c a IH]; intros H; [reflexivity|].
  cbn [clear_of] in *. apply andb_true_iff in H as [H1 H2].
  rewrite IH by auto. rewrite andb_true_r.
  rewrite app_assoc. rewrite starts_with_long; [exact H1|].
  rewrite length_app. simpl. lia.
Qed.

Lemma clear_of_end (sep a t : str) :
  clear_of sep a t = true -> clear_of sep a [] = true.
Proof.
  induction a as [|c a IH]; intros H; [reflexivity|].
  cbn [clear_of] in *. apply andb_true_iff in H as [H1 H2].
  rewrite IH by auto. rewrite andb_true_r.
  rewrite negb_true_iff in *. rewrite app_nil_r.
  destruct (starts_with sep (c :: a)) eqn:E; auto.
  apply (starts_with_app _ _ t) in E. congruence.
Qed.

End TextFacts.

Section NumberFacts.

Lemma digit_facts (c : ascii) :
  between 48 57 (code c) = true ->
  int_space c = false /\ Ascii.eqb c "-" = false /\ Ascii.eqb c "+" = false
  /\ Ascii.eqb NL c = false /\ is_wrapper c = false.
Proof.
  destruct c as [[] [] [] [] [] [] [] []]; vm_compute; intros H;
    try discriminate H; repeat split.
Qed.

Lemma int_body_digits (ds : str) (acc : Z) :
  all_digits ds = true -> int_body acc ds = Some (digits_value acc ds).
Proof.
  revert acc. induction ds as [|c ds IH]; intros acc H; simpl in *.
  - reflexivity.
  - apply andb_true_iff in H as [Hc Hds]. unfold digit_val. rewrite Hc.
    apply IH. exact Hds.
Qed.

Lemma py_int_digits (c : ascii) (ds : str) :
  all_digits (c :: ds) = true ->
  py_int (c :: ds) = Some (digits_value 0 (c :: ds))
  /\ py_int ("-"%char :: c :: ds) = Some (- digits_value 0 (c :: ds)).
Proof.
  intros H. simpl in H. apply andb_true_iff in H as [Hc Hds].
  destruct (digit_facts c Hc) as (Hs & Hm & Hp & _ & _).
  unfold py_int. split.
  - rewrite dropWhile_head by auto. rewrite Hm, Hp.
    unfold digit_val. rewrite Hc. rewrite int_body_digits by auto.
    reflexivity.
  - rewrite dropWhile_head by reflexivity.
    change (Ascii.eqb "-" "-") with true. cbv iota beta.
    unfold digit_val. rewrite Hc. rewrite int_body_digits by auto.
    reflexivity.
Qed.

Lemma digits_value_snoc (acc : Z) (ds : str) (c : ascii) :
  digits_value acc (ds ++ [c]) = 10 * digits_value acc ds + (Z.of_N (code c) - 48).
Proof. unfold digits_value. rewrite fold_left_app. reflexivity. Qed.

Lemma code_digit_char (n : N) : (n < 10)%N -> code (digit_char n) = (48 + n)%N.
Proof.
  intros H. unfold code, digit_char. apply N_ascii_embedding. lia.
Qed.

Lemma digits_of_spec (fuel : nat) (n : N) (acc : str) :
  (0 < fuel)%nat ->
  (n < 10 ^ N.of_nat fuel)%N ->
  exists c ds,
    digits_of fuel n acc = (c :: ds) ++ acc
    /\ all_digits (c :: ds) = true
    /\ digits_value 0 (c :: ds) = Z.of_N n.
Proof.
  revert n acc. induction fuel as [|f IH]; intros n acc Hf Hn; [lia|].
  cbn [digits_of].
    assert (Hm : (n mod 10 < 10)%N) by (apply N.mod_lt; lia).
    destruct (N.ltb n 10) eqn:E.
  - apply N.ltb_lt in E. exists (digit_char (n mod 10)), [].
    rewrite N.mod_small by auto. split; [reflexivity|].
    unfold all_digits, digits_value. simpl.
    rewrite code_digit_char by auto. unfold between.
    split; [|lia].
    rewrite andb_true_r, andb_true_iff, !N.leb_le. lia.
  - apply N.ltb_ge in E.
    rewrite Nnat.Nat2N.inj_succ, N.pow_succ_r' in Hn.
    destruct (IH (n / 10)%N (digit_char (n mod 10) :: acc))
      as (c & ds & Hd & Ha & Hv).
    { destruct f; [simpl in Hn; lia | lia]. }
    { apply N.Div0.div_lt_upper_bound. lia. }
    pose proof (N.div_mod n 10 ltac:(lia)) as Hdm.
    set (m := (n mod 10)%N) in *. set (q := (n / 10)%N) in *.
    clearbody m q.
    exists c, (ds ++ [digit_char m]). rewrite Hd. split.
    { simpl. rewrite <- app_assoc. reflexivity. }
    split.
    { change (c :: ds ++ [digit_char m])
        with ((c :: ds) ++ [digit_char m]).
      unfold all_digits in *. rewrite forallb_app, Ha. simpl.
      rewrite code_digit_char by auto. unfold between.
      rewrite andb_true_r, andb_true_iff, !N.leb_le. lia. }
    change (c :: ds ++ [digit_char m])
      with ((c :: ds) ++ [digit_char m]).
    rewrite digits_value_snoc, Hv, code_digit_char by auto.
    lia.
Qed.

Lemma str_of_N_spec (n : N) :
  exists c ds,
    str_of_N n = c :: ds /\ all_digits (c :: ds) = true
    /\ digits_value 0 (c :: ds) = Z.of_N n.
Proof.
  unfold str_of_N.
  destruct (digits_of_spec (S (N.to_nat (N.log2 n))) n []) as (c & ds & H).
  - lia.
  - rewrite Nnat.Nat2N.inj_succ, Nnat.N2Nat.id.
    destruct (N.eq_dec n 0) as [->|Hn]; [reflexivity|].
    apply N.lt_le_trans with (2 ^ N.succ (N.log2 n))%N.
    + apply N.log2_spec. lia.
    + apply N.pow_le_mono_l. lia.
  - exists c, ds. rewrite app_nil_r in H. exact H.
Qed.

(** [int(str(z)) == z] *)
Lemma py_int_str_of_int (z : Z) : py_int (str_of_int z) = Some z.
Proof.
  destruct z as [|p|p]; simpl.
  - reflexivity.
  - destruct (str_of_N_spec (Npos p)) as (c & ds & E & Ha & Hv).
    change (Z.to_N (Z.pos p)) with (Npos p).
    rewrite E. rewrite (proj1 (py_int_digits c ds Ha)), Hv. reflexivity.
  - destruct (str_of_N_spec (Npos p)) as (c & ds & E & Ha & Hv).
    rewrite E. rewrite (proj2 (py_int_digits c ds Ha)), Hv. reflexivity.
Qed.

Lemma str_of_int_no_newline (z : Z) : no_newline (str_of_int z) = true.
Proof.
  assert (H : forall ds, all_digits ds = true -> contains NL ds = false).
  { unfold all_digits, contains.
    induction ds as [|c ds IH]; cbn [forallb existsb]; auto.
    rewrite andb_true_iff. intros [Hc Hds].
    destruct (digit_facts c Hc) as (_ & _ & _ & Hn & _).
    rewrite Hn, IH; auto. }
  unfold no_newline. apply negb_true_iff.
  destruct z as [|p|p]; simpl.
  - reflexivity.
  - destruct (str_of_N_spec (Npos p)) as (c & ds & E & Ha & _).
    change (Z.to_N (Z.pos p)) with (Npos p). rewrite E. apply H. exact Ha.
  - destruct (str_of_N_spec (Npos p)) as (c & ds & E & Ha & _).
    rewrite E. apply (H _ Ha).
Qed.

Lemma last_forallb {A} (q : A -> bool) (c d : A) (l : list A) :
  forallb q (c :: l) = true -> q (last (c :: l) d) = true.
Proof.
  revert c. induction l as [|x l IH]; intros c H.
  - simpl in *. rewrite andb_true_r in H. exact H.
  - cbn [forallb] in H. apply andb_true_iff in H as [_ H].
    change (last (c :: x :: l) d) with (last (x :: l) d). apply IH. exact H.
Qed.

Lemma all_digits_bare (c : ascii) (ds : str) :
  all_digits (c :: ds) = true -> ends_clear is_wrapper (c :: ds) = true.
Proof.
  intros H.
  assert (Hq : forallb (fun x => negb (is_wrapper x)) (c :: ds) = true).
  { unfold all_digits in H. rewrite forallb_forall in *. intros x Hx.
    destruct (digit_facts x (H x Hx)) as (_ & _ & _ & _ & ->). reflexivity. }
  unfold ends_clear. rewrite (last_forallb _ c c ds Hq).
  cbn [forallb] in Hq. apply andb_true_iff in Hq as [-> _]. reflexivity.
Qed.

Lemma str_of_int_bare (z : Z) : ends_clear is_wrapper (str_of_int z) = true.
Proof.
  destruct z as [|p|p]; [reflexivity| |].
  - destruct (str_of_N_spec (Npos p)) as (c & ds & E & Ha & _).
    simpl str_of_int. change (Z.to_N (Z.pos p)) with (Npos p). rewrite E.
    apply all_digits_bare. exact Ha.
  - destruct (str_of_N_spec (Npos p)) as (c & ds & E & Ha & _).
    simpl str_of_int. rewrite E.
    pose proof (all_digits_bare c ds Ha) as Hb. unfold ends_clear in *.
    change (last ("-"%char :: c :: ds) "-"%char) with (last (c :: ds) "-"%char).
    rewrite andb_true_iff, !negb_true_iff in *. split; [reflexivity|].
    assert (Hq : forallb (fun x => negb (is_wrapper x)) (c :: ds) = true).
    { unfold all_digits in Ha. rewrite forallb_forall in *. intros x Hx.
      destruct (digit_facts x (Ha x Hx)) as (_ & _ & _ & _ & ->). reflexivity. }
    apply negb_true_iff. apply (last_forallb _ c "-"%char ds Hq).
Qed.

End NumberFacts.

(* ================================================================== *)
(** * The bibliography codec *)
(* ================================================================== *)

Section CodecFacts.

Lemma contains_app (c : ascii) (a b : str) :
  contains c (a ++ b) = (contains c a || contains c b)%bool.
Proof. unfold contains. apply existsb_app. Qed.

Lemma no_newline_app (a b : str) :
  no_newline (a ++ b) = (no_newline a && no_newline b)%bool.
Proof. unfold no_newline. rewrite contains_app, negb_orb. reflexivity. Qed.

Lemma no_newline_join (sep : str) (l : list str) :
  no_newline sep = true -> forallb no_newline l = true ->
  no_newline (join sep l) = true.
Proof.
  intros Hs. induction l as [|x l IH]; [reflexivity|].
  cbn [forallb]. rewrite andb_true_iff. intros [Hx Hl].
  destruct l as [|y l]; [exact Hx|].
  change (join sep (x :: y :: l)) with (x ++ sep ++ join sep (y :: l)).
  rewrite !no_newline_app, Hx, Hs, IH; auto.
Qed.

Lemma no_newline_field_line (name value : str) :
  no_newline name = true -> no_newline value = true ->
  no_newline (field_line name value) = true.
Proof.
  intros Hn Hv. unfold field_line. rewrite !no_newline_app, Hn, Hv.
  reflexivity.
Qed.

(** The text of a joined list that ends in a line ending in [d] ends in
    [d]. *)
Lemma join_ends (sep : str) (l : list str) (x : str) (d : ascii) :
  exists s, join sep (l ++ [x ++ [d]]) = s ++ [d].
Proof.
  induction l as [|y l IH].
  - exists x. reflexivity.
  - destruct IH as [s Hs]. exists (y ++ sep ++ s).
    destruct l as [|z l].
    + simpl in *. rewrite Hs, <- !app_assoc. reflexivity.
    + change (join sep ((y :: z :: l) ++ [x ++ [d]]))
        with (y ++ sep ++ join sep ((z :: l) ++ [x ++ [d]])).
      rewrite Hs, <- !app_assoc. reflexivity.
Qed.

(** ** The header line *)

Lemma match_header_ok (kind ck rest : str) :
  kind <> [] -> forallb is_word kind = true ->
  ck <> [] -> forallb not_comma ck = true ->
  match_header ("@"%char :: kind ++ "{"%char :: ck ++ ","%char :: rest)
  = Some ck.
Proof.
  intros Hk Hw Hc Hn. unfold match_header.
  change (Ascii.eqb "@" "@") with true. cbv iota.
  destruct (takeWhile_stop is_word kind "{"%char (ck ++ ","%char :: rest) Hw
              eq_refl) as [-> ->].
  destruct kind as [|k0 kind]; [contradiction|].
  change (Ascii.eqb "{" "{") with true. cbv iota.
  destruct (takeWhile_stop not_comma ck ","%char rest Hn eq_refl) as [-> ->].
  destruct ck as [|c0 ck]; [contradiction|].
  reflexivity.
Qed.

(** ** The field lines *)

Lemma field_line_bare (n0 : ascii) (name value : str) :
  isspace n0 = false ->
  rstrip_chars (lit ",") (strip (field_line (n0 :: name) value))
  = (n0 :: name) ++ "="%char :: "{"%char :: value ++ ["}"%char].
Proof.
  intros Hn.
  set (X := n0 :: name ++ "="%char :: "{"%char :: value).
  assert (E : field_line (n0 :: name) value
              = " "%char :: " "%char :: ((X ++ ["}"%char]) ++ [","%char])).
  { unfold field_line, lit, X. simpl. rewrite <- !app_assoc. reflexivity. }
  assert (E' : (n0 :: name) ++ "="%char :: "{"%char :: value ++ ["}"%char]
               = X ++ ["}"%char]).
  { unfold X. simpl. rewrite <- !app_assoc. reflexivity. }
  rewrite E, E'. unfold strip, strip_by, lstrip_by.
  assert (D : dropWhile isspace
                (" "%char :: " "%char :: ((X ++ ["}"%char]) ++ [","%char]))
              = (X ++ ["}"%char]) ++ [","%char]).
  { unfold X. simpl. rewrite Hn. reflexivity. }
  rewrite D.
  rewrite (rstrip_by_last isspace _ ","%char eq_refl).
  unfold rstrip_chars.
  rewrite (rstrip_by_drop (mem_char (lit ",")) _ ","%char eq_refl).
  apply (rstrip_by_last (mem_char (lit ",")) _ "}"%char eq_refl).
Qed.

Lemma parse_field_line (f : Fields) (n0 : ascii) (name value : str) :
  isspace n0 = false -> contains "=" (n0 :: name) = false ->
  parse_line f (field_line (n0 :: name) value)
  = assign f (strip (n0 :: name)) (unwrap ("{"%char :: value ++ ["}"%char])).
Proof.
  intros Hn He. unfold parse_line. rewrite field_line_bare by auto.
  destruct (split_once_found "="%char (n0 :: name)
              ("{"%char :: value ++ ["}"%char]) He) as [E1 E2].
  rewrite E2, E1. reflexivity.
Qed.

Lemma unwrap_braced (v : str) :
  ends_clear is_wrapper v = true ->
  unwrap ("{"%char :: v ++ ["}"%char]) = v.
Proof.
  intros H. unfold unwrap, strip.
  rewrite (strip_by_bounded isspace "{" "}" v eq_refl eq_refl).
  unfold strip_chars.
  rewrite (strip_by_wrapped (mem_char (lit "{}")) "{" "}" v eq_refl eq_refl).
  - apply ends_clear_strip. revert H. apply ends_clear_weaken.
    intros c Hc. apply (mem_char_weaken (lit "{}") [DQUOTE] c Hc).
  - revert H. apply ends_clear_weaken.
    intros c Hc. apply (mem_char_weaken (lit "{}") [DQUOTE] c Hc).
Qed.

Lemma fold_inert (lines : list str) :
  Forall inert lines ->
  forall f,
    f_title (fold_left parse_line lines f) = f_title f
    /\ f_authors (fold_left parse_line lines f) = f_authors f
    /\ f_year (fold_left parse_line lines f) = f_year f.
Proof.
  induction 1 as [|line lines Hl _ IH]; intros f; simpl; auto.
  destruct (IH (parse_line f line)) as (-> & -> & ->). apply Hl.
Qed.

Lemma inert_when (b : bool) (l : list str) :
  Forall inert l -> Forall inert (when b l).
Proof. destruct b; simpl; auto. Qed.

Lemma inert_closing : inert (lit "}").
Proof. intros f. repeat split. Qed.

Lemma inert_field (name value : str) :
  In name [lit "journal"; lit "doi"; lit "eprint"; lit "archivePrefix";
           lit "adsurl"; lit "url"] ->
  inert (field_line name value).
Proof.
  intros H f. simpl in H.
  destruct H as [<-|[<-|[<-|[<-|[<-|[<-|[]]]]]]];
    cbv [lit list_ascii_of_string];
    (rewrite parse_field_line by reflexivity; repeat split).
Qed.

End CodecFacts.

Section RoundTrip.

Lemma split_join_authors (x : str) (l : list str) :
  forallb (fun a => clear_of (lit " and ") a (lit " and")) (x :: l) = true ->
  split (lit " and ") (join (lit " and ") (x :: l)) = x :: l.
Proof.
  revert x. induction l as [|y l IH]; intros x H; cbn [forallb] in H;
    apply andb_true_iff in H as [Hx Hl].
  - unfold split. cbn [join].
    apply (split_last_piece (lit " and ") x []).
    apply (clear_of_end _ _ _ Hx).
  - change (join (lit " and ") (x :: y :: l))
      with (x ++ lit " and " ++ join (lit " and ") (y :: l)).
    unfold split.
    pose proof (split_piece (lit "and ") " "%char x []
                  (join (lit " and ") (y :: l))) as E.
    change (" "%char :: lit "and ") with (lit " and ") in E.
    rewrite E.
    + simpl rev. simpl app at 1. f_equal. apply IH. exact Hl.
    + apply (clear_of_extend (lit " and ") x (lit " and")
               (" "%char :: join (lit " and ") (y :: l))); [simpl; lia|].
      exact Hx.
Qed.

Lemma map_strip_clean (l : list str) :
  forallb (ends_clear isspace) l = true -> map strip l = l.
Proof.
  induction l as [|x l IH]; [reflexivity|]. cbn [forallb map].
  rewrite andb_true_iff. intros [Hx Hl].
  unfold strip at 1. rewrite ends_clear_strip, IH; auto.
Qed.

(** A name that neither contains the separator nor ends in its first four
    characters leaves no room for a separator to begin inside it. *)
Lemma separator_free (a : str) :
  occurs (lit " and ") a = false -> ends_with (lit " and") a = false ->
  clear_of (lit " and ") a (lit " and") = true.
Proof.
  induction a as [|c a IH]; intros Ho He; [reflexivity|].
  cbn [occurs] in Ho. apply orb_false_iff in Ho as [Hs Ho].
  cbn [clear_of]. apply andb_true_iff. split.
  - apply negb_true_iff.
    destruct a as [|c1 [|c2 [|c3 [|c4 r]]]].
    + unfold lit. cbn [list_ascii_of_string app starts_with].
      destruct (Ascii.eqb " " c); reflexivity.
    + unfold lit. cbn [list_ascii_of_string app starts_with].
      destruct (Ascii.eqb " " c), (Ascii.eqb "a" c1); reflexivity.
    + unfold lit. cbn [list_ascii_of_string app starts_with].
      destruct (Ascii.eqb " " c), (Ascii.eqb "a" c1), (Ascii.eqb "n" c2);
        reflexivity.
    + unfold ends_with, lit in *.
      cbn [list_ascii_of_string rev app starts_with] in *.
      destruct (Ascii.eqb " " c), (Ascii.eqb "a" c1), (Ascii.eqb "n" c2),
        (Ascii.eqb "d" c3); try reflexivity; discriminate He.
    + rewrite starts_with_long; [exact Hs | simpl; lia].
  - apply IH; [exact Ho|].
    destruct (ends_with (lit " and") a) eqn:E; [|reflexivity].
    unfold ends_with in *. cbn [rev] in He.
    rewrite (starts_with_app _ _ [c] E) in He. discriminate.
Qed.

Lemma forallb_author_ok (l : list str) :
  forallb author_ok l = true ->
  forallb no_newline l = true
  /\ forallb (ends_clear isspace) l = true
  /\ forallb (fun a => clear_of (lit " and ") a (lit " and")) l = true.
Proof.
  induction l as [|x l IH]; [auto|]. cbn [forallb]. unfold author_ok at 1.
  rewrite !andb_true_iff, !negb_true_iff. intros [[[[H1 H2] H3] H4] Hl].
  destruct (IH Hl) as (-> & -> & ->).
  rewrite H1, H2, (separator_free x H3 H4). auto.
Qed.

Lemma tail_lines_inert (c : Citation) : Forall inert (tail_lines c).
Proof.
  unfold tail_lines.
  repeat (apply Forall_app; split);
    try (apply inert_when);
    repeat (apply Forall_cons);
    try (apply Forall_nil);
    try (apply inert_closing);
    apply inert_field; simpl; tauto.
Qed.

Lemma tail_lines_closing (c : Citation) :
  exists l, tail_lines c = l ++ [lit "}"].
Proof.
  unfold tail_lines.
  exists (when (truthy_opt (journal c))
            [field_line (lit "journal") (opt_text (journal c))]
          ++ when (truthy_opt (doi c))
               [field_line (lit "doi") (opt_text (doi c))]
          ++ when (truthy_opt (arxiv_id c))
               [field_line (lit "eprint") (opt_text (arxiv_id c));
                field_line (lit "archivePrefix") (lit "arXiv")]
          ++ when (truthy_opt (ads_bibcode c))
               [field_line (lit "adsurl") (adsurl_value c)]
          ++ when (truthy_opt (publisher_url c))
               [field_line (lit "url") (opt_text (publisher_url c))]).
  rewrite <- !app_assoc. reflexivity.
Qed.

Lemma forallb_when (p : str -> bool) (b : bool) (l : list str) :
  forallb p l = true -> forallb p (when b l) = true.
Proof. destruct b; auto. Qed.

Lemma tail_lines_no_newline (c : Citation) :
  no_newline (opt_text (journal c)) = true ->
  no_newline (opt_text (doi c)) = true ->
  no_newline (opt_text (arxiv_id c)) = true ->
  no_newline (opt_text (ads_bibcode c)) = true ->
  no_newline (opt_text (ads_url c)) = true ->
  no_newline (opt_text (publisher_url c)) = true ->
  forallb no_newline (tail_lines c) = true.
Proof.
  intros Hj Hd Hx Hb Hu Hp. unfold tail_lines.
  assert (Ha : no_newline (adsurl_value c) = true).
  { unfold adsurl_value. destruct (truthy_opt (ads_url c)); auto;
      try (rewrite no_newline_app, Hb; reflexivity). }
  rewrite !forallb_app.
  rewrite !forallb_when; [reflexivity| | | | |];
    cbn [forallb]; rewrite ?no_newline_field_line; auto.
Qed.

Lemma generated_lines (c : Citation) :
  _generate_basic_bibtex c
  = join [NL]
      (("@"%char
        :: (if truthy_opt (journal c) then lit "article" else lit "misc")
           ++ "{"%char :: citekey c ++ [","%char])
       :: field_line (lit "title") (title c)
       :: field_line (lit "author") (join (lit " and ") (authors c))
       :: field_line (lit "year") (str_of_int (year c))
       :: tail_lines c).
Proof. reflexivity. Qed.

End RoundTrip.

Section RoundTripMain.

Variable r : Citation.
Hypothesis Hr : round_trips r = true.

Let header : str :=
  "@"%char :: (if truthy_opt (journal r) then lit "article" else lit "misc")
              ++ "{"%char :: citekey r ++ [","%char].

Lemma round_trips_parts :
  valid_record r = true
  /\ bibtex_entry r = []
  /\ forallb not_comma (citekey r) = true
  /\ no_newline (citekey r) = true
  /\ no_newline (title r) = true
  /\ ends_clear is_wrapper (title r) = true
  /\ forallb author_ok (authors r) = true
  /\ ends_clear is_wrapper (join (lit " and ") (authors r)) = true
  /\ forallb no_newline (tail_lines r) = true.
Proof.
  unfold round_trips in Hr. rewrite !andb_true_iff in Hr.
  destruct Hr as [[[[[[[[[[[[[H1 H2] H3] H4] H5] H6] H7] H8] H9] H10] H11]
                       H12] H13] H14].
  repeat split; auto.
  - destruct (bibtex_entry r); [reflexivity | discriminate].
  - apply tail_lines_no_newline; auto.
Qed.

Lemma generated_strip :
  strip (_generate_basic_bibtex r) = _generate_basic_bibtex r.
Proof.
  rewrite generated_lines. fold header.
  destruct (tail_lines_closing r) as [l ->].
  match goal with |- context [join [NL] (_ :: ?t :: ?a :: ?y :: _)] =>
    change (join [NL] (header :: t :: a :: y :: l ++ [lit "}"]))
      with (join [NL] ((header :: t :: a :: y :: l) ++ [[] ++ ["}"%char]]))
  end.
  destruct (join_ends [NL] (header :: field_line (lit "title") (title r)
                            :: field_line (lit "author")
                                 (join (lit " and ") (authors r))
                            :: field_line (lit "year") (str_of_int (year r))
                            :: l) [] "}"%char) as [s Hs].
  assert (Hhead : exists t, s ++ ["}"%char] = "@"%char :: t).
  { rewrite <- Hs. unfold header. eexists; reflexivity. }
  rewrite Hs. destruct Hhead as [t Ht].
  unfold strip, strip_by, lstrip_by. rewrite Ht.
  rewrite dropWhile_head by reflexivity. rewrite <- Ht.
  apply rstrip_by_last. reflexivity.
Qed.

Lemma header_no_newline : no_newline header = true.
Proof.
  destruct round_trips_parts as (_ & _ & _ & Hk & _).
  unfold header.
  change ("@"%char :: ?k ++ "{"%char :: citekey r ++ [","%char])
    with ((["@"%char] ++ k) ++ ["{"%char] ++ citekey r ++ [","%char]).
  rewrite !no_newline_app, Hk. destruct (truthy_opt (journal r)); reflexivity.
Qed.

Lemma header_matches : match_header header = Some (citekey r).
Proof.
  destruct round_trips_parts as (Hv & _ & Hc & _).
  unfold valid_record in Hv. rewrite !andb_true_iff in Hv.
  destruct Hv as [[[Hk _] _] _].
  unfold header. apply match_header_ok; auto.
  - destruct (truthy_opt (journal r)); discriminate.
  - destruct (truthy_opt (journal r)); reflexivity.
  - destruct (citekey r); [discriminate Hk | discriminate].
Qed.

Lemma assign_three (t j : str) (y : Z) :
  assign (assign (assign init_fields (strip (lit "title")) t)
            (strip (lit "author")) j)
    (strip (lit "year")) (str_of_int y)
  = mkFields t (map strip (split (lit " and ") j)) y None None None.
Proof.
  change (strip (lit "title")) with (lit "title").
  change (strip (lit "author")) with (lit "author").
  change (strip (lit "year")) with (lit "year").
  unfold assign. cbn [str_eqb lit list_ascii_of_string Ascii.eqb Bool.eqb andb].
  cbn [f_title f_authors f_year f_journal f_doi f_arxiv_id init_fields].
  rewrite py_int_str_of_int. reflexivity.
Qed.

(** The parser on the text generated from [r]. *)
Lemma parse_generated :
  exists j d x,
    create_citation_from_bibtex (_generate_basic_bibtex r)
    = Some (new_citation (citekey r) (title r) (authors r) (year r) j d x
              (_generate_basic_bibtex r)).
Proof.
  destruct round_trips_parts
    as (Hv & Hb & Hc & Hk & Ht & Htw & Ha & Haw & Htail).
  destruct (forallb_author_ok _ Ha) as (Han & Has & Hac).
  unfold valid_record in Hv. rewrite !andb_true_iff in Hv.
  destruct Hv as [[[Vk Vt] Va] Vy].
  unfold create_citation_from_bibtex. rewrite generated_strip.
  rewrite generated_lines. fold header.
  assert (Hlines :
    forallb no_newline
      (header :: field_line (lit "title") (title r)
       :: field_line (lit "author") (join (lit " and ") (authors r))
       :: field_line (lit "year") (str_of_int (year r))
       :: tail_lines r) = true).
  { cbn [forallb]. rewrite header_no_newline, Htail.
    rewrite !no_newline_field_line; auto using str_of_int_no_newline.
    apply no_newline_join; auto. }
  rewrite split_join_char by exact Hlines.
  rewrite header_matches.
  cbn [fold_left].
  assert (E0 :
    parse_line
      (parse_line
         (parse_line init_fields (field_line (lit "title") (title r)))
         (field_line (lit "author") (join (lit " and ") (authors r))))
      (field_line (lit "year") (str_of_int (year r)))
    = mkFields (title r) (authors r) (year r) None None None).
  { cbv [lit list_ascii_of_string].
    rewrite !parse_field_line by reflexivity.
    rewrite !unwrap_braced; auto using str_of_int_bare.
    pose proof (assign_three (title r) (join (lit " and ") (authors r))
                  (year r)) as E.
    cbv [lit list_ascii_of_string] in E. rewrite E.
    change [" "%char; "a"%char; "n"%char; "d"%char; " "%char]
      with (lit " and ").
    destruct (authors r) as [|a0 al]; [discriminate Va|].
    rewrite split_join_authors, map_strip_clean; auto. }
  rewrite E0.
  destruct (fold_inert (tail_lines r) (tail_lines_inert r)
              (mkFields (title r) (authors r) (year r) None None None))
    as (E1 & E2 & E3).
  rewrite E1, E2, E3. cbn [f_title f_authors f_year].
  unfold py_all. cbn [forallb]. rewrite Vk, Vt, Va, Vy. cbn [andb].
  eexists _, _, _. reflexivity.
Qed.

End RoundTripMain.

Lemma create_caches (t : str) (c : Citation) :
  create_citation_from_bibtex t = Some c -> bibtex_entry c = t /\ t <> [].
Proof.
  intros H. split.
  - unfold create_citation_from_bibtex in H.
    destruct (split [NL] (strip t)) as [|first rest]; [discriminate|].
    destruct (match_header first); [|discriminate].
    destruct (py_all _); [|discriminate].
    inversion H. reflexivity.
  - intros ->. discriminate H.
Qed.

(** C1, as stated, fails: a record whose year is the sentinel 0 (year
    unknown) and that has no cached text is generated into a text that the
    parser rejects. *)
Lemma unknown_year_text_is_rejected :
  let r := mkCitation (lit "smith_preprint") (lit "Thin Film Absorbers")
             [lit "J. Smith"] 0 None None None None None None None None None
             false false [] [] in
  bibtex_entry r = []
  /\ create_citation_from_bibtex (bibtex_block r) = None.
Proof. split; reflexivity. Qed.

(** C1, amended.  Whenever the parser accepts a text [t], the record it
    returns holds [t] as its cached text, and generation from that record
    gives back [t], character for character (followed by the blank line in
    the file written for a store that holds only this record).  The parser
    accepts, in particular, the text generated from any record with no
    cached text that satisfies [round_trips]. *)
Theorem parse_then_generate_is_identity :
  (forall t c,
      create_citation_from_bibtex t = Some c ->
      bibtex_entry c = t /\ bibtex_block c = t
      /\ forall timeout retries,
           generate_bibtex (mkManager [(citekey c, c)] timeout retries)
           = t ++ [NL; NL])
  /\ (forall r,
        round_trips r = true ->
        exists c,
          create_citation_from_bibtex (bibtex_block r) = Some c
          /\ bibtex_block c = bibtex_block r).
Proof.
  assert (H1 : forall t c, create_citation_from_bibtex t = Some c ->
                           bibtex_entry c = t /\ bibtex_block c = t).
  { intros t c H. destruct (create_caches t c H) as [E Hne].
    split; [exact E|]. unfold bibtex_block. rewrite E.
    destruct t; [contradiction | reflexivity]. }
  split.
  - intros t c H. destruct (H1 t c H) as [E1 E2]. repeat split; auto.
    intros timeout retries. unfold generate_bibtex. simpl.
    rewrite E2, app_nil_r. reflexivity.
  - intros r Hr. destruct (round_trips_parts r Hr) as (_ & Hb & _).
    destruct (parse_generated r Hr) as (j & d & x & Hp).
    unfold bibtex_block at 1 3. rewrite Hb. cbn [truthy_str].
    eexists. split; [exact Hp|]. apply (H1 _ _ Hp).
Qed.

Lemma parse_then_generate_is_identity_witness :
  exists c,
    create_citation_from_bibtex (bibtex_block tully1977) = Some c
    /\ bibtex_entry c = bibtex_block tully1977
    /\ bibtex_block c = bibtex_block tully1977.
Proof.
  destruct (proj2 parse_then_generate_is_identity tully1977 eq_refl)
    as (c & Hc & Hb).
  exists c. split; [exact Hc|]. split; [|exact Hb].
  apply (proj1 parse_then_generate_is_identity _ _ Hc).
Defined.

(** C2, as stated, fails: a valid record with no cached text whose title
    ends in a closing brace comes back from the parser with another title. *)
Lemma title_ending_in_brace_is_not_restored :
  let r := mkCitation (lit "hodge1992") (lit "The Dynamics of {M31}")
             [lit "P. Hodge"] 1992 None None None None None None None None
             None false false [] [] in
  valid_record r = true /\ bibtex_entry r = []
  /\ option_map title (create_citation_from_bibtex (bibtex_block r))
     = Some (lit "The Dynamics of {M31")
  /\ lit "The Dynamics of {M31" <> title r.
Proof. repeat split; try reflexivity. discriminate. Qed.

(** C2, amended.  For every record that satisfies [round_trips] (valid, no
    cached text, citekey free of commas, emitted fields free of line feeds,
    title and joined author list not beginning or ending with a brace or a
    double quote, authors without outer white space and not containing
    [" and "] nor ending in [" and"]), the parser accepts the generated
    text and returns a record with the same citekey, title, authors and
    year. *)
Theorem generate_then_parse_keeps_fields (r : Citation) :
  round_trips r = true ->
  exists c,
    create_citation_from_bibtex (bibtex_block r) = Some c
    /\ citekey c = citekey r /\ title c = title r
    /\ authors c = authors r /\ year c = year r.
Proof.
  intros Hr. destruct (round_trips_parts r Hr) as (_ & Hb & _).
  destruct (parse_generated r Hr) as (j & d & x & Hp).
  unfold bibtex_block. rewrite Hb. cbn [truthy_str].
  eexists. split; [exact Hp|]. repeat split.
Qed.

Lemma generate_then_parse_keeps_fields_witness :
  exists c,
    create_citation_from_bibtex (bibtex_block tully1977) = Some c
    /\ citekey c = citekey tully1977 /\ title c = title tully1977
    /\ authors c = authors tully1977 /\ year c = year tully1977.
Proof. apply (generate_then_parse_keeps_fields tully1977). reflexivity. Defined.

Section ParseFailure.

(** What a line does to the year does not depend on the fields read so far:
    it leaves the year alone, or sets it to the line's own integer. *)
Lemma parse_line_year (f : Fields) (line : str) :
  f_year (parse_line f line) = f_year f
  \/ f_year (parse_line f line) = f_year (parse_line init_fields line).
Proof.
  unfold parse_line.
  destruct (contains "=" (rstrip_chars (lit ",") (strip line)));
    [|left; reflexivity].
  destruct (split_once "=" (rstrip_chars (lit ",") (strip line))) as [k v].
  unfold assign.
  destruct (str_eqb (strip k) (lit "title")); [left; reflexivity|].
  destruct (str_eqb (strip k) (lit "author")); [left; reflexivity|].
  destruct (str_eqb (strip k) (lit "year")).
  - destruct (py_int (unwrap v)); [right|left]; reflexivity.
  - destruct (str_eqb (strip k) (lit "journal")); [left; reflexivity|].
    destruct (str_eqb (strip k) (lit "doi")); [left; reflexivity|].
    destruct (str_eqb (strip k) (lit "eprint")); left; reflexivity.
Qed.

Lemma fold_year_zero (lines : list str) (f : Fields) :
  f_year f = 0 ->
  (forall line, In line lines -> f_year (parse_line init_fields line) = 0) ->
  f_year (fold_left parse_line lines f) = 0.
Proof.
  revert f. induction lines as [|line lines IH]; intros f Hf Hall; simpl.
  - exact Hf.
  - apply IH.
    + destruct (parse_line_year f line) as [-> | ->]; auto.
      apply Hall. left; reflexivity.
    + intros l Hl. apply Hall. right; exact Hl.
Qed.

End ParseFailure.

(** C7, as stated, fails: in a block with two year lines, the value of the
    second one fails integer parsing, and yet the year is not left at 0 and
    the parse does not fail. *)
Lemma failed_year_after_good_year_is_accepted :
  let t := join [NL] [lit "@misc{doe1999,"; lit "  title={Cells},";
                      lit "  author={J. Doe},"; lit "  year={1999},";
                      lit "  year={n.d.},"; lit "}"] in
  py_int (unwrap (lit "{n.d.}")) = None
  /\ option_map year (create_citation_from_bibtex t) = Some 1999.
Proof. split; reflexivity. Qed.

(** C7, amended.  [create_citation_from_bibtex] returns no record exactly
    when the first line does not match the header pattern or, after the
    fields are read, the citekey, the title, the author list or the year is
    empty or zero.  A year value that fails integer parsing leaves the
    fields as they are (the year stays 0 unless another year line has set
    it) and does not abort; and when no line of the block sets the year to
    a non-zero integer, the year ends at 0 and the parse returns no
    record. *)
Theorem create_fails_for_two_reasons (entry : str) :
  let lines := split [NL] (strip entry) in
  let f := fold_left parse_line (tl lines) init_fields in
  (create_citation_from_bibtex entry = None <->
   match_header (hd [] lines) = None
   \/ exists ck, match_header (hd [] lines) = Some ck
                 /\ (ck = [] \/ f_title f = [] \/ f_authors f = []
                     \/ f_year f = 0))
  /\ (forall g value, py_int value = None -> assign g (lit "year") value = g)
  /\ ((forall line, In line (tl lines) ->
         f_year (parse_line init_fields line) = 0) ->
      f_year f = 0 /\ create_citation_from_bibtex entry = None).
Proof.
  intros lines f.
  assert (Hmain :
    create_citation_from_bibtex entry = None <->
    match_header (hd [] lines) = None
    \/ exists ck, match_header (hd [] lines) = Some ck
                  /\ (ck = [] \/ f_title f = [] \/ f_authors f = []
                      \/ f_year f = 0)).
  { unfold create_citation_from_bibtex. subst f. fold lines.
    destruct lines as [|first rest] eqn:El.
    { exfalso. apply (split_from_nonempty [NL] 0 [] (strip entry)). exact El. }
    cbn [hd tl].
    destruct (match_header first) as [ck|]; [|tauto].
    set (f := fold_left parse_line rest init_fields).
    unfold py_all. cbn [forallb]. rewrite andb_true_r.
    split.
    - intros H. right. exists ck. split; [reflexivity|].
      destruct ck; [tauto|]. destruct (f_title f); [tauto|].
      destruct (f_authors f); [tauto|].
      right; right; right. cbn [truthy_str truthy_list andb] in H.
      unfold truthy_int in H. destruct (f_year f =? 0) eqn:E; [lia|].
      discriminate H.
    - intros [H|(ck' & Hck & H)]; [discriminate H|].
      inversion Hck; subst ck'.
      destruct H as [-> | [-> | [-> | ->]]]; cbn [truthy_str truthy_list andb];
        rewrite ?andb_false_r; reflexivity. }
  split; [exact Hmain|]. split.
  - intros g value Hv. unfold assign.
    change (str_eqb (lit "year") (lit "title")) with false.
    change (str_eqb (lit "year") (lit "author")) with false.
    change (str_eqb (lit "year") (lit "year")) with true.
    cbv iota. rewrite Hv. reflexivity.
  - intros Hall.
    assert (Hy : f_year f = 0) by (apply fold_year_zero; auto).
    split; [exact Hy|]. apply Hmain.
    destruct (match_header (hd [] lines)) as [ck|]; [right|left; reflexivity].
    exists ck. split; [reflexivity|]. tauto.
Qed.

(** A block whose only year line has a value that is no integer. *)
Lemma create_fails_for_two_reasons_witness :
  let entry := join [NL] [lit "@misc{doe1999,"; lit "  title={Cells},";
                          lit "  author={J. Doe},"; lit "  year={n.d.},";
                          lit "}"] in
  assign init_fields (lit "year") (lit "n.d.") = init_fields
  /\ f_year (fold_left parse_line (tl (split [NL] (strip entry))) init_fields) = 0
  /\ create_citation_from_bibtex entry = None.
Proof.
  intros entry.
  destruct (create_fails_for_two_reasons entry) as (_ & Hyear & Hnone).
  split.
  - apply Hyear. reflexivity.
  - apply Hnone. intros line Hl. vm_compute in Hl.
    repeat (destruct Hl as [<-|Hl]; [reflexivity|]). destruct Hl.
Defined.

(* ================================================================== *)
(** * The deduplication engine *)
(* ================================================================== *)

Section DictOrder.
Context {K V : Type} (eqb : K -> K -> bool).
Hypothesis eqb_eq : forall a b, eqb a b = true <-> a = b.

Lemma dict_get_absent (k : K) (d : @dict K V) :
  ~ In k (map fst d) -> dict_get eqb k d = None.
Proof.
  induction d as [|[k' v'] d IH]; simpl; intros H; [reflexivity|].
  rewrite (eqb_diff eqb eqb_eq) by tauto. apply IH. tauto.
Qed.

Lemma dict_get_in (k : K) (v : V) (d : @dict K V) :
  NoDup (map fst d) -> In (k, v) d -> dict_get eqb k d = Some v.
Proof.
  induction d as [|[k' v'] d IH]; simpl; intros Hn H; [contradiction|].
  inversion Hn as [|? ? Hk Hd]; subst. destruct H as [H|H].
  - inversion H; subst. rewrite (eqb_same eqb eqb_eq). reflexivity.
  - rewrite (eqb_diff eqb eqb_eq).
    + apply IH; auto.
    + intros ->. apply Hk. apply (in_map fst) in H. exact H.
Qed.

Lemma dict_get_some (k : K) (v : V) (d : @dict K V) :
  dict_get eqb k d = Some v -> In (k, v) d.
Proof.
  induction d as [|[k' v'] d IH]; simpl; [discriminate|].
  destruct (eqb k' k) eqn:E.
  - apply eqb_eq in E. subst. intros H; inversion H. auto.
  - auto.
Qed.

Lemma filter_all {A} (f : A -> bool) (l : list A) :
  (forall x, In x l -> f x = true) -> filter f l = l.
Proof.
  induction l as [|x l IH]; simpl; intros H; [reflexivity|].
  rewrite H by auto. rewrite IH; auto.
Qed.

Lemma dict_remove_filter (k : K) (d : @dict K V) :
  NoDup (map fst d) ->
  dict_remove eqb k d = filter (fun y => negb (eqb (fst y) k)) d.
Proof.
  induction d as [|[k' v'] d IH]; simpl; intros Hn; [reflexivity|].
  inversion Hn as [|? ? Hk Hd]; subst.
  destruct (eqb k' k) eqn:E; simpl.
  - apply eqb_eq in E. subst k'. symmetry. apply filter_all.
    intros [k2 v2] H2. simpl. apply negb_true_iff.
    apply (eqb_diff eqb eqb_eq). intros ->.
    apply Hk. apply (in_map fst) in H2. exact H2.
  - rewrite IH; auto.
Qed.

Lemma NoDup_keys_filter (f : K * V -> bool) (d : @dict K V) :
  NoDup (map fst d) -> NoDup (map fst (filter f d)).
Proof.
  induction d as [|x d IH]; simpl; intros Hn; [constructor|].
  inversion Hn as [|? ? Hk Hd]; subst.
  destruct (f x); simpl; auto. constructor; auto.
  intros H. apply Hk. apply in_map_iff in H as (y & Hy & Hin).
  apply filter_In in Hin as [Hin _]. rewrite <- Hy. apply in_map. exact Hin.
Qed.

Lemma NoDup_keys_inj (d : @dict K V) (k : K) (v v' : V) :
  NoDup (map fst d) -> In (k, v) d -> In (k, v') d -> v = v'.
Proof.
  intros Hn H H'. pose proof (dict_get_in k v d Hn H) as E.
  rewrite (dict_get_in k v' d Hn H') in E. congruence.
Qed.

(** Where an element sits in a list, against another place of the list. *)
Lemma two_places {A} (l1 l2 m1 m2 : list A) (x y : A) :
  l1 ++ x :: l2 = m1 ++ y :: m2 ->
  (In y l1 /\ In x m2) \/ (y = x /\ m1 = l1 /\ m2 = l2) \/ (In y l2 /\ In x m1).
Proof.
  revert m1. induction l1 as [|a l1 IH]; intros [|b m1] H; simpl in *.
  - inversion H. auto.
  - inversion H; subst. right; right. split; auto. apply in_elt.
  - inversion H; subst. left. split; auto. apply in_elt.
  - inversion H; subst. destruct (IH m1 H2) as [[? ?]|[(? & ? & ?)|[? ?]]].
    + left. auto.
    + right; left. subst. auto.
    + right; right. auto.
Qed.

End DictOrder.

Lemma key_eqb_eq (a b : str * Z) : key_eqb a b = true <-> a = b.
Proof.
  destruct a as [a1 a2], b as [b1 b2]. unfold key_eqb. simpl.
  rewrite andb_true_iff, str_eqb_eq, Z.eqb_eq. split.
  - intros [-> ->]. reflexivity.
  - intros H; inversion H; auto.
Qed.

Section LeaderFacts.

Variable g : str * Z.

Let ekey (y : str * Citation) := dedup_key (snd y).
Let score (y : str * Citation) := _citation_completeness (snd y).

(** The running best over a list, from [acc]: it is [acc], which nothing in
    the list beats, or the first element of the list that beats [acc] and
    everything before it, and that nothing after it beats. *)
Lemma fold_best_spec (l : list (str * Citation)) (acc : option (str * Citation)) :
  (fold_left (running_best g) l acc = acc
   /\ forall y, In y l -> ekey y = g ->
        exists b, acc = Some b /\ score y <= score b)
  \/ (exists l1 y l2,
        l = l1 ++ y :: l2
        /\ fold_left (running_best g) l acc = Some y
        /\ ekey y = g
        /\ (forall b, acc = Some b -> score b < score y)
        /\ (forall z, In z l1 -> ekey z = g -> score z < score y)
        /\ (forall z, In z l2 -> ekey z = g -> score z <= score y)).
Proof.
  revert acc. induction l as [|x l IH]; intros acc.
  - left. split; [reflexivity|]. intros y [].
  - cbn [fold_left]. unfold running_best at 2 4.
    destruct (key_eqb (dedup_key (snd x)) g) eqn:Ex.
    + apply key_eqb_eq in Ex.
      assert (Hnew :
        (forall b, acc = Some b -> score b < score x) ->
        exists l1 y l2,
          x :: l = l1 ++ y :: l2
          /\ fold_left (running_best g) l (Some x) = Some y
          /\ ekey y = g
          /\ (forall b, acc = Some b -> score b < score y)
          /\ (forall z, In z l1 -> ekey z = g -> score z < score y)
          /\ (forall z, In z l2 -> ekey z = g -> score z <= score y)).
      { intros Hacc.
        destruct (IH (Some x))
          as [[E Hall]|(l1 & y & l2 & El & E & Hy & Hb & H1 & H2)].
        - exists [], x, l. repeat split; auto.
          + intros z [].
          + intros z Hz Hg. destruct (Hall z Hz Hg) as (b & Hb & Hle).
            inversion Hb; subst. exact Hle.
        - exists (x :: l1), y, l2. subst l. repeat split; auto.
          + intros b Hb0. specialize (Hacc b Hb0).
            specialize (Hb x eq_refl). lia.
          + intros z [<-|Hz] Hg; [apply Hb; reflexivity | apply H1; auto]. }
      destruct acc as [b|].
      * fold (score x) (score b). destruct (score x >? score b) eqn:Es.
        -- right. apply Hnew. intros b0 Hb0. inversion Hb0; subst. lia.
        -- destruct (IH (Some b))
             as [[E Hall]|(l1 & y & l2 & El & E & Hy & Hb & H1 & H2)].
           ++ left. split; [exact E|]. intros y [<-|Hy] Hg.
              ** exists b. split; [reflexivity | lia].
              ** apply Hall; auto.
           ++ right. exists (x :: l1), y, l2. subst l. repeat split; auto.
              intros z [<-|Hz] Hg; [|apply H1; auto].
              specialize (Hb b eq_refl). lia.
      * right. apply Hnew. intros b0 Hb0. discriminate.
    + assert (Hx : ekey x <> g).
      { intros H. apply key_eqb_eq in H. unfold ekey in H. congruence. }
      destruct (IH acc) as [[E Hall]|(l1 & y & l2 & El & E & Hy & Hb & H1 & H2)].
      * left. split; [exact E|]. intros y [<-|Hy] Hg; [contradiction|].
        apply Hall; auto.
      * right. exists (x :: l1), y, l2. subst l. repeat split; auto.
        intros z [<-|Hz] Hg; [contradiction | apply H1; auto].
Qed.

Lemma leader_snoc (p : list (str * Citation)) (x : str * Citation) :
  leader g (p ++ [x]) = running_best g (leader g p) x.
Proof. unfold leader. rewrite fold_left_app. reflexivity. Qed.

Lemma leader_some (p : list (str * Citation)) (b : str * Citation) :
  leader g p = Some b -> In b p /\ ekey b = g.
Proof.
  unfold leader. intros H.
  destruct (fold_best_spec p None)
    as [[E _]|(l1 & y & l2 & El & E & Hy & _)].
  - congruence.
  - rewrite H in E. injection E as <-. split; [rewrite El; apply in_elt | exact Hy].
Qed.

Lemma leader_none (p : list (str * Citation)) (y : str * Citation) :
  leader g p = None -> In y p -> ekey y <> g.
Proof.
  unfold leader. intros H Hy Hg.
  destruct (fold_best_spec p None)
    as [[_ Hall]|(l1 & z & l2 & _ & E & _)].
  - destruct (Hall y Hy Hg) as (b & Hb & _). discriminate.
  - congruence.
Qed.

End LeaderFacts.

Section DedupLoop.

Lemma alive_iff (removed : list str) (y : str * Citation) :
  alive removed y = true <-> ~ In (fst y) removed.
Proof.
  unfold alive. rewrite negb_true_iff. split.
  - intros H Hin. assert (E : existsb (str_eqb (fst y)) removed = true).
    { apply existsb_exists. exists (fst y). split; auto. apply str_eqb_refl. }
    congruence.
  - intros H. destruct (existsb (str_eqb (fst y)) removed) eqn:E; auto.
    apply existsb_exists in E as (k & Hk & Ek). apply str_eqb_eq in Ek.
    subst. contradiction.
Qed.

Lemma filter_alive_snoc (removed : list str) (k : str) (s : list (str * Citation)) :
  filter (fun y => negb (str_eqb (fst y) k)) (filter (alive removed) s)
  = filter (alive (removed ++ [k])) s.
Proof.
  induction s as [|y s IH]; [reflexivity|]. cbn [filter].
  assert (E : alive (removed ++ [k]) y
              = (alive removed y && negb (str_eqb (fst y) k))%bool).
  { unfold alive. rewrite existsb_app. cbn [existsb].
    rewrite orb_false_r, negb_orb. reflexivity. }
  rewrite E. destruct (alive removed y); cbn [andb].
  - cbn [filter]. destruct (str_eqb (fst y) k); cbn [negb]; rewrite IH;
      reflexivity.
  - exact IH.
Qed.

Lemma leader_key_snoc (g : str * Z) (p : list (str * Citation))
    (k : str) (c : Citation) :
  option_map fst (leader g (p ++ [(k, c)]))
  = if key_eqb (dedup_key c) g then
      match leader g p with
      | None => Some k
      | Some b =>
          if _citation_completeness c >? _citation_completeness (snd b)
          then Some k else Some (fst b)
      end
    else option_map fst (leader g p).
Proof.
  rewrite leader_snoc. unfold running_best. cbn [snd].
  destruct (key_eqb (dedup_key c) g); [|reflexivity].
  destruct (leader g p) as [b|]; [|reflexivity].
  destruct (_citation_completeness c >? _citation_completeness (snd b));
    reflexivity.
Qed.

Variable s : list (str * Citation).
Hypothesis Hs : NoDup (map fst s).

Lemma in_alive_get (removed : list str) (k : str) (c : Citation) :
  In (k, c) s -> ~ In k removed ->
  dict_get str_eqb k (filter (alive removed) s) = Some c.
Proof.
  intros Hin Hk. apply (dict_get_in str_eqb str_eqb_eq).
  - apply NoDup_keys_filter. exact Hs.
  - apply filter_In. split; [exact Hin|]. apply alive_iff. exact Hk.
Qed.

Lemma dedup_step_inv (p q : list (str * Citation)) (x : str * Citation)
    (st : DedupState) :
  s = p ++ x :: q -> dedup_inv s p st ->
  exists st', dedup_step st x = Ok st' /\ dedup_inv s (p ++ [x]) st'.
Proof.
  intros Es (I1 & I2 & I3 & I4). destruct x as [k c].
  set (g := dedup_key c).
  assert (Hp : NoDup (map fst p) /\ ~ In k (map fst p)).
  { rewrite Es, map_app in Hs. simpl in Hs. split.
    - apply NoDup_app_remove_r in Hs. exact Hs.
    - apply NoDup_remove_2 in Hs. rewrite in_app_iff in Hs. tauto. }
  destruct Hp as [Hp Hk].
  assert (G1 : forall k' c', In (k', c') p -> k' <> k).
  { intros k' c' Hin ->. apply Hk. apply (in_map fst) in Hin. exact Hin. }
  assert (Hsub : forall y, In y p -> In y s).
  { intros y Hy. rewrite Es. apply in_or_app. auto. }
  assert (Hxs : In (k, c) s) by (rewrite Es; apply in_elt).
  assert (F2 : ~ In k (duplicates st)).
  { intros H. apply I4 in H as (c' & Hin & _). exact (G1 k c' Hin eq_refl). }
  assert (G2 : forall k' c', In (k', c') (p ++ [(k, c)]) <->
                             In (k', c') p \/ (k' = k /\ c' = c)).
  { intros k' c'. rewrite in_app_iff. simpl. split.
    - intros [H|[H|[]]]; [auto|]. inversion H; auto.
    - intros [H|[-> ->]]; auto. }
  unfold dedup_step. fold g. rewrite (I3 g).
  destruct (leader g p) as [[kb cb]|] eqn:El; cbn [option_map fst].
  - (* the key has been seen: [b] is the record kept for it *)
    destruct (leader_some g p (kb, cb) El) as [Hb Hbg]. cbn [snd] in Hbg.
    assert (Hkb : ~ In kb (duplicates st)).
    { intros H. apply I4 in H as (c' & Hin & Hne).
      rewrite (NoDup_keys_inj str_eqb str_eqb_eq p kb c' cb Hp Hin Hb) in Hne.
      rewrite Hbg, El in Hne. apply Hne. reflexivity. }
    unfold dict_getitem. rewrite I1.
    rewrite (in_alive_get _ kb cb (Hsub _ Hb) Hkb).
    destruct (_citation_completeness c >? _citation_completeness cb) eqn:Esc.
    + (* the new record wins *)
      unfold dict_del, dict_mem.
      rewrite (in_alive_get _ kb cb (Hsub _ Hb) Hkb).
      eexists. split; [reflexivity|].
      split; [|split; [|split]]; cbn [store duplicates seen].
      * rewrite (dict_remove_filter str_eqb str_eqb_eq)
          by (apply NoDup_keys_filter; exact Hs).
        apply filter_alive_snoc.
      * apply NoDup_snoc; auto.
      * intros g'. rewrite leader_key_snoc. fold g.
        destruct (key_eqb g g') eqn:Eg.
        -- apply key_eqb_eq in Eg. subst g'. rewrite El. cbn [snd].
           rewrite Esc. apply (dict_get_set_same key_eqb key_eqb_eq).
        -- rewrite (dict_get_set_other key_eqb key_eqb_eq); [apply I3|].
           intros <-. rewrite (eqb_same key_eqb key_eqb_eq) in Eg.
           discriminate.
      * intros k'. rewrite in_app_iff. cbn [In]. split.
        -- intros [H|[<-|[]]].
           ++ apply I4 in H as (c' & Hin & Hne). exists c'.
              split; [apply G2; auto|]. rewrite leader_key_snoc. fold g.
              destruct (key_eqb g (dedup_key c')) eqn:Eg; [|exact Hne].
              apply key_eqb_eq in Eg. rewrite <- Eg, El. cbn [snd].
              rewrite Esc. intros E. inversion E. exact (G1 k' c' Hin (eq_sym H0)).
           ++ exists cb. split; [apply G2; auto|]. rewrite leader_key_snoc.
              fold g. rewrite Hbg, (eqb_same key_eqb key_eqb_eq), El.
              cbn [snd]. rewrite Esc. intros E. inversion E.
              exact (G1 kb cb Hb (eq_sym H0)).
        -- intros (c' & Hin & Hne). apply G2 in Hin as [Hin|[-> ->]].
           ++ rewrite leader_key_snoc in Hne. fold g in Hne.
              destruct (key_eqb g (dedup_key c')) eqn:Eg.
              ** apply key_eqb_eq in Eg.
                 destruct (str_eqb kb k') eqn:Ek.
                 --- apply str_eqb_eq in Ek. auto.
                 --- left. apply I4. exists c'. split; [exact Hin|].
                     rewrite <- Eg, El. cbn [option_map fst]. intros E.
                     inversion E. subst. rewrite str_eqb_refl in Ek.
                     discriminate.
              ** left. apply I4. exists c'. auto.
           ++ exfalso. apply Hne. rewrite leader_key_snoc. fold g.
              rewrite (eqb_same key_eqb key_eqb_eq), El. cbn [snd].
              rewrite Esc. reflexivity.
    + (* the record kept stays; the new one is removed *)
      unfold dict_del, dict_mem.
      rewrite (in_alive_get _ k c Hxs F2).
      eexists. split; [reflexivity|].
      assert (Hsame : forall g', option_map fst (leader g' (p ++ [(k, c)]))
                                 = option_map fst (leader g' p)).
      { intros g'. rewrite leader_key_snoc. fold g.
        destruct (key_eqb g g') eqn:Eg; [|reflexivity].
        apply key_eqb_eq in Eg. subst g'. rewrite El. cbn [snd].
        rewrite Esc. reflexivity. }
      split; [|split; [|split]]; cbn [store duplicates seen].
      * rewrite (dict_remove_filter str_eqb str_eqb_eq)
          by (apply NoDup_keys_filter; exact Hs).
        apply filter_alive_snoc.
      * apply NoDup_snoc; auto.
      * intros g'. rewrite Hsame. apply I3.
      * intros k'. rewrite in_app_iff. cbn [In]. split.
        -- intros [H|[<-|[]]].
           ++ apply I4 in H as (c' & Hin & Hne). exists c'.
              split; [apply G2; auto|]. rewrite Hsame. exact Hne.
           ++ exists c. split; [apply G2; auto|]. rewrite Hsame. fold g.
              rewrite El. cbn [option_map fst]. intros E. inversion E.
              exact (G1 kb cb Hb H0).
        -- intros (c' & Hin & Hne). apply G2 in Hin as [Hin|[-> ->]]; auto.
           left. apply I4. exists c'. rewrite Hsame in Hne. auto.
  - (* a new key *)
    eexists. split; [reflexivity|].
    split; [|split; [|split]]; cbn [store duplicates seen]; auto.
    + intros g'. rewrite leader_key_snoc. fold g.
      destruct (key_eqb g g') eqn:Eg.
      * apply key_eqb_eq in Eg. subst g'. rewrite El.
        apply (dict_get_set_same key_eqb key_eqb_eq).
      * rewrite (dict_get_set_other key_eqb key_eqb_eq); [apply I3|].
        intros <-. rewrite (eqb_same key_eqb key_eqb_eq) in Eg. discriminate.
    + intros k'. split.
      * intros H. apply I4 in H as (c' & Hin & Hne). exists c'.
        split; [apply G2; auto|]. rewrite leader_key_snoc. fold g.
        destruct (key_eqb g (dedup_key c')) eqn:Eg; [|exact Hne].
        apply key_eqb_eq in Eg. exfalso.
        apply (leader_none g p (k', c') El Hin). symmetry. exact Eg.
      * intros (c' & Hin & Hne). apply G2 in Hin as [Hin|[-> ->]].
        -- apply I4. exists c'. split; [exact Hin|].
           rewrite leader_key_snoc in Hne. fold g in Hne.
           destruct (key_eqb g (dedup_key c')) eqn:Eg; [|exact Hne].
           apply key_eqb_eq in Eg. exfalso.
           apply (leader_none g p (k', c') El Hin). symmetry. exact Eg.
        -- exfalso. apply Hne. rewrite leader_key_snoc. fold g.
           rewrite (eqb_same key_eqb key_eqb_eq), El. reflexivity.
Qed.

End DedupLoop.

Section DedupRun.

Variable s : list (str * Citation).
Hypothesis Hs : NoDup (map fst s).

Lemma dedup_loop_inv (q p : list (str * Citation)) (st : DedupState) :
  s = p ++ q -> dedup_inv s p st ->
  exists st', dedup_loop q st = Ok st' /\ dedup_inv s s st'.
Proof.
  revert p st. induction q as [|x q IH]; intros p st Es Hinv.
  - rewrite app_nil_r in Es. subst p. exists st. split; [reflexivity | exact Hinv].
  - destruct (dedup_step_inv s Hs p q x st Es Hinv) as (st1 & E1 & Hinv1).
    destruct (IH (p ++ [x]) st1) as (st' & E' & Hinv'); auto.
    { rewrite <- app_assoc. exact Es. }
    exists st'. split; [|exact Hinv']. cbn [dedup_loop]. rewrite E1. exact E'.
Qed.

Lemma dedup_run :
  exists st, dedup_loop s (mkDedup [] [] s) = Ok st /\ dedup_inv s s st.
Proof.
  apply (dedup_loop_inv s []); [reflexivity|].
  split; [|split; [|split]]; cbn [store duplicates seen].
  - symmetry. apply filter_all. intros y _. reflexivity.
  - constructor.
  - intros g. reflexivity.
  - intros k. split; [intros [] | intros (c & [] & _)].
Qed.

(** The record at a given place of the store is not the running best of its
    equality key over the whole store exactly when a record before it with
    the same key scores at least as much, or one after it scores more. *)
Lemma not_leader_position (l1 l2 : list (str * Citation)) (k : str) (c : Citation) :
  s = l1 ++ (k, c) :: l2 ->
  (option_map fst (leader (dedup_key c) s) <> Some k <->
   (exists y, In y l1 /\ dedup_key (snd y) = dedup_key c
              /\ _citation_completeness c <= _citation_completeness (snd y))
   \/ (exists y, In y l2 /\ dedup_key (snd y) = dedup_key c
                 /\ _citation_completeness c < _citation_completeness (snd y))).
Proof.
  intros Es.
  assert (Hxs : In (k, c) s) by (rewrite Es; apply in_elt).
  destruct (fold_best_spec (dedup_key c) s None)
    as [[_ Hall]|(m1 & y & m2 & Em & E & Hy & _ & H1 & H2)].
  { destruct (Hall (k, c) Hxs eq_refl) as (b & Hb & _). discriminate. }
  fold (leader (dedup_key c) s) in E. rewrite E. cbn [option_map].
  assert (Hplaces := two_places l1 l2 m1 m2 (k, c) y).
  rewrite <- Es, <- Em in Hplaces. specialize (Hplaces eq_refl).
  split.
  - intros Hne. destruct Hplaces as [[Hy1 Hx2]|[(Hyx & _)|[Hy2 Hx1]]].
    + left. exists y. repeat split; auto. apply (H2 (k, c) Hx2 eq_refl).
    + subst y. exfalso. apply Hne. reflexivity.
    + right. exists y. repeat split; auto. apply (H1 (k, c) Hx1 eq_refl).
  - intros Hex Hk. injection Hk as Hk.
    assert (Hys : In y s) by (rewrite Em; apply in_elt).
    assert (Eyx : y = (k, c)).
    { destruct y as [ky cy]. cbn [fst] in Hk. subst ky. f_equal.
      apply (NoDup_keys_inj str_eqb str_eqb_eq s k cy c Hs Hys Hxs). }
    subst y.
    assert (Hout : ~ In k (map fst l1) /\ ~ In k (map fst l2)).
    { rewrite Es, map_app in Hs. cbn [map fst] in Hs.
      apply NoDup_remove_2 in Hs. rewrite in_app_iff in Hs. tauto. }
    destruct Hplaces as [[Hy1 _]|[(_ & -> & ->)|[Hy2 _]]].
    + apply (proj1 Hout). apply (in_map fst) in Hy1. exact Hy1.
    + destruct Hex as [(z & Hz & Hg & Hle)|(z & Hz & Hg & Hlt)].
      * specialize (H1 z Hz Hg). cbn [snd] in H1. lia.
      * specialize (H2 z Hz Hg). cbn [snd] in H2. lia.
    + apply (proj2 Hout). apply (in_map fst) in Hy2. exact Hy2.
Qed.

(** What [deduplicate_citations] computes on a store with keys [s]. *)
Lemma dedup_result (timeout retries : Z) :
  exists removed,
    deduplicate_citations (mkManager s timeout retries)
    = Ok (removed, mkManager (filter (alive removed) s) timeout retries)
    /\ NoDup removed
    /\ (forall l1 k c l2, s = l1 ++ (k, c) :: l2 ->
        (In k removed <->
         (exists y, In y l1 /\ dedup_key (snd y) = dedup_key c
                    /\ _citation_completeness c <= _citation_completeness (snd y))
         \/ (exists y, In y l2 /\ dedup_key (snd y) = dedup_key c
                       /\ _citation_completeness c
                          < _citation_completeness (snd y)))).
Proof.
  destruct dedup_run as (st & Erun & I1 & I2 & I3 & I4).
  exists (duplicates st). split; [|split; [exact I2|]].
  - unfold deduplicate_citations. cbn [citations]. rewrite Erun.
    unfold with_citations. cbn [verification_timeout max_retries].
    rewrite I1. reflexivity.
  - intros l1 k c l2 Es. rewrite I4.
    rewrite <- (not_leader_position l1 l2 k c Es).
    assert (Hxs : In (k, c) s) by (rewrite Es; apply in_elt).
    split.
    + intros (c' & Hin & Hne).
      rewrite (NoDup_keys_inj str_eqb str_eqb_eq s k c' c Hs Hin Hxs) in Hne.
      exact Hne.
    + intros Hne. exists c. auto.
Qed.

End DedupRun.

(** One comparison of the loop: the new arrival against the record kept for
    its equality key.  With a strictly higher score the new arrival takes
    the place of the record kept, which is deleted and listed; otherwise
    (lower or equal score) the new arrival is deleted and listed. *)
Lemma dedup_step_collision (st : DedupState) (ck kept : str)
    (citation existing : Citation) :
  dict_get key_eqb (dedup_key citation) (seen st) = Some kept ->
  dict_get str_eqb kept (store st) = Some existing ->
  dict_get str_eqb ck (store st) = Some citation ->
  dedup_step st (ck, citation)
  = Ok (if _citation_completeness citation >? _citation_completeness existing
        then mkDedup (dict_set key_eqb (dedup_key citation) ck (seen st))
                     (duplicates st ++ [kept])
                     (dict_remove str_eqb kept (store st))
        else mkDedup (seen st) (duplicates st ++ [ck])
                     (dict_remove str_eqb ck (store st))).
Proof.
  intros Hseen Hkept Hck. unfold dedup_step, dict_getitem, dict_del, dict_mem.
  rewrite Hseen, Hkept, Hck.
  destruct (_citation_completeness citation >? _citation_completeness existing);
    reflexivity.
Qed.

(** C3, as stated, fails: of two records that share the equality key, the
    one with the higher score need not survive, and on equal scores the
    earlier-seen record need not be kept.  A third record of the key, met
    later and scoring more than both, removes whichever of the two was
    kept.  In the first store [x] (score 2) outscores [y] (score 1) and is
    removed; in the second [a] and [b] tie (score 1) and [a], the
    earlier-seen, is removed as well. *)
Lemma higher_of_two_is_removed_by_a_third :
  let x := mkCitation (lit "x") (lit "Test Paper") [lit "Test Author"] 2025
             None None (Some (lit "10.1/x")) None None None None None None
             false false [] [] in
  let y := mkCitation (lit "y") (lit "Test Paper") [lit "Test Author"] 2025
             (Some (lit "Test Journal")) None None None None None None None
             None false false [] [] in
  let z := mkCitation (lit "z") (lit "Test Paper") [lit "Test Author"] 2025
             None (Some (lit "2025TJ....1....1A")) None None None None None
             None None false false [] [] in
  let a := mkCitation (lit "a") (lit "Test Paper") [lit "Test Author"] 2025
             (Some (lit "Test Journal")) None None None None None None None
             None false false [] [] in
  let b := mkCitation (lit "b") (lit "Test Paper") [lit "Test Author"] 2025
             (Some (lit "Test Journal")) None None None None None None None
             None false false [] [] in
  (dedup_key x = dedup_key y
   /\ _citation_completeness y < _citation_completeness x
   /\ deduplicate_citations
        (mkManager [(lit "x", x); (lit "y", y); (lit "z", z)] 10 3)
      = Ok ([lit "y"; lit "x"], mkManager [(lit "z", z)] 10 3))
  /\ (dedup_key a = dedup_key b
      /\ _citation_completeness a = _citation_completeness b
      /\ deduplicate_citations
           (mkManager [(lit "a", a); (lit "b", b); (lit "z", z)] 10 3)
         = Ok ([lit "b"; lit "a"], mkManager [(lit "z", z)] 10 3)).
Proof. repeat split; reflexivity. Qed.

(** C3, amended.  On a store (a dictionary: one entry per citekey),
    [deduplicate_citations] returns a list [removed] of distinct citekeys
    and leaves the store with exactly those entries deleted, the others
    untouched and in their order.  The equality key is the pair of the
    lower-cased, white-space-trimmed title and the year, and the score is
    the weighted sum of the claim.  At each comparison of the loop, of the
    new arrival and the record kept for its equality key, the one with the
    higher score stays and the other is deleted and listed, the record kept
    staying on equal scores.  Over the whole call, a record is removed
    exactly when a record met before it with the same equality key scores
    at least as much, or one met after it with the same key scores more; so
    a record survives, unchanged, exactly when it beats every earlier
    record of its key and is not beaten by a later one: of each key the
    first record of highest score is the one that stays.  Of two records
    that share the key, the one with the lower score is removed, and on
    equal scores the later one is removed, its citekey being in the list
    returned; the other of the two survives only if no third record of the
    key removes it. *)
Theorem deduplicate_keeps_best (self : CitationManager) :
  NoDup (map fst (citations self)) ->
  exists removed self',
    deduplicate_citations self = Ok (removed, self')
    /\ citations self' = filter (alive removed) (citations self)
    /\ NoDup removed
    /\ (forall c, dedup_key c = (strip (lower (title c)), year c))
    /\ (forall c,
          _citation_completeness c
          = (if truthy_opt (ads_bibcode c) then 3 else 0)
            + (if truthy_opt (doi c) then 2 else 0)
            + (if truthy_opt (arxiv_id c) then 1 else 0)
            + (if truthy_opt (journal c) then 1 else 0)
            + (if truthy_str (bibtex_entry c) then 2 else 0))
    /\ (forall st ck kept citation existing,
          dict_get key_eqb (dedup_key citation) (seen st) = Some kept ->
          dict_get str_eqb kept (store st) = Some existing ->
          dict_get str_eqb ck (store st) = Some citation ->
          dedup_step st (ck, citation)
          = Ok (if _citation_completeness citation
                   >? _citation_completeness existing
                then mkDedup (dict_set key_eqb (dedup_key citation) ck (seen st))
                             (duplicates st ++ [kept])
                             (dict_remove str_eqb kept (store st))
                else mkDedup (seen st) (duplicates st ++ [ck])
                             (dict_remove str_eqb ck (store st))))
    /\ (forall l1 k c l2,
          citations self = l1 ++ (k, c) :: l2 ->
          (In k removed <->
           (exists y, In y l1
                      /\ strip (lower (title (snd y))) = strip (lower (title c))
                      /\ year (snd y) = year c
                      /\ _citation_completeness c
                         <= _citation_completeness (snd y))
           \/ (exists y, In y l2
                         /\ strip (lower (title (snd y)))
                            = strip (lower (title c))
                         /\ year (snd y) = year c
                         /\ _citation_completeness c
                            < _citation_completeness (snd y))))
    /\ (forall l1 k c l2,
          citations self = l1 ++ (k, c) :: l2 ->
          (dict_get str_eqb k (citations self') = Some c <-> ~ In k removed)
          /\ (~ In k removed <->
              (forall y, In y l1 -> dedup_key (snd y) = dedup_key c ->
                         _citation_completeness (snd y)
                         < _citation_completeness c)
              /\ (forall y, In y l2 -> dedup_key (snd y) = dedup_key c ->
                            _citation_completeness (snd y)
                            <= _citation_completeness c)))
    /\ (forall l1 k1 c1 l2 k2 c2 l3,
          citations self = l1 ++ (k1, c1) :: l2 ++ (k2, c2) :: l3 ->
          dedup_key c1 = dedup_key c2 ->
          (_citation_completeness c1 < _citation_completeness c2 ->
           In k1 removed
           /\ dict_get str_eqb k1 (citations self') = None)
          /\ (_citation_completeness c2 <= _citation_completeness c1 ->
              In k2 removed
              /\ dict_get str_eqb k2 (citations self') = None)).
Proof.
  intros Hs. destruct self as [s timeout retries]. cbn [citations] in *.
  destruct (dedup_result s Hs timeout retries) as (removed & E & Hn & Hpos).
  exists removed, (mkManager (filter (alive removed) s) timeout retries).
  split; [exact E|]. split; [reflexivity|]. split; [exact Hn|].
  split; [reflexivity|].
  split.
  { intros c. unfold _citation_completeness.
    destruct (truthy_opt (ads_bibcode c)), (truthy_opt (doi c)),
      (truthy_opt (arxiv_id c)), (truthy_opt (journal c)),
      (truthy_str (bibtex_entry c)); reflexivity. }
  split.
  { intros st ck kept citation existing. apply dedup_step_collision. }
  assert (Hsame : forall c1 c2,
            dedup_key c1 = dedup_key c2 <->
            strip (lower (title c1)) = strip (lower (title c2))
            /\ year c1 = year c2).
  { intros c1 c2. unfold dedup_key. split.
    - intros H. injection H as H1 H2. auto.
    - intros [-> ->]. reflexivity. }
  assert (Hgone : forall k, In k removed ->
            dict_get str_eqb k (filter (alive removed) s) = None).
  { intros k Hk. apply (dict_get_absent str_eqb str_eqb_eq).
    intros Hin. apply in_map_iff in Hin as (y & Hy & Hin).
    apply filter_In in Hin as [_ Ha]. apply alive_iff in Ha.
    rewrite Hy in Ha. contradiction. }
  split.
  { intros l1 k c l2 Es. rewrite (Hpos l1 k c l2 Es). split.
    - intros [(y & Hy & Hg & Hle)|(y & Hy & Hg & Hlt)];
        apply Hsame in Hg as [Ht Hyr]; [left | right]; exists y; auto.
    - intros [(y & Hy & Ht & Hyr & Hle)|(y & Hy & Ht & Hyr & Hlt)];
        [left | right]; exists y; (split; [exact Hy|]);
        (split; [apply Hsame; auto | assumption]). }
  split.
  { intros l1 k c l2 Es. cbn [citations]. split.
    - split.
      + intros Hget Hk. rewrite (Hgone k Hk) in Hget. discriminate.
      + intros Hk. apply (in_alive_get s Hs); [|exact Hk].
        rewrite Es. apply in_elt.
    - rewrite (Hpos l1 k c l2 Es). split.
      + intros Hnot. split.
        * intros y Hy Hg.
          destruct (Z_lt_le_dec (_citation_completeness (snd y))
                      (_citation_completeness c)) as [Hlt|Hle];
            [exact Hlt|].
          exfalso. apply Hnot. left. exists y. auto.
        * intros y Hy Hg.
          destruct (Z_le_gt_dec (_citation_completeness (snd y))
                      (_citation_completeness c)) as [Hle|Hgt];
            [exact Hle|].
          exfalso. apply Hnot. right. exists y. repeat split; auto. lia.
      + intros [H1 H2] [(y & Hy & Hg & Hle)|(y & Hy & Hg & Hlt)].
        * specialize (H1 y Hy Hg). lia.
        * specialize (H2 y Hy Hg). lia. }
  intros l1 k1 c1 l2 k2 c2 l3 Es Hkey. cbn [citations]. split.
  - intros Hlt.
    assert (H : In k1 removed).
    { apply (Hpos l1 k1 c1 (l2 ++ (k2, c2) :: l3) Es). right.
      exists (k2, c2). split; [apply in_elt|]. split; [symmetry; exact Hkey|].
      exact Hlt. }
    split; [exact H | apply Hgone; exact H].
  - intros Hle.
    assert (H : In k2 removed).
    { apply (Hpos (l1 ++ (k1, c1) :: l2) k2 c2 l3).
      - rewrite <- app_assoc. exact Es.
      - left. exists (k1, c1). split; [apply in_elt|]. split; [exact Hkey|].
        exact Hle. }
    split; [exact H | apply Hgone; exact H].
Qed.

(** The two records of the repository's test, which share title and year
    up to case and outer white space and score the same, and a third,
    better one for the same work: the later of the tie is removed, and so
    is the earlier, by the third. *)
Lemma deduplicate_keeps_best_witness :
  let a := mkCitation (lit "test2025paper") (lit "Test Paper")
             [lit "Test Author"] 2025 (Some (lit "Test Journal")) None None
             None None None None None None false false [] [] in
  let b := mkCitation (lit "test2025duplicate") (lit " test paper ")
             [lit "Test Author"] 2025 (Some (lit "Test Journal")) None None
             None None None None None None false false [] [] in
  let c := mkCitation (lit "test2025doi") (lit "TEST PAPER")
             [lit "Test Author"] 2025 (Some (lit "Test Journal")) None
             (Some (lit "10.1/x")) None None None None None None false false
             [] [] in
  let self := mkManager [(lit "test2025paper", a);
                         (lit "test2025duplicate", b);
                         (lit "test2025doi", c)] 10 3 in
  exists removed self',
    deduplicate_citations self = Ok (removed, self')
    /\ In (lit "test2025duplicate") removed
    /\ In (lit "test2025paper") removed
    /\ dict_get str_eqb (lit "test2025paper") (citations self') = None
    /\ dict_get str_eqb (lit "test2025doi") (citations self') = Some c.
Proof.
  intros a b c self.
  assert (Hs : NoDup (map fst (citations self))).
  { repeat constructor; simpl; intuition discriminate. }
  destruct (deduplicate_keeps_best self Hs)
    as (removed & self' & E & _ & _ & _ & _ & _ & _ & Hsurv & Hpair).
  exists removed, self'. split; [exact E|].
  split.
  { apply (Hpair [] (lit "test2025paper") a [] (lit "test2025duplicate") b
             [(lit "test2025doi", c)]); [reflexivity | reflexivity |].
    vm_compute. discriminate. }
  split; [|split].
  - apply (Hpair [] (lit "test2025paper") a [(lit "test2025duplicate", b)]
             (lit "test2025doi") c []); [reflexivity | reflexivity |].
    vm_compute. reflexivity.
  - apply (Hpair [] (lit "test2025paper") a [(lit "test2025duplicate", b)]
             (lit "test2025doi") c []); [reflexivity | reflexivity |].
    vm_compute. reflexivity.
  - destruct (Hsurv [(lit "test2025paper", a); (lit "test2025duplicate", b)]
                (lit "test2025doi") c [] eq_refl) as [Hget Hiff].
    apply Hget. apply Hiff. split.
    + intros y [<-|[<-|[]]] _; vm_compute; reflexivity.
    + intros y [].
Defined.

Lemma NoDup_map_Some {A} (l : list A) : NoDup l -> NoDup (map Some l).
Proof.
  induction 1 as [|x l Hx _ IH]; simpl; constructor; auto.
  intros H. apply in_map_iff in H as (y & Hy & Hin). injection Hy as ->.
  contradiction.
Qed.

Section Idempotence.

Variable s : list (str * Citation).
Hypothesis Hs : NoDup (map fst s).

(** On a store whose records have pairwise distinct equality keys nothing is
    removed. *)
Lemma dedup_distinct_keys (timeout retries : Z) :
  NoDup (map (fun y => dedup_key (snd y)) s) ->
  deduplicate_citations (mkManager s timeout retries)
  = Ok ([], mkManager s timeout retries).
Proof.
  intros Hd.
  destruct (dedup_result s Hs timeout retries) as (removed & E & _ & Hpos).
  assert (Hnil : removed = []).
  { destruct removed as [|k removed]; [reflexivity|]. exfalso.
    assert (Hk : In k (k :: removed)) by (left; reflexivity).
    assert (Hin : exists c, In (k, c) s).
    { destruct (dedup_run s Hs) as (st & Erun & I1 & I2 & I3 & I4).
      unfold deduplicate_citations in E. cbn [citations] in E.
      rewrite Erun in E. injection E as E _. rewrite <- E in Hk.
      apply I4 in Hk as (c & Hc & _). exists c. exact Hc. }
    destruct Hin as (c & Hc).
    apply in_split in Hc as (l1 & l2 & Es).
    rewrite Es, map_app in Hd. cbn [map snd] in Hd.
    apply NoDup_remove_2 in Hd. rewrite in_app_iff in Hd.
    apply (Hpos l1 k c l2 Es) in Hk
      as [(y & Hy & Hg & _)|(y & Hy & Hg & _)]; apply Hd.
    - left. rewrite <- Hg. apply (in_map (fun y => dedup_key (snd y))).
      exact Hy.
    - right. rewrite <- Hg. apply (in_map (fun y => dedup_key (snd y))).
      exact Hy. }
  rewrite E, Hnil. do 3 f_equal. apply filter_all. intros y _. reflexivity.
Qed.

(** After one pass the records left have pairwise distinct equality keys. *)
Lemma dedup_survivors_distinct (removed : list str) (timeout retries : Z) :
  deduplicate_citations (mkManager s timeout retries)
  = Ok (removed, mkManager (filter (alive removed) s) timeout retries) ->
  NoDup (map (fun y => dedup_key (snd y)) (filter (alive removed) s)).
Proof.
  intros E.
  destruct (dedup_run s Hs) as (st & Erun & I1 & I2 & I3 & I4).
  unfold deduplicate_citations in E. cbn [citations] in E.
  rewrite Erun in E. injection E as E _. rewrite E in I4.
  set (h := fun g => option_map fst (leader g s)).
  assert (Hh : forall y, In y (filter (alive removed) s) ->
                         h (dedup_key (snd y)) = Some (fst y)).
  { intros [k c] Hy. apply filter_In in Hy as [Hy Ha].
    apply alive_iff in Ha. cbn [fst snd] in *. unfold h.
    destruct (option_map fst (leader (dedup_key c) s)) as [k0|] eqn:El.
    - destruct (str_eqb k0 k) eqn:Ek.
      + apply str_eqb_eq in Ek. subst. reflexivity.
      + exfalso. apply Ha. apply I4. exists c. split; [exact Hy|].
        rewrite El. intros H. injection H as ->.
        rewrite str_eqb_refl in Ek. discriminate.
    - exfalso. apply Ha. apply I4. exists c. split; [exact Hy|].
      rewrite El. discriminate. }
  apply (NoDup_map_inv h). rewrite map_map.
  rewrite (map_ext_in _ (fun y => Some (fst y)) _ Hh).
  rewrite <- (map_map fst Some).
  apply NoDup_map_Some. apply NoDup_keys_filter. exact Hs.
Qed.

End Idempotence.

(** C8.  On a store (one entry per citekey), a first call of
    [deduplicate_citations] leaves records with pairwise distinct equality
    keys, and a second call, right after it, returns the empty list and
    leaves the manager as it is. *)
Theorem deduplicate_twice (self : CitationManager) :
  NoDup (map fst (citations self)) ->
  exists removed self',
    deduplicate_citations self = Ok (removed, self')
    /\ NoDup (map (fun y => dedup_key (snd y)) (citations self'))
    /\ deduplicate_citations self' = Ok ([], self').
Proof.
  intros Hs. destruct self as [s timeout retries]. cbn [citations] in *.
  destruct (dedup_result s Hs timeout retries) as (removed & E & _ & _).
  exists removed, (mkManager (filter (alive removed) s) timeout retries).
  split; [exact E|].
  pose proof (dedup_survivors_distinct s Hs removed timeout retries E) as Hd.
  split; [exact Hd|].
  apply dedup_distinct_keys; [|exact Hd].
  apply NoDup_keys_filter. exact Hs.
Qed.

Lemma deduplicate_twice_witness :
  let a := mkCitation (lit "test2025paper") (lit "Test Paper")
             [lit "Test Author"] 2025 (Some (lit "Test Journal")) None None
             None None None None None None false false [] [] in
  let b := mkCitation (lit "test2025duplicate") (lit "Test Paper")
             [lit "Test Author"] 2025 (Some (lit "Test Journal")) None None
             None None None None None None false false [] [] in
  let self := mkManager [(lit "test2025paper", a);
                         (lit "test2025duplicate", b)] 10 3 in
  exists removed self',
    deduplicate_citations self = Ok (removed, self')
    /\ NoDup (map (fun y => dedup_key (snd y)) (citations self'))
    /\ deduplicate_citations self' = Ok ([], self').
Proof.
  intros a b self. apply (deduplicate_twice self).
  repeat constructor; simpl; intuition discriminate.
Defined.

(* ================================================================== *)
(** * Further properties: the verification engine *)
(* ================================================================== *)

Section VerifyUrlMore.

Variable network : World -> str -> outcome.
Variable self : CitationManager.
Variable url : str.

Lemma attempt_cases (a : Z) (w : World) :
  (exists s, verify_url_attempt network self url a w
             = (Ok (Some (s =? 200, s)), mkWorld (S (heads w)) (slept w)))
  \/ (a = max_retries self - 1
      /\ verify_url_attempt network self url a w
         = (Ok (Some (false, 0)), mkWorld (S (heads w)) (slept w)))
  \/ (a <> max_retries self - 1
      /\ verify_url_attempt network self url a w
         = (Ok None, mkWorld (S (heads w)) (slept w + 1))).
Proof.
  destruct (network w url) as [s|] eqn:E.
  - left. exists s. apply attempt_response. exact E.
  - right. rewrite (attempt_fault network self url a w E).
    destruct (a =? max_retries self - 1) eqn:Ea; [left | right]; split;
      try reflexivity; lia.
Qed.

Lemma verify_url_loop_shape (k a : nat) (w : World) :
  (a + k = Z.to_nat (max_retries self))%nat ->
  exists status w',
    verify_url_loop network self url (map Z.of_nat (seq a k)) w
    = (Ok (status =? 200, status), w')
    /\ (slept w <= slept w' <= slept w + Nat.pred k)%nat.
Proof.
  revert a w. induction k as [|k IH]; intros a w Hn.
  - exists 0, w. split; [reflexivity | lia].
  - cbn [seq map verify_url_loop]. unfold bind.
    destruct (attempt_cases (Z.of_nat a) w) as [[s E]|[[Ha E]|[Ha E]]];
      rewrite E.
    + exists s. eexists. split; [reflexivity | simpl; lia].
    + exists 0. eexists. split; [reflexivity | simpl; lia].
    + destruct (IH (S a) (mkWorld (S (heads w)) (slept w + 1)))
        as (status & w' & Hv & Hs); [lia|].
      exists status, w'. split; [exact Hv|]. simpl in Hs.
      destruct k; [lia | simpl in *; lia].
Qed.

End VerifyUrlMore.

(** X1.  The flag that [verify_url] returns always agrees with the status
    it returns (it is [True] exactly for status 200, and the pair
    [(False, 0)] of a check that got no response is of this form), and one
    call sleeps less than [max_retries] seconds in all: it never sleeps
    after its last attempt. *)
Theorem verify_url_flag_matches_status
    (network : World -> str -> outcome) (self : CitationManager)
    (url : str) (w : World) :
  exists live status w',
    verify_url network self url w = (Ok (live, status), w')
    /\ live = (status =? 200)
    /\ (slept w <= slept w'
        <= slept w + Nat.pred (Z.to_nat (max_retries self)))%nat.
Proof.
  destruct (verify_url_loop_shape network self url
              (Z.to_nat (max_retries self)) 0 w eq_refl)
    as (status & w' & Hv & Hs).
  exists (status =? 200), status, w'. auto.
Qed.

(** X2.  With [max_retries] zero or negative, [verify_url] issues no
    request, does not sleep, and reports the URL as not live with status
    0. *)
Theorem verify_url_without_retries
    (network : World -> str -> outcome) (self : CitationManager)
    (url : str) (w : World) :
  max_retries self <= 0 ->
  verify_url network self url w = (Ok (false, 0), w).
Proof.
  intros H. unfold verify_url, range.
  replace (Z.to_nat (max_retries self)) with 0%nat by lia. reflexivity.
Qed.

Lemma verify_url_without_retries_witness :
  verify_url (fun _ _ => Response 200) (mkManager [] 10 0)
    (lit "https://doi.org/10.1/x") (mkWorld 0 0)
  = (Ok (false, 0), mkWorld 0 0).
Proof.
  apply (verify_url_without_retries (fun _ _ => Response 200)
           (mkManager [] 10 0) (lit "https://doi.org/10.1/x") (mkWorld 0 0)).
  simpl. lia.
Defined.

Section VerifyCitationMore.

Variable network : World -> str -> outcome.
Variable utcnow_isoformat : World -> str.
Variable self : CitationManager.

Lemma verify_url_run (url : str) (w : World) :
  exists status w',
    verify_url network self url w = (Ok (status =? 200, status), w')
    /\ (heads w <= heads w' <= heads w + Z.to_nat (max_retries self))%nat.
Proof.
  destruct (verify_url_loop_shape network self url
              (Z.to_nat (max_retries self)) 0 w eq_refl)
    as (status & w' & Hv & _).
  destruct (verify_url_returns network self url w) as (v & w2 & Hv2 & Hh).
  exists status, w'. split; [exact Hv|].
  unfold verify_url, range in Hv2. rewrite Hv in Hv2.
  injection Hv2 as _ <-. exact Hh.
Qed.

(** The whole of a [verify_citation] call on a key of the store. *)
Lemma verify_citation_run (ck : str) (c : Citation) (w : World) :
  dict_get str_eqb ck (citations self) = Some c ->
  exists sa sd w',
    verify_citation network utcnow_isoformat self ck w
    = (Ok (Results (truthy_opt (ads_url c) && (sa =? 200))
                   (truthy_opt (doi c) && (sd =? 200))
                   (py_all [truthy_str (title c); truthy_list (authors c);
                            truthy_int (year c); truthy_str (citekey c)]),
           with_citations
             (dict_set str_eqb ck
                (verified_record c sa sd (utcnow_isoformat w'))
                (citations self)) self), w')
    /\ (heads w <= heads w'
        <= heads w
           + (if truthy_opt (ads_url c) then Z.to_nat (max_retries self) else 0)
           + (if truthy_opt (doi c) then Z.to_nat (max_retries self) else 0))%nat.
Proof.
  intros Hc. unfold verify_citation. rewrite Hc.
  assert (Hdoi : forall sa, doi (set_http_status_ads (Some sa) c) = doi c)
    by reflexivity.
  destruct (truthy_opt (ads_url c)) eqn:Ea.
  - destruct (verify_url_run (opt_text (ads_url c)) w) as (sa & w1 & Hv1 & Hh1).
    destruct (truthy_opt (doi c)) eqn:Ed.
    + destruct (verify_url_run (lit "https://doi.org/" ++ opt_text (doi c)) w1)
        as (sd & w2 & Hv2 & Hh2).
      exists sa, sd, w2. split; [|lia].
      unfold bind. rewrite Hv1. unfold ret at 1. cbn [fst snd].
      rewrite Hdoi, Ed, Hv2. unfold verified_record. rewrite Ea, Hdoi, Ed.
      reflexivity.
    + exists sa, 0, w1. split; [|lia].
      unfold bind. rewrite Hv1. unfold ret at 1. cbn [fst snd].
      rewrite Hdoi, Ed. unfold verified_record. rewrite Ea, Hdoi, Ed.
      reflexivity.
  - destruct (truthy_opt (doi c)) eqn:Ed.
    + destruct (verify_url_run (lit "https://doi.org/" ++ opt_text (doi c)) w)
        as (sd & w2 & Hv2 & Hh2).
      exists 0, sd, w2. split; [|lia].
      unfold bind. unfold ret at 1. cbn [fst snd].
      rewrite Ed, Hv2. unfold verified_record. rewrite Ea, Ed.
      reflexivity.
    + exists 0, 0, w. split; [|lia].
      unfold bind. unfold ret at 1. cbn [fst snd].
      rewrite Ed. unfold verified_record. rewrite Ea, Ed.
      reflexivity.
Qed.

End VerifyCitationMore.

Lemma verified_record_fields (c : Citation) (sa sd : Z) (now : str) :
  http_status_ads (verified_record c sa sd now)
  = (if truthy_opt (ads_url c) then Some sa else http_status_ads c)
  /\ http_status_doi (verified_record c sa sd now)
     = (if truthy_opt (doi c) then Some sd else http_status_doi c)
  /\ publisher_url (verified_record c sa sd now)
     = (if truthy_opt (doi c)
        then Some (lit "https://doi.org/" ++ opt_text (doi c))
        else publisher_url c)
  /\ last_verified (verified_record c sa sd now) = Some now.
Proof.
  unfold verified_record.
  destruct (truthy_opt (ads_url c)) eqn:Ea; cbn [doi set_http_status_ads];
    destruct (truthy_opt (doi c)) eqn:Ed; repeat split.
Qed.

(** X3.  The report of [verify_citation] and the statuses it stores agree:
    [ads_url_valid] is [True] exactly when the record has an [ads_url] and
    the status stored in [http_status_ads] is 200, and likewise for
    [doi_url_valid], [doi] and [http_status_doi]; a status field whose URL
    field is not set keeps its value; [metadata_complete] tells whether the
    record is valid (citekey, title, authors, year all set). *)
Theorem verify_citation_report_matches_record
    (network : World -> str -> outcome) (utcnow_isoformat : World -> str)
    (self : CitationManager) (ck : str) (c : Citation) (w : World) :
  dict_get str_eqb ck (citations self) = Some c ->
  exists va vd mc self' w' c',
    verify_citation network utcnow_isoformat self ck w
    = (Ok (Results va vd mc, self'), w')
    /\ dict_get str_eqb ck (citations self') = Some c'
    /\ (va = true <->
        truthy_opt (ads_url c) = true /\ http_status_ads c' = Some 200)
    /\ (vd = true <->
        truthy_opt (doi c) = true /\ http_status_doi c' = Some 200)
    /\ (truthy_opt (ads_url c) = false ->
        http_status_ads c' = http_status_ads c)
    /\ (truthy_opt (doi c) = false ->
        http_status_doi c' = http_status_doi c
        /\ publisher_url c' = publisher_url c)
    /\ mc = valid_record c.
Proof.
  intros Hc.
  destruct (verify_citation_run network utcnow_isoformat self ck c w Hc)
    as (sa & sd & w' & Hv & _).
  eexists _, _, _, _, w', _. split; [exact Hv|].
  split; [apply dict_get_set_same; exact str_eqb_eq|].
  destruct (verified_record_fields c sa sd (utcnow_isoformat w'))
    as (Ea & Ed & Ep & _).
  rewrite Ea, Ed, Ep.
  split; [|split; [|split; [|split]]].
  - destruct (truthy_opt (ads_url c)); cbn [andb]; split.
    + intros H. split; [reflexivity | f_equal; lia].
    + intros [_ H]. injection H as ->. reflexivity.
    + discriminate.
    + intros [H _]. discriminate H.
  - destruct (truthy_opt (doi c)); cbn [andb]; split.
    + intros H. split; [reflexivity | f_equal; lia].
    + intros [_ H]. injection H as ->. reflexivity.
    + discriminate.
    + intros [H _]. discriminate H.
  - intros ->. reflexivity.
  - intros ->. split; reflexivity.
  - unfold valid_record, py_all. cbn [forallb].
    destruct (truthy_str (title c)), (truthy_list (authors c)),
      (truthy_int (year c)), (truthy_str (citekey c)); reflexivity.
Qed.

(** A record whose ADS URL answers 200 and whose DOI does not resolve. *)
Lemma verify_citation_report_matches_record_witness :
  let c := mkCitation (lit "a") (lit "T") [lit "X"] 2001 None None
             (Some (lit "10.1/x")) None (Some (lit "https://ads/abs/a")) None
             None None None false false [] [] in
  let net := fun (w : World) (u : str) =>
               if str_eqb u (lit "https://ads/abs/a") then Response 200
               else Response 404 in
  let clock := fun w : World => lit "2024-01-01T00:00:00" in
  exists self' w' c',
    verify_citation net clock (mkManager [(lit "a", c)] 10 3) (lit "a")
      (mkWorld 0 0)
    = (Ok (Results true false true, self'), w')
    /\ dict_get str_eqb (lit "a") (citations self') = Some c'
    /\ http_status_ads c' = Some 200.
Proof.
  intros c net clock.
  destruct (verify_citation_report_matches_record net clock
              (mkManager [(lit "a", c)] 10 3) (lit "a") c (mkWorld 0 0)
              eq_refl)
    as (va & vd & mc & self' & w' & c' & Hv & Hg & Ha & _).
  assert (E : fst (verify_citation net clock (mkManager [(lit "a", c)] 10 3)
                     (lit "a") (mkWorld 0 0))
              = Ok (Results va vd mc, self')) by (rewrite Hv; reflexivity).
  vm_compute in E. injection E as <- <- <- _.
  exists self', w', c'. split; [exact Hv|]. split; [exact Hg|].
  apply Ha. reflexivity.
Defined.

(** X4.  One [verify_citation] call on a record of the store issues at
    most [2 * max_retries] HEAD requests, and none at all when the record
    has neither an [ads_url] nor a [doi]. *)
Theorem verify_citation_request_bound
    (network : World -> str -> outcome) (utcnow_isoformat : World -> str)
    (self : CitationManager) (ck : str) (c : Citation) (w : World) :
  dict_get str_eqb ck (citations self) = Some c ->
  exists rep self' w',
    verify_citation network utcnow_isoformat self ck w = (Ok (rep, self'), w')
    /\ (heads w <= heads w' <= heads w + 2 * Z.to_nat (max_retries self))%nat
    /\ (truthy_opt (ads_url c) = false -> truthy_opt (doi c) = false ->
        heads w' = heads w).
Proof.
  intros Hc.
  destruct (verify_citation_run network utcnow_isoformat self ck c w Hc)
    as (sa & sd & w' & Hv & Hh).
  eexists _, _, w'. split; [exact Hv|]. split.
  - destruct (truthy_opt (ads_url c)), (truthy_opt (doi c)); lia.
  - intros Ha Hd. rewrite Ha, Hd in Hh. lia.
Qed.

Lemma verify_citation_request_bound_witness :
  let c := mkCitation (lit "a") (lit "T") [lit "X"] 2001 None None None None
             None None None None None false false [] [] in
  exists rep self' w',
    verify_citation (fun _ _ => TransportFault) (fun _ => lit "now")
      (mkManager [(lit "a", c)] 10 3) (lit "a") (mkWorld 5 0)
    = (Ok (rep, self'), w')
    /\ heads w' = 5%nat.
Proof.
  intros c.
  destruct (verify_citation_request_bound (fun _ _ => TransportFault)
              (fun _ => lit "now") (mkManager [(lit "a", c)] 10 3) (lit "a")
              c (mkWorld 5 0) eq_refl)
    as (rep & self' & w' & Hv & _ & Hnone).
  exists rep, self', w'. split; [exact Hv|]. apply Hnone; reflexivity.
Defined.

Section VerifyAllFacts.

Variable network : World -> str -> outcome.
Variable utcnow_isoformat : World -> str.

Lemma verify_all_loop_spec (todo : list str) (st : BatchState) (w : World) :
  NoDup todo ->
  (forall k, In k todo ->
     exists c, dict_get str_eqb k (citations (batch_self st)) = Some c) ->
  (forall k, In k todo -> ~ In k (map fst (batch_results st))) ->
  exists st' w',
    verify_all_loop network utcnow_isoformat todo st w = (Ok st', w')
    /\ map fst (citations (batch_self st'))
       = map fst (citations (batch_self st))
    /\ max_retries (batch_self st') = max_retries (batch_self st)
    /\ verification_timeout (batch_self st')
       = verification_timeout (batch_self st)
    /\ map fst (batch_results st') = map fst (batch_results st) ++ todo
    /\ (forall k rep, dict_get str_eqb k (batch_results st') = Some rep ->
          (In k todo /\ rep <> NotFound)
          \/ (~ In k todo
              /\ dict_get str_eqb k (batch_results st) = Some rep))
    /\ batch_pauses st' = (batch_pauses st + List.length todo)%nat
    /\ (heads w <= heads w'
        <= heads w
           + List.length todo * (2 * Z.to_nat (max_retries (batch_self st))))%nat
    /\ (forall k c,
          dict_get str_eqb k (citations (batch_self st)) = Some c ->
          exists c',
            dict_get str_eqb k (citations (batch_self st')) = Some c'
            /\ same_outside_verification c c'
            /\ (In k todo ->
                exists w0, last_verified c' = Some (utcnow_isoformat w0))
            /\ (~ In k todo -> c' = c)).
Proof.
  revert st w. induction todo as [|ck rest IH]; intros st w Hnd Hpres Hfresh.
  - exists st, w. split; [reflexivity|].
    repeat split; try reflexivity; try lia.
    + rewrite app_nil_r. reflexivity.
    + intros k rep H. right. split; [intros [] | exact H].
    + simpl. lia.
    + intros k c H. exists c. split; [exact H|].
      split; [unfold same_outside_verification; repeat split|].
      split; [intros [] | reflexivity].
  - inversion Hnd as [|? ? Hck Hrest]; subst.
    destruct (Hpres ck (or_introl eq_refl)) as [c0 Hc0].
    destruct (verify_citation_run network utcnow_isoformat (batch_self st)
                ck c0 w Hc0) as (sa & sd & w1 & Hv & Hh1).
    cbn [verify_all_loop]. unfold bind at 1. rewrite Hv. cbn [fst snd].
    set (c1 := verified_record c0 sa sd (utcnow_isoformat w1)) in *.
    set (rep1 := Results _ _ _) in *.
    set (self1 := with_citations _ (batch_self st)) in *.
    set (st1 := mkBatch _ self1 _).
    assert (Hkeys1 : map fst (citations self1)
                     = map fst (citations (batch_self st))).
    { unfold self1. cbn [citations with_citations].
      eapply dict_set_keys; eauto. }
    assert (Hget1 : forall k, k <> ck ->
              dict_get str_eqb k (citations self1)
              = dict_get str_eqb k (citations (batch_self st))).
    { intros k Hk. unfold self1. cbn [citations with_citations].
      apply dict_get_set_other; auto using str_eqb_eq. }
    assert (Hres1 : map fst (batch_results st1)
                    = map fst (batch_results st) ++ [ck]).
    { unfold st1. cbn [batch_results].
      apply (dict_set_keys_new str_eqb str_eqb_eq).
      apply (dict_get_absent str_eqb str_eqb_eq).
      apply Hfresh. left; reflexivity. }
    destruct (IH st1 w1 Hrest) as
      (st' & w' & Hrun & Hk & Hm & Ht & Hr & Hrep & Hp & Hh & Hrec).
    { intros k Hin. unfold st1. cbn [batch_self]. rewrite Hget1.
      - apply Hpres. right; exact Hin.
      - intros ->. contradiction. }
    { intros k Hin. rewrite Hres1, in_app_iff. cbn [In]. intros [H|[H|[]]].
      - apply (Hfresh k); [right; exact Hin | exact H].
      - subst k. contradiction. }
    exists st', w'. split; [exact Hrun|].
    unfold st1 in Hk, Hm, Ht, Hh, Hrec, Hp. cbn [batch_self batch_pauses] in *.
    split; [rewrite Hk; exact Hkeys1|].
    split; [rewrite Hm; reflexivity|].
    split; [rewrite Ht; reflexivity|].
    split; [rewrite Hr, Hres1, <- app_assoc; reflexivity|].
    split.
    { intros k rep Hget. destruct (Hrep k rep Hget) as [[Hin Hne]|[Hnin Hold]].
      - left. split; [right; exact Hin | exact Hne].
      - unfold st1 in Hold. cbn [batch_results] in Hold.
        destruct (str_eqb ck k) eqn:E.
        + apply str_eqb_eq in E. subst k.
          rewrite (dict_get_set_same str_eqb str_eqb_eq) in Hold.
          injection Hold as <-. left. split; [left; reflexivity|].
          unfold rep1. discriminate.
        + assert (Hne : k <> ck).
          { intros ->. rewrite str_eqb_refl in E. discriminate. }
          rewrite (dict_get_set_other str_eqb str_eqb_eq) in Hold by exact Hne.
          right. split; [|exact Hold]. intros [H|H]; [congruence | contradiction]. }
    split; [cbn [List.length]; lia|].
    split.
    { replace (max_retries self1) with (max_retries (batch_self st)) in Hh
        by reflexivity.
      cbn [List.length]. rewrite Nat.mul_succ_l.
      destruct (truthy_opt (ads_url c0)), (truthy_opt (doi c0)); lia. }
    intros k c Hget.
    destruct (str_eqb ck k) eqn:E.
    + apply str_eqb_eq in E. subst k.
      rewrite Hc0 in Hget. injection Hget as <-.
      destruct (Hrec ck c1) as (c' & Hg' & _ & _ & Hsame).
      { unfold self1. cbn [citations with_citations].
        apply (dict_get_set_same str_eqb str_eqb_eq). }
      rewrite (Hsame Hck) in Hg'. exists c1. split; [exact Hg'|].
      split.
      { unfold c1, verified_record, same_outside_verification.
        destruct (truthy_opt (ads_url c0)); cbn;
          destruct (truthy_opt (doi c0)); cbn; repeat split. }
      split; [|intros H; exfalso; apply H; left; reflexivity].
      intros _. exists w1.
      apply (proj2 (proj2 (proj2 (verified_record_fields c0 sa sd _)))).
    + assert (Hne : k <> ck).
      { intros ->. rewrite str_eqb_refl in E. discriminate. }
      destruct (Hrec k c) as (c' & Hg' & Hso & Hst & Hsame).
      { rewrite Hget1 by exact Hne. exact Hget. }
      exists c'. split; [exact Hg'|]. split; [exact Hso|]. split.
      * intros [H|H]; [congruence | apply Hst; exact H].
      * intros H. apply Hsame. intros Hin. apply H. right; exact Hin.
Qed.

End VerifyAllFacts.

(** X5.  On a store (one entry per citekey), [verify_all_citations]
    returns one report per record, in store order, none of them the
    not-found report; it pauses once per record and issues at most
    [2 * max_retries] HEAD requests per record. *)
Theorem verify_all_citations_reports_every_key
    (network : World -> str -> outcome) (utcnow_isoformat : World -> str)
    (self : CitationManager) (w : World) :
  NoDup (map fst (citations self)) ->
  exists st w',
    verify_all_citations network utcnow_isoformat self w = (Ok st, w')
    /\ map fst (batch_results st) = map fst (citations self)
    /\ (forall k rep, dict_get str_eqb k (batch_results st) = Some rep ->
          rep <> NotFound)
    /\ batch_pauses st = List.length (citations self)
    /\ (heads w <= heads w'
        <= heads w
           + List.length (citations self) * (2 * Z.to_nat (max_retries self)))%nat.
Proof.
  intros Hnd. unfold verify_all_citations.
  destruct (verify_all_loop_spec network utcnow_isoformat
              (map fst (citations self)) (mkBatch [] self 0) w Hnd)
    as (st & w' & Hrun & _ & _ & _ & Hr & Hrep & Hp & Hh & _).
  - intros k Hin. cbn [batch_self].
    apply in_map_iff in Hin as ([k' c] & <- & Hin). exists c.
    apply (dict_get_in str_eqb str_eqb_eq); auto.
  - intros k _ [].
  - exists st, w'. split; [exact Hrun|].
    cbn [batch_results batch_self batch_pauses map app] in *.
    rewrite length_map in *.
    split; [exact Hr|]. split; [|split; [exact Hp | exact Hh]].
    intros k rep Hget. destruct (Hrep k rep Hget) as [[_ H]|[_ H]];
      [exact H | discriminate H].
Qed.

Lemma verify_all_citations_reports_every_key_witness :
  let c := mkCitation (lit "a") (lit "T") [lit "X"] 2001 None None
             (Some (lit "10.1/x")) None None None None None None false false
             [] [] in
  let d := mkCitation (lit "b") (lit "U") [lit "Y"] 2002 None None None None
             None None None None None false false [] [] in
  let self := mkManager [(lit "a", c); (lit "b", d)] 10 3 in
  exists st w',
    verify_all_citations (fun _ _ => Response 200) (fun _ => lit "now") self
      (mkWorld 0 0) = (Ok st, w')
    /\ map fst (batch_results st) = [lit "a"; lit "b"]
    /\ batch_pauses st = 2%nat.
Proof.
  intros c d self.
  destruct (verify_all_citations_reports_every_key (fun _ _ => Response 200)
              (fun _ => lit "now") self (mkWorld 0 0))
    as (st & w' & Hrun & Hr & _ & Hp & _).
  - repeat constructor; simpl; intuition discriminate.
  - exists st, w'. auto.
Defined.

(** X6.  On a store (one entry per citekey), [verify_all_citations] keeps
    the keys of the store and their order, leaves every record as it was
    outside the four verification fields, and stamps every record with a
    reading of the clock. *)
Theorem verify_all_citations_stamps_every_record
    (network : World -> str -> outcome) (utcnow_isoformat : World -> str)
    (self : CitationManager) (w : World) :
  NoDup (map fst (citations self)) ->
  exists st w',
    verify_all_citations network utcnow_isoformat self w = (Ok st, w')
    /\ map fst (citations (batch_self st)) = map fst (citations self)
    /\ max_retries (batch_self st) = max_retries self
    /\ (forall k c,
          dict_get str_eqb k (citations self) = Some c ->
          exists c' w0,
            dict_get str_eqb k (citations (batch_self st)) = Some c'
            /\ same_outside_verification c c'
            /\ last_verified c' = Some (utcnow_isoformat w0)).
Proof.
  intros Hnd. unfold verify_all_citations.
  destruct (verify_all_loop_spec network utcnow_isoformat
              (map fst (citations self)) (mkBatch [] self 0) w Hnd)
    as (st & w' & Hrun & Hk & Hm & _ & _ & _ & _ & _ & Hrec).
  - intros k Hin. cbn [batch_self].
    apply in_map_iff in Hin as ([k' c] & <- & Hin). exists c.
    apply (dict_get_in str_eqb str_eqb_eq); auto.
  - intros k _ [].
  - exists st, w'. split; [exact Hrun|]. cbn [batch_self] in *.
    split; [exact Hk|]. split; [exact Hm|].
    intros k c Hget. destruct (Hrec k c Hget) as (c' & Hg & Hso & Hst & _).
    destruct Hst as [w0 Hw0].
    + apply (dict_get_some str_eqb str_eqb_eq) in Hget.
      apply (in_map fst) in Hget. exact Hget.
    + exists c', w0. auto.
Qed.

Lemma verify_all_citations_stamps_every_record_witness :
  let c := mkCitation (lit "a") (lit "T") [lit "X"] 2001 None None
             (Some (lit "10.1/x")) None None None None None None false false
             [] [] in
  let self := mkManager [(lit "a", c)] 10 3 in
  exists st w' c' w0,
    verify_all_citations (fun _ _ => Response 200) (fun _ => lit "now") self
      (mkWorld 0 0) = (Ok st, w')
    /\ dict_get str_eqb (lit "a") (citations (batch_self st)) = Some c'
    /\ title c' = lit "T"
    /\ last_verified c' = Some ((fun _ : World => lit "now") w0).
Proof.
  intros c self.
  destruct (verify_all_citations_stamps_every_record (fun _ _ => Response 200)
              (fun _ => lit "now") self (mkWorld 0 0))
    as (st & w' & Hrun & _ & _ & Hrec).
  - repeat constructor; simpl; intuition discriminate.
  - destruct (Hrec (lit "a") c eq_refl) as (c' & w0 & Hg & Hso & Hl).
    exists st, w', c', w0. split; [exact Hrun|]. split; [exact Hg|].
    split; [|exact Hl]. apply Hso.
Defined.

(* ================================================================== *)
(** * Further properties: the coverage report *)
(* ================================================================== *)

Section FloatFacts.

Lemma round_half_even_le (n d k : Z) :
  0 < d -> n <= k * d -> round_half_even n d <= k.
Proof.
  intros Hd H. unfold round_half_even.
  pose proof (Z.div_mod n d ltac:(lia)) as E.
  pose proof (Z.mod_pos_bound n d Hd) as Hr.
  set (q := n / d) in *. set (r := n mod d) in *. clearbody q r.
  assert (Hq : q <= k) by nia.
  destruct (2 * r <? d) eqn:E1; [exact Hq|].
  assert (Hlt : q < k).
  { destruct (Z.eq_dec q k) as [->|]; [|lia]. nia. }
  destruct (d <? 2 * r); [lia|]. destruct (Z.even q); lia.
Qed.

Lemma round_half_even_ge (n d k : Z) :
  0 < d -> k * d <= n -> k <= round_half_even n d.
Proof.
  intros Hd H. unfold round_half_even.
  pose proof (Z.div_mod n d ltac:(lia)) as E.
  pose proof (Z.mod_pos_bound n d Hd) as Hr.
  set (q := n / d) in *. set (r := n mod d) in *. clearbody q r.
  assert (Hq : k <= q) by nia.
  destruct (2 * r <? d); [exact Hq|].
  destruct (d <? 2 * r); [lia|]. destruct (Z.even q); lia.
Qed.

Lemma round_half_even_exact (d k : Z) :
  0 < d -> round_half_even (k * d) d = k.
Proof.
  intros Hd. apply Z.le_antisymm.
  - apply round_half_even_le; lia.
  - apply round_half_even_ge; lia.
Qed.

(** The exponent found brackets the rational. *)
Lemma ilog2_spec (n d : positive) :
  let K := Z.log2 (Zpos d) + 1 in
  let L := ilog2 n d + K in
  0 <= L /\ 2 ^ L * Zpos d <= Zpos n * 2 ^ K < 2 ^ (L + 1) * Zpos d.
Proof.
  intros K L. unfold L, ilog2. fold K.
  replace (Z.log2 (Zpos n * 2 ^ K / Zpos d) - K + K)
    with (Z.log2 (Zpos n * 2 ^ K / Zpos d)) by lia.
  assert (HK : 0 <= K) by (unfold K; pose proof (Z.log2_nonneg (Zpos d)); lia).
  assert (Hd : Zpos d < 2 ^ K).
  { unfold K. apply Z.log2_spec. lia. }
  set (F := Zpos n * 2 ^ K / Zpos d).
  assert (HF : 0 < F).
  { unfold F. apply Z.div_str_pos. split; [lia|]. nia. }
  pose proof (Z.log2_spec F HF) as [H1 H2].
  pose proof (Z.log2_nonneg F) as HL.
  split; [exact HL|].
  pose proof (Z.div_mod (Zpos n * 2 ^ K) (Zpos d) ltac:(lia)) as E.
  pose proof (Z.mod_pos_bound (Zpos n * 2 ^ K) (Zpos d) ltac:(lia)) as Hr.
  fold F in E. replace (Z.succ (Z.log2 F)) with (Z.log2 F + 1) in H2 by lia.
  set (r := (Zpos n * 2 ^ K) mod Zpos d) in *. clearbody r.
  split; nia.
Qed.

Lemma pow2_pos (a : Z) : 0 <= a -> 0 < 2 ^ a.
Proof. intros. apply Z.pow_pos_nonneg; lia. Qed.

Lemma pow2_le (a b : Z) : 0 <= a <= b -> 2 ^ a <= 2 ^ b.
Proof. intros. apply Z.pow_le_mono_r; lia. Qed.

Lemma pow2_lt_inv (a b : Z) : 0 <= a -> 0 <= b -> 2 ^ a < 2 ^ b -> a < b.
Proof. intros Ha Hb H. apply (Z.pow_lt_mono_r_iff 2); lia. Qed.

(** With the scale [s] of the rounding, the rational scaled by [2^s] lies
    below [2^53]. *)
Lemma scale_upper (n d : positive) (s : Z) :
  0 <= s <= 52 - ilog2 n d ->
  Zpos n * 2 ^ s < 2 ^ 53 * Zpos d.
Proof.
  intros Hs. destruct (ilog2_spec n d) as (HL & _ & Hup).
  set (K := Z.log2 (Zpos d) + 1) in *.
  set (L := ilog2 n d + K) in *.
  assert (HK : 0 <= K) by (unfold K; pose proof (Z.log2_nonneg (Zpos d)); lia).
  assert (Hle : L + 1 + s <= 53 + K) by (unfold L; lia).
  pose proof (pow2_pos K HK) as PK. pose proof (pow2_pos s (proj1 Hs)) as Ps.
  apply (Z.mul_lt_mono_pos_r (2 ^ K)); [exact PK|].
  assert (E1 : Zpos n * 2 ^ s * 2 ^ K = Zpos n * 2 ^ K * 2 ^ s) by ring.
  rewrite E1.
  apply Z.lt_le_trans with (2 ^ (L + 1) * Zpos d * 2 ^ s).
  - apply Z.mul_lt_mono_pos_r; assumption.
  - replace (2 ^ (L + 1) * Zpos d * 2 ^ s)
      with (2 ^ (L + 1 + s) * Zpos d)
      by (rewrite (Z.pow_add_r 2 (L + 1) s) by lia; ring).
    replace (2 ^ 53 * Zpos d * 2 ^ K) with (2 ^ (53 + K) * Zpos d)
      by (rewrite (Z.pow_add_r 2 53 K) by lia; ring).
    apply Z.mul_le_mono_nonneg_r; [lia|]. apply pow2_le. lia.
Qed.

(** A rational below a double of scale [sb] has at least that scale. *)
Lemma scale_lower (n d : positive) (mb sb : Z) :
  0 <= sb -> mb < 2 ^ 53 ->
  Zpos n * 2 ^ sb <= mb * Zpos d ->
  sb <= 52 - ilog2 n d.
Proof.
  intros Hsb Hmb Hle. destruct (ilog2_spec n d) as (HL & Hlow & _).
  set (K := Z.log2 (Zpos d) + 1) in *.
  set (L := ilog2 n d + K) in *.
  assert (HK : 0 <= K) by (unfold K; pose proof (Z.log2_nonneg (Zpos d)); lia).
  pose proof (pow2_pos K HK) as PK. pose proof (pow2_pos sb Hsb) as Ps.
  assert (H : 2 ^ (L + sb) < 2 ^ (53 + K)).
  { apply (Z.mul_lt_mono_pos_r (Zpos d)); [lia|].
    rewrite (Z.pow_add_r 2 L sb), (Z.pow_add_r 2 53 K) by lia.
    apply Z.le_lt_trans with (Zpos n * 2 ^ K * 2 ^ sb); [nia|].
    apply Z.le_lt_trans with (mb * Zpos d * 2 ^ K); [nia|].
    nia. }
  apply pow2_lt_inv in H; [|lia|lia]. unfold L in H. lia.
Qed.

Lemma round_double_pos_nonneg (n d : positive) :
  (0 <= round_double_pos n d)%Q.
Proof.
  unfold round_double_pos.
  set (s := Z.min (52 - ilog2 n d) 1074).
  destruct (0 <=? s) eqn:Es.
  - rewrite Qred_correct. unfold Qle. cbn [Qnum Qden].
    assert (H : 0 <= round_half_even (Zpos n * 2 ^ s) (Zpos d)).
    { apply round_half_even_ge; [lia|].
      pose proof (pow2_pos s ltac:(lia)). nia. }
    lia.
  - rewrite Qred_correct. unfold Qle, inject_Z. cbn [Qnum Qden].
    assert (Hs : 0 <= - s) by lia.
    pose proof (pow2_pos (- s) Hs) as P.
    assert (H : 0 <= round_half_even (Zpos n) (Zpos d * 2 ^ (- s))).
    { apply round_half_even_ge; [nia | lia]. }
    nia.
Qed.

(** Rounding does not cross a double: a positive rational that is at most
    the double [mb / 2^sb] rounds to at most that double. *)
Lemma round_double_pos_le (n d : positive) (mb sb : Z) :
  0 <= sb <= 1074 -> 2 ^ 52 <= mb < 2 ^ 53 ->
  Zpos n * 2 ^ sb <= mb * Zpos d ->
  (round_double_pos n d <= Qmake mb (Z.to_pos (2 ^ sb)))%Q.
Proof.
  intros Hsb Hmb Hle. unfold round_double_pos.
  pose proof (scale_lower n d mb sb (proj1 Hsb) (proj2 Hmb) Hle) as Hlow.
  set (s := Z.min (52 - ilog2 n d) 1074).
  assert (Hs : sb <= s <= 52 - ilog2 n d) by (unfold s; lia).
  assert (E : (0 <=? s) = true) by lia. rewrite E.
  rewrite Qred_correct. unfold Qle. cbn [Qnum Qden].
  pose proof (pow2_pos s ltac:(lia)) as Ps.
  pose proof (pow2_pos sb ltac:(lia)) as Pb.
  rewrite !Z2Pos.id by assumption.
  set (m := round_half_even (Zpos n * 2 ^ s) (Zpos d)).
  destruct (Z.eq_dec s sb) as [Heq|Hne].
  - assert (Hm : m <= mb).
    { apply round_half_even_le; [lia|]. rewrite Heq. exact Hle. }
    rewrite Heq. nia.
  - assert (Hm : m <= 2 ^ 53).
    { apply round_half_even_le; [lia|].
      apply Z.lt_le_incl. apply scale_upper. lia. }
    assert (Hpow : 2 * 2 ^ sb <= 2 ^ s).
    { replace (2 * 2 ^ sb) with (2 ^ (sb + 1))
        by (rewrite Z.pow_add_r by lia; ring).
      apply pow2_le. lia. }
    change (2 ^ 53) with (2 * 2 ^ 52) in Hm.
    apply Z.le_trans with (2 * 2 ^ 52 * 2 ^ sb); [nia|]. nia.
Qed.

(** A positive integer divided by itself is the double 1. *)
Lemma round_double_pos_self (n : positive) : round_double_pos n n = 1%Q.
Proof.
  unfold round_double_pos.
  assert (E : ilog2 n n = 0).
  { unfold ilog2. set (K := Z.log2 (Zpos n) + 1).
    assert (HK : 0 <= K)
      by (unfold K; pose proof (Z.log2_nonneg (Zpos n)); lia).
    rewrite (Z.mul_comm (Zpos n)), Z.div_mul by lia.
    rewrite Z.log2_pow2 by exact HK. lia. }
  rewrite E. change (Z.min (52 - 0) 1074) with 52.
  change (0 <=? 52) with true. cbv iota.
  rewrite (Z.mul_comm (Zpos n)), round_half_even_exact by lia.
  reflexivity.
Qed.

(** The double nearest to a quotient between 0 and 1 lies between 0 and
    1. *)
Lemma round_double_unit (v t : Z) :
  0 <= v <= t -> 0 < t ->
  (0 <= round_double (Qmake v (Z.to_pos t)))%Q
  /\ (round_double (Qmake v (Z.to_pos t)) <= 1)%Q.
Proof.
  intros Hv Ht. unfold round_double. cbn [Qnum Qden].
  destruct v as [|n|n]; [split; discriminate | | lia].
  split; [apply round_double_pos_nonneg|].
  apply Qle_trans with (Qmake (2 ^ 52) (Z.to_pos (2 ^ 52)));
    [|discriminate].
  apply round_double_pos_le; [lia | split; [lia | reflexivity] |].
  rewrite Z2Pos.id by exact Ht. nia.
Qed.

(** A hundred times a double between 0 and 1 is a double between 0 and
    100. *)
Lemma float_percent_bounds (x : Q) :
  (0 <= x)%Q -> (x <= 1)%Q ->
  (0 <= float_mul x 100)%Q /\ (float_mul x 100 <= 100)%Q.
Proof.
  intros H0 H1. unfold float_mul, round_double.
  unfold Qle in H0, H1. cbn [Qnum Qden] in H0, H1.
  destruct (Qnum (x * 100)) as [|n|n] eqn:En; [split; discriminate | |].
  - split; [apply round_double_pos_nonneg|].
    apply Qle_trans with (Qmake (100 * 2 ^ 46) (Z.to_pos (2 ^ 46)));
      [|discriminate].
    apply round_double_pos_le; [lia | split; [lia | reflexivity] |].
    rewrite <- En. unfold Qmult. cbn [Qnum Qden].
    rewrite Pos2Z.inj_mul. nia.
  - exfalso. unfold Qmult in En. cbn [Qnum Qden] in En. lia.
Qed.

End FloatFacts.

Lemma count_if_bounds {A} (p : A -> bool) (l : list A) :
  0 <= count_if p l <= Z.of_nat (List.length l).
Proof.
  unfold count_if. pose proof (filter_length_le p l). lia.
Qed.

Lemma count_if_all {A} (p : A -> bool) (l : list A) :
  (forall x, In x l -> p x = true) ->
  count_if p l = Z.of_nat (List.length l).
Proof. intros H. unfold count_if. rewrite filter_all; auto. Qed.

Lemma get_verification_report_value (self : CitationManager) :
  let values := map snd (citations self) in
  let total := Z.of_nat (List.length (citations self)) in
  let verified := count_if (fun c => truthy_opt (last_verified c)) values in
  get_verification_report self
  = Ok (mkReport total verified
          (count_if (fun c => status_is_200 (http_status_ads c)) values)
          (count_if (fun c => status_is_200 (http_status_doi c)) values)
          (if 0 <? total
           then PyFloat
                  (float_mul
                     (round_double (Qmake verified (Z.to_pos total))) 100)
           else PyInt 0)).
Proof.
  intros values total verified. unfold get_verification_report, truediv.
  fold total. fold values. fold verified.
  destruct (0 <? total) eqn:E; [|reflexivity].
  assert (H : (total =? 0) = false) by lia. rewrite H.
  rewrite Z.sgn_pos, Z.mul_1_r, Z.abs_eq by lia. reflexivity.
Qed.

(** X7.  [get_verification_report] returns on every store; each of its
    three counts lies between 0 and the number of records.  The percentage
    is the integer 0 on the empty store and otherwise a double: the double
    nearest to 100 times the double nearest to [verified / total] (7 of 25
    give 28.000000000000004), which lies between 0 and 100, and is 0 when
    no record is verified and 100 when every record is. *)
Theorem get_verification_report_bounds (self : CitationManager) :
  exists r,
    get_verification_report self = Ok r
    /\ total_citations r = Z.of_nat (List.length (citations self))
    /\ 0 <= verified_count r <= total_citations r
    /\ 0 <= ads_urls_valid r <= total_citations r
    /\ 0 <= doi_urls_valid r <= total_citations r
    /\ match verification_percentage r with
       | PyInt z => z = 0 /\ total_citations r = 0
       | PyFloat q =>
           0 < total_citations r
           /\ q = float_mul
                    (round_double
                       (Qmake (verified_count r)
                          (Z.to_pos (total_citations r)))) 100
           /\ (0 <= q)%Q /\ (q <= 100)%Q
           /\ (verified_count r = 0 -> (q == 0)%Q)
           /\ (verified_count r = total_citations r -> (q == 100)%Q)
       end.
Proof.
  eexists. split; [apply get_verification_report_value|].
  cbn [total_citations verified_count ads_urls_valid doi_urls_valid
       verification_percentage].
  set (values := map snd (citations self)).
  assert (Hlen : Z.of_nat (List.length (citations self))
                 = Z.of_nat (List.length values)).
  { unfold values. rewrite length_map. reflexivity. }
  split; [reflexivity|]. rewrite Hlen.
  split; [apply count_if_bounds|].
  split; [apply count_if_bounds|].
  split; [apply count_if_bounds|].
  pose proof (count_if_bounds (fun c => truthy_opt (last_verified c)) values)
    as Hv.
  set (v := count_if _ values) in *.
  set (t := Z.of_nat (List.length values)) in *.
  destruct (0 <? t) eqn:E.
  - assert (Ht : 0 < t) by lia.
    split; [exact Ht|]. split; [reflexivity|].
    destruct (round_double_unit v t Hv Ht) as [H0 H1].
    destruct (float_percent_bounds _ H0 H1) as [P0 P1].
    split; [exact P0|]. split; [exact P1|]. split.
    + intros ->. reflexivity.
    + intros ->. destruct t as [|n|n]; try lia.
      unfold float_mul. unfold round_double at 2. cbn [Qnum Qden Z.to_pos].
      rewrite round_double_pos_self. reflexivity.
  - split; [reflexivity | lia].
Qed.

(** Seven records verified out of twenty-five. *)
Lemma get_verification_report_bounds_witness :
  let seen := set_last_verified (Some (lit "2025-01-01T00:00:00")) tully1977 in
  let self :=
    mkManager
      (map (fun i => (str_of_int (Z.of_nat i),
                      if (i <? 7)%nat then seen else tully1977))
           (seq 0 25)) 10 3 in
  exists r q,
    get_verification_report self = Ok r
    /\ verified_count r = 7 /\ total_citations r = 25
    /\ verification_percentage r = PyFloat q
    /\ q = Qmake 7881299347898369 281474976710656
    /\ (0 <= q)%Q /\ (q <= 100)%Q.
Proof.
  intros seen self.
  destruct (get_verification_report_bounds self) as (r & E & _ & _ & _ & _ & Hp).
  assert (E' : get_verification_report self
               = Ok (mkReport 25 7 0 0
                       (PyFloat (Qmake 7881299347898369 281474976710656))))
    by (vm_compute; reflexivity).
  rewrite E' in E. injection E as <-.
  cbn [verification_percentage] in Hp.
  destruct Hp as (_ & _ & H0 & H100 & _).
  eexists _, _. split; [exact E'|]. repeat split; assumption.
Defined.

(** X8.  On a store (one entry per citekey) and with a clock whose readings
    are not empty, after [verify_all_citations] the coverage report counts
    every record as verified; on a store that is not empty the percentage
    is 100. *)
Theorem report_after_verify_all
    (network : World -> str -> outcome) (utcnow_isoformat : World -> str)
    (self : CitationManager) (w : World) :
  NoDup (map fst (citations self)) ->
  (forall w0, utcnow_isoformat w0 <> []) ->
  exists st w' r,
    verify_all_citations network utcnow_isoformat self w = (Ok st, w')
    /\ get_verification_report (batch_self st) = Ok r
    /\ total_citations r = Z.of_nat (List.length (citations self))
    /\ verified_count r = total_citations r
    /\ (citations self <> [] ->
        exists q, verification_percentage r = PyFloat q /\ (q == 100)%Q).
Proof.
  intros Hnd Hclock.
  destruct (verify_all_loop_spec network utcnow_isoformat
              (map fst (citations self)) (mkBatch [] self 0) w Hnd)
    as (st & w' & Hrun & Hk & _ & _ & _ & _ & _ & _ & Hrec).
  { intros k Hin. cbn [batch_self].
    apply in_map_iff in Hin as ([k' c] & <- & Hin). exists c.
    apply (dict_get_in str_eqb str_eqb_eq); auto. }
  { intros k _ []. }
  cbn [batch_self] in *.
  assert (Hlen : List.length (citations (batch_self st))
                 = List.length (citations self)).
  { rewrite <- (length_map fst), Hk, length_map. reflexivity. }
  assert (Hall : forall c', In c' (map snd (citations (batch_self st))) ->
                   truthy_opt (last_verified c') = true).
  { intros c' Hin. apply in_map_iff in Hin as ([k c''] & <- & Hin).
    cbn [snd].
    assert (Hkin : In k (map fst (citations self))).
    { rewrite <- Hk. apply (in_map fst) in Hin. exact Hin. }
    apply in_map_iff in Hkin as ([k0 c] & Hk0 & Hc). cbn [fst] in Hk0.
    subst k0.
    destruct (Hrec k c) as (c' & Hg & _ & Hst & _).
    { apply (dict_get_in str_eqb str_eqb_eq); auto. }
    destruct Hst as [w0 Hw0].
    { apply (in_map fst) in Hc. exact Hc. }
    assert (E : dict_get str_eqb k (citations (batch_self st)) = Some c'').
    { apply (dict_get_in str_eqb str_eqb_eq); [rewrite Hk; exact Hnd | exact Hin]. }
    rewrite Hg in E. injection E as <-. rewrite Hw0. cbn [truthy_opt].
    specialize (Hclock w0). destruct (utcnow_isoformat w0);
      [contradiction | reflexivity]. }
  exists st, w'. eexists. split; [exact Hrun|].
  split; [apply get_verification_report_value|].
  cbn [total_citations verified_count verification_percentage].
  rewrite (count_if_all _ _ Hall), length_map, Hlen.
  split; [reflexivity|]. split; [reflexivity|].
  intros Hne.
  assert (Hpos : 0 < Z.of_nat (List.length (citations self))).
  { destruct (citations self); [contradiction | simpl; lia]. }
  set (t := Z.of_nat (List.length (citations self))) in *.
  assert (E : (0 <? t) = true) by lia. rewrite E.
  eexists. split; [reflexivity|].
  destruct t as [|n|n]; try lia.
  unfold float_mul. unfold round_double at 2. cbn [Qnum Qden Z.to_pos].
  rewrite round_double_pos_self. reflexivity.
Qed.

Lemma report_after_verify_all_witness :
  let c := mkCitation (lit "a") (lit "T") [lit "X"] 2001 None None
             (Some (lit "10.1/x")) None None None None None None false false
             [] [] in
  let self := mkManager [(lit "a", c)] 10 3 in
  exists st w' r,
    verify_all_citations (fun _ _ => TransportFault) (fun _ => lit "now") self
      (mkWorld 0 0) = (Ok st, w')
    /\ get_verification_report (batch_self st) = Ok r
    /\ verified_count r = total_citations r.
Proof.
  intros c self.
  destruct (report_after_verify_all (fun _ _ => TransportFault)
              (fun _ => lit "now") self (mkWorld 0 0))
    as (st & w' & r & Hrun & Hr & _ & Hv & _).
  - repeat constructor; simpl; intuition discriminate.
  - intros w0. discriminate.
  - exists st, w', r. auto.
Defined.

(* ================================================================== *)
(** * Further properties: the store and the ledger *)
(* ================================================================== *)

(** X9.  After [add_citation] the record is found under its citekey and
    every other key holds what it held; a known citekey is overwritten in
    place (same keys, same order), a new one is added at the end; keys stay
    distinct. *)
Theorem add_citation_then_lookup (self : CitationManager) (c : Citation) :
  dict_get str_eqb (citekey c) (citations (add_citation self c)) = Some c
  /\ (forall k, k <> citekey c ->
        dict_get str_eqb k (citations (add_citation self c))
        = dict_get str_eqb k (citations self))
  /\ map fst (citations (add_citation self c))
     = (if dict_mem str_eqb (citekey c) (citations self)
        then map fst (citations self)
        else map fst (citations self) ++ [citekey c])
  /\ (NoDup (map fst (citations self)) ->
      NoDup (map fst (citations (add_citation self c))))
  /\ max_retries (add_citation self c) = max_retries self.
Proof.
  unfold add_citation, with_citations. cbn [citations max_retries].
  split; [apply dict_get_set_same; exact str_eqb_eq|].
  split; [intros k Hk; apply dict_get_set_other; auto using str_eqb_eq|].
  assert (Hkeys :
    map fst (dict_set str_eqb (citekey c) c (citations self))
    = (if dict_mem str_eqb (citekey c) (citations self)
       then map fst (citations self)
       else map fst (citations self) ++ [citekey c])
    /\ (dict_mem str_eqb (citekey c) (citations self) = false ->
        ~ In (citekey c) (map fst (citations self)))).
  { unfold dict_mem.
    destruct (dict_get str_eqb (citekey c) (citations self)) as [v0|] eqn:E.
    - split; [eapply dict_set_keys; eauto | discriminate].
    - destruct (dict_set_keys_new str_eqb str_eqb_eq (citekey c) c _ E)
        as [E' Hn]. auto. }
  destruct Hkeys as [Hkeys Hnew].
  split; [exact Hkeys|]. split; [|reflexivity].
  intros Hnd. rewrite Hkeys.
  destruct (dict_mem str_eqb (citekey c) (citations self)); [exact Hnd|].
  apply NoDup_snoc; auto.
Qed.

Lemma add_citation_then_lookup_witness :
  let self := mkManager [(lit "tully1977new", tully1977)] 10 3 in
  NoDup (map fst (citations (add_citation self tully1977)))
  /\ map fst (citations (add_citation self tully1977)) = [lit "tully1977new"].
Proof.
  intros self.
  destruct (add_citation_then_lookup self tully1977)
    as (_ & _ & Hk & Hnd & _).
  split; [|exact Hk]. apply Hnd. repeat constructor. intros [].
Defined.

Section LedgerFacts.

Lemma load_fold_append (data : list Citation) (m : CitationManager) :
  NoDup (map fst (citations m) ++ map citekey data) ->
  citations (fold_left ledger_put data m)
  = citations m ++ map (fun c => (citekey c, c)) data.
Proof.
  revert m. induction data as [|e data IH]; intros m Hnd.
  - simpl. rewrite app_nil_r. reflexivity.
  - cbn [fold_left map]. cbn [map] in Hnd.
    assert (He : ~ In (citekey e) (map fst (citations m))).
    { apply NoDup_remove_2 in Hnd. rewrite in_app_iff in Hnd. tauto. }
    assert (Eset : dict_set str_eqb (citekey e) e (citations m)
                   = citations m ++ [(citekey e, e)]).
    { clear -He. induction (citations m) as [|[k v] d IHd]; simpl in *.
      - reflexivity.
      - rewrite str_eqb_neq by tauto. rewrite IHd by tauto. reflexivity. }
    rewrite IH.
    + unfold ledger_put. cbn [citations with_citations]. rewrite Eset.
      rewrite <- app_assoc. reflexivity.
    + unfold ledger_put. cbn [citations with_citations]. rewrite Eset, map_app.
      cbn [map fst]. rewrite <- app_assoc. exact Hnd.
Qed.

Lemma load_fold_other (data : list Citation) (m : CitationManager) (k : str) :
  ~ In k (map citekey data) ->
  dict_get str_eqb k (citations (fold_left ledger_put data m))
  = dict_get str_eqb k (citations m).
Proof.
  revert m. induction data as [|e data IH]; intros m Hk; [reflexivity|].
  cbn [fold_left]. cbn [map In] in Hk. rewrite IH by tauto.
  unfold ledger_put. cbn [citations with_citations].
  apply dict_get_set_other; [exact str_eqb_eq|].
  intros ->. apply Hk. left; reflexivity.
Qed.

End LedgerFacts.

(** X10.  Saving a store to the ledger and loading the ledger into an
    empty manager gives the store back, records and order, when the store
    holds every record under its own citekey and has one entry per key. *)
Theorem ledger_round_trip (self : CitationManager) (timeout retries : Z) :
  NoDup (map fst (citations self)) ->
  (forall k c, In (k, c) (citations self) -> citekey c = k) ->
  citations (load_from_ledger (mkManager [] timeout retries)
               (save_to_ledger self))
  = citations self.
Proof.
  intros Hnd Hkey. unfold load_from_ledger, save_to_ledger.
  assert (E : map citekey (map snd (citations self)) = map fst (citations self)).
  { rewrite map_map. apply map_ext_in. intros [k c] Hin. cbn [fst snd].
    apply Hkey. exact Hin. }
  rewrite load_fold_append; cbn [citations app].
  - rewrite map_map. rewrite <- (map_id (citations self)) at 2.
    apply map_ext_in. intros [k c] Hin. cbn [snd].
    rewrite (Hkey k c Hin). reflexivity.
  - rewrite E. exact Hnd.
Qed.

Lemma ledger_round_trip_witness :
  citations (load_from_ledger (mkManager [] 10 3)
               (save_to_ledger
                  (mkManager [(lit "tully1977new", tully1977)] 10 3)))
  = [(lit "tully1977new", tully1977)].
Proof.
  apply (ledger_round_trip (mkManager [(lit "tully1977new", tully1977)] 10 3)
           10 3).
  - repeat constructor. intros [].
  - intros k c [H|[]]. injection H as <- <-. reflexivity.
Defined.

(** X11.  [load_from_ledger] leaves the manager as it is when the file is
    missing; otherwise a key that is the citekey of no ledger entry holds
    what it held, and a citekey of the ledger holds the last entry of the
    ledger that bears it. *)
Theorem load_from_ledger_last_wins (self : CitationManager) :
  load_from_ledger self None = self
  /\ (forall data k,
        ~ In k (map citekey data) ->
        dict_get str_eqb k (citations (load_from_ledger self (Some data)))
        = dict_get str_eqb k (citations self))
  /\ (forall l1 e l2,
        ~ In (citekey e) (map citekey l2) ->
        dict_get str_eqb (citekey e)
          (citations (load_from_ledger self (Some (l1 ++ e :: l2))))
        = Some e).
Proof.
  split; [reflexivity|]. split.
  - intros data k Hk. apply (load_fold_other data self k Hk).
  - intros l1 e l2 Hk. unfold load_from_ledger.
    rewrite fold_left_app. cbn [fold_left].
    rewrite (load_fold_other l2) by exact Hk.
    unfold ledger_put. cbn [citations with_citations].
    apply (dict_get_set_same str_eqb str_eqb_eq).
Qed.

Lemma load_from_ledger_last_wins_witness :
  let old := mkCitation (lit "tully1977new") (lit "Old title") [lit "X"] 1977
               None None None None None None None None None false false [] [] in
  dict_get str_eqb (lit "tully1977new")
    (citations (load_from_ledger (mkManager [] 10 3)
                  (Some ([old] ++ tully1977 :: []))))
  = Some tully1977.
Proof.
  intros old.
  apply (proj2 (proj2 (load_from_ledger_last_wins (mkManager [] 10 3)))
           [old] tully1977 []).
  intros [].
Defined.

(* ================================================================== *)
(** * Further properties: deduplication *)
(* ================================================================== *)

Section DedupSurvivors.

Variable s : list (str * Citation).
Hypothesis Hs : NoDup (map fst s).

(** Every record of the store has, for its equality key, a running best
    over the whole store: a record of the store with the same key that no
    record of the key outscores. *)
Lemma group_has_leader (k : str) (c : Citation) :
  In (k, c) s ->
  exists b,
    leader (dedup_key c) s = Some b /\ In b s
    /\ dedup_key (snd b) = dedup_key c
    /\ (forall z, In z s -> dedup_key (snd z) = dedup_key c ->
          _citation_completeness (snd z) <= _citation_completeness (snd b)).
Proof.
  intros Hin.
  destruct (fold_best_spec (dedup_key c) s None)
    as [[_ Hall]|(l1 & y & l2 & El & E & Hy & _ & H1 & H2)].
  - destruct (Hall (k, c) Hin eq_refl) as (b & Hb & _). discriminate.
  - exists y. split; [exact E|]. split; [rewrite El; apply in_elt|].
    split; [exact Hy|]. intros z Hz Hg. rewrite El in Hz.
    apply in_app_or in Hz as [Hz|[<-|Hz]].
    + specialize (H1 z Hz Hg). lia.
    + lia.
    + apply (H2 z Hz Hg).
Qed.

(** The running best of a key over the whole store is never removed. *)
Lemma leader_survives (st : DedupState) (g : str * Z) (b : str * Citation) :
  dedup_inv s s st -> leader g s = Some b -> ~ In (fst b) (duplicates st).
Proof.
  intros (_ & _ & _ & I4) E Hin.
  apply I4 in Hin as (c & Hc & Hne). apply Hne.
  destruct (leader_some g s b E) as [Hb Hg].
  destruct b as [kb cb]. cbn [fst snd] in *.
  rewrite (NoDup_keys_inj str_eqb str_eqb_eq s kb c cb Hs Hc Hb).
  rewrite Hg, E. reflexivity.
Qed.

(** The records removed and the records left make up the store. *)
Lemma removed_count (st : DedupState) :
  dedup_inv s s st ->
  (List.length (duplicates st)
   + List.length (filter (alive (duplicates st)) s)
   = List.length s)%nat.
Proof.
  intros (_ & I2 & _ & I4).
  set (dead := fun y : str * Citation => negb (alive (duplicates st) y)).
  assert (Hsplit : (List.length (filter (alive (duplicates st)) s)
                    + List.length (filter dead s) = List.length s)%nat).
  { clear. induction s as [|x l IH]; [reflexivity|]. cbn [filter]. unfold dead.
    destruct (alive (duplicates st) x); cbn [negb List.length];
      fold dead; lia. }
  assert (Hdead : List.length (filter dead s) = List.length (duplicates st)).
  { rewrite <- (length_map fst (filter dead s)).
    apply Permutation_length.
    apply NoDup_Permutation.
    - apply NoDup_keys_filter. exact Hs.
    - exact I2.
    - intros k. rewrite in_map_iff. split.
      + intros ([k' c] & <- & Hy). apply filter_In in Hy as [_ Hd].
        unfold dead in Hd. apply negb_true_iff in Hd.
        destruct (in_dec (list_eq_dec ascii_dec) k' (duplicates st))
          as [Hin|Hout]; [exact Hin|].
        apply (alive_iff (duplicates st) (k', c)) in Hout. congruence.
      + intros Hin. destruct (proj1 (I4 k) Hin) as (c & Hc & _).
        exists (k, c). split; [reflexivity|]. apply filter_In.
        split; [exact Hc|]. unfold dead. apply negb_true_iff.
        destruct (alive (duplicates st) (k, c)) eqn:Ea; [|reflexivity].
        apply alive_iff in Ea. contradiction. }
  lia.
Qed.

End DedupSurvivors.

(** X12.  On a store with one entry per citekey, [deduplicate_citations]
    loses no equality key: every record of the store has, among the records
    left, a record of the store with the same (title, year) key whose score
    is at least that of every record of the key.  The keys returned were
    keys of the store and are no longer, and the records removed and the
    records left add up to the records there were. *)
Theorem deduplicate_keeps_a_best_of_every_key (self : CitationManager) :
  NoDup (map fst (citations self)) ->
  exists removed self',
    deduplicate_citations self = Ok (removed, self')
    /\ (List.length removed + List.length (citations self')
        = List.length (citations self))%nat
    /\ (forall k, In k removed ->
          In k (map fst (citations self))
          /\ ~ In k (map fst (citations self')))
    /\ (forall k c, In (k, c) (citations self) ->
          exists k' c',
            In (k', c') (citations self') /\ In (k', c') (citations self)
            /\ dedup_key c' = dedup_key c
            /\ (forall k2 c2, In (k2, c2) (citations self) ->
                  dedup_key c2 = dedup_key c ->
                  _citation_completeness c2 <= _citation_completeness c')).
Proof.
  intros Hs. destruct self as [s timeout retries]. cbn [citations] in *.
  destruct (dedup_run s Hs) as (st & Erun & I).
  pose proof I as (I1 & I2 & I3 & I4).
  exists (duplicates st), (mkManager (store st) timeout retries).
  split.
  { unfold deduplicate_citations. cbn [citations]. rewrite Erun. reflexivity. }
  cbn [citations]. rewrite I1. split; [apply removed_count; assumption|].
  split.
  - intros k Hk. split.
    + destruct (proj1 (I4 k) Hk) as (c & Hc & _).
      apply (in_map fst) in Hc. exact Hc.
    + rewrite in_map_iff. intros ([k' c] & <- & Hy).
      apply filter_In in Hy as [_ Ha]. apply alive_iff in Ha.
      apply Ha. exact Hk.
  - intros k c Hin.
    destruct (group_has_leader s k c Hin) as ([kb cb] & E & Hb & Hg & Hmax).
    exists kb, cb. split; [|split; [exact Hb|split; [exact Hg|]]].
    + apply filter_In. split; [exact Hb|]. apply alive_iff.
      apply (leader_survives s Hs st (dedup_key c) (kb, cb) I E).
    + intros k2 c2 H2 Hg2. apply (Hmax (k2, c2) H2 Hg2).
Qed.

Lemma deduplicate_keeps_a_best_of_every_key_witness :
  let a := mkCitation (lit "test2025paper") (lit "Test Paper")
             [lit "Test Author"] 2025 (Some (lit "Test Journal")) None None
             None None None None None None false false [] [] in
  let b := mkCitation (lit "test2025duplicate") (lit "Test Paper")
             [lit "Test Author"] 2025 (Some (lit "Test Journal")) None
             (Some (lit "10.1000/test")) None None None None None None
             false false [] [] in
  let self := mkManager [(lit "test2025paper", a);
                         (lit "test2025duplicate", b)] 10 3 in
  exists removed self',
    deduplicate_citations self = Ok (removed, self')
    /\ (List.length removed + List.length (citations self')
        = List.length (citations self))%nat
    /\ (forall k, In k removed ->
          In k (map fst (citations self))
          /\ ~ In k (map fst (citations self')))
    /\ (forall k c, In (k, c) (citations self) ->
          exists k' c',
            In (k', c') (citations self') /\ In (k', c') (citations self)
            /\ dedup_key c' = dedup_key c
            /\ (forall k2 c2, In (k2, c2) (citations self) ->
                  dedup_key c2 = dedup_key c ->
                  _citation_completeness c2 <= _citation_completeness c')).
Proof.
  intros a b self. apply (deduplicate_keeps_a_best_of_every_key self).
  repeat constructor; simpl; intuition discriminate.
Defined.

(* ================================================================== *)
(** * Further properties: the codec *)
(* ================================================================== *)

Section OptionalFields.

(** What the lines after the year line of a generated entry assign: the
    journal, the DOI and the arXiv identifier when they are set, and
    nothing else. *)
Lemma parse_tail_lines (c : Citation) (t : str) (a : list str) (y : Z) :
  ends_clear is_wrapper (opt_text (journal c)) = true ->
  ends_clear is_wrapper (opt_text (doi c)) = true ->
  ends_clear is_wrapper (opt_text (arxiv_id c)) = true ->
  fold_left parse_line (tail_lines c) (mkFields t a y None None None)
  = mkFields t a y
      (if truthy_opt (journal c) then journal c else None)
      (if truthy_opt (doi c) then doi c else None)
      (if truthy_opt (arxiv_id c) then arxiv_id c else None).
Proof.
  intros Hj Hd Hx. unfold tail_lines. rewrite !fold_left_app.
  assert (Ej : fold_left parse_line
                 (when (truthy_opt (journal c))
                    [field_line (lit "journal") (opt_text (journal c))])
                 (mkFields t a y None None None)
               = mkFields t a y
                   (if truthy_opt (journal c) then journal c else None)
                   None None).
  { destruct (journal c) as [j|]; [|reflexivity]. cbn [truthy_opt opt_text] in *.
    destruct (truthy_str j); [|reflexivity]. cbn [when fold_left].
    cbv [lit list_ascii_of_string].
    rewrite parse_field_line by reflexivity.
    rewrite unwrap_braced by exact Hj. reflexivity. }
  rewrite Ej. set (J := if truthy_opt (journal c) then journal c else None).
  assert (Ed : fold_left parse_line
                 (when (truthy_opt (doi c))
                    [field_line (lit "doi") (opt_text (doi c))])
                 (mkFields t a y J None None)
               = mkFields t a y J
                   (if truthy_opt (doi c) then doi c else None) None).
  { destruct (doi c) as [d|]; [|reflexivity]. cbn [truthy_opt opt_text] in *.
    destruct (truthy_str d); [|reflexivity]. cbn [when fold_left].
    cbv [lit list_ascii_of_string].
    rewrite parse_field_line by reflexivity.
    rewrite unwrap_braced by exact Hd. reflexivity. }
  rewrite Ed. set (D := if truthy_opt (doi c) then doi c else None).
  assert (Ex : fold_left parse_line
                 (when (truthy_opt (arxiv_id c))
                    [field_line (lit "eprint") (opt_text (arxiv_id c));
                     field_line (lit "archivePrefix") (lit "arXiv")])
                 (mkFields t a y J D None)
               = mkFields t a y J D
                   (if truthy_opt (arxiv_id c) then arxiv_id c else None)).
  { destruct (arxiv_id c) as [x|]; [|reflexivity].
    cbn [truthy_opt opt_text] in *.
    destruct (truthy_str x); [|reflexivity]. cbn [when fold_left].
    cbv [lit list_ascii_of_string].
    rewrite !parse_field_line by reflexivity.
    rewrite unwrap_braced by exact Hx. reflexivity. }
  rewrite Ex.
  set (X := if truthy_opt (arxiv_id c) then arxiv_id c else None).
  assert (Erest : forall f,
            fold_left parse_line
              (when (truthy_opt (publisher_url c))
                 [field_line (lit "url") (opt_text (publisher_url c))])
              (fold_left parse_line
                 (when (truthy_opt (ads_bibcode c))
                    [field_line (lit "adsurl") (adsurl_value c)]) f)
            = f).
  { intros f.
    destruct (truthy_opt (ads_bibcode c)), (truthy_opt (publisher_url c));
      cbn [when fold_left]; cbv [lit list_ascii_of_string];
      rewrite ?parse_field_line by reflexivity; reflexivity. }
  rewrite Erest. reflexivity.
Qed.

Variable r : Citation.
Hypothesis Hr : round_trips r = true.

(** The first three field lines of the text generated from [r]. *)
Lemma parse_head_lines :
  parse_line
    (parse_line
       (parse_line init_fields (field_line (lit "title") (title r)))
       (field_line (lit "author") (join (lit " and ") (authors r))))
    (field_line (lit "year") (str_of_int (year r)))
  = mkFields (title r) (authors r) (year r) None None None.
Proof.
  destruct (round_trips_parts r Hr)
    as (Hv & Hb & Hc & Hk & Ht & Htw & Ha & Haw & Htail).
  destruct (forallb_author_ok _ Ha) as (Han & Has & Hac).
  unfold valid_record in Hv. rewrite !andb_true_iff in Hv.
  destruct Hv as [[[Vk Vt] Va] Vy].
  cbv [lit list_ascii_of_string].
  rewrite !parse_field_line by reflexivity.
  rewrite !unwrap_braced; auto using str_of_int_bare.
  pose proof (assign_three (title r) (join (lit " and ") (authors r))
                (year r)) as E.
  cbv [lit list_ascii_of_string] in E. rewrite E.
  change [" "%char; "a"%char; "n"%char; "d"%char; " "%char]
    with (lit " and ").
  destruct (authors r) as [|a0 al]; [discriminate Va|].
  rewrite split_join_authors, map_strip_clean; auto.
Qed.

(** The parser on the text generated from [r], with the optional fields. *)
Lemma parse_generated_fields :
  ends_clear is_wrapper (opt_text (journal r)) = true ->
  ends_clear is_wrapper (opt_text (doi r)) = true ->
  ends_clear is_wrapper (opt_text (arxiv_id r)) = true ->
  create_citation_from_bibtex (_generate_basic_bibtex r)
  = Some (new_citation (citekey r) (title r) (authors r) (year r)
            (if truthy_opt (journal r) then journal r else None)
            (if truthy_opt (doi r) then doi r else None)
            (if truthy_opt (arxiv_id r) then arxiv_id r else None)
            (_generate_basic_bibtex r)).
Proof.
  intros Hj Hd Hx.
  destruct (round_trips_parts r Hr)
    as (Hv & Hb & Hc & Hk & Ht & Htw & Ha & Haw & Htail).
  destruct (forallb_author_ok _ Ha) as (Han & Has & Hac).
  unfold valid_record in Hv. rewrite !andb_true_iff in Hv.
  destruct Hv as [[[Vk Vt] Va] Vy].
  unfold create_citation_from_bibtex. rewrite (generated_strip r).
  rewrite generated_lines.
  assert (Hlines :
    forallb no_newline
      (("@"%char
        :: (if truthy_opt (journal r) then lit "article" else lit "misc")
           ++ "{"%char :: citekey r ++ [","%char])
       :: field_line (lit "title") (title r)
       :: field_line (lit "author") (join (lit " and ") (authors r))
       :: field_line (lit "year") (str_of_int (year r))
       :: tail_lines r) = true).
  { cbn [forallb]. rewrite (header_no_newline r Hr), Htail.
    rewrite !no_newline_field_line; auto using str_of_int_no_newline.
    apply no_newline_join; auto. }
  rewrite split_join_char by exact Hlines.
  rewrite (header_matches r Hr).
  cbn [fold_left]. rewrite parse_head_lines.
  rewrite (parse_tail_lines r _ _ _ Hj Hd Hx).
  cbn [f_title f_authors f_year f_journal f_doi f_arxiv_id].
  unfold py_all. cbn [forallb]. rewrite Vk, Vt, Va, Vy. reflexivity.
Qed.

End OptionalFields.

(** X13.  For a record that round-trips and whose journal, DOI and arXiv
    identifier neither begin nor end with a brace or a double quote,
    parsing the generated text gives back each of the three when it is set
    (non-empty) and [None] when it is not; the ADS bibcode, the ADS URL and
    the publisher URL are not read back, although generation writes the
    first two as [adsurl] and the last as [url].  So the completeness score
    of the parsed record is that of the original, plus 2 for the cached
    text, minus 3 when the original had an ADS bibcode. *)
Theorem generate_then_parse_optional_fields (r : Citation) :
  round_trips r = true ->
  ends_clear is_wrapper (opt_text (journal r)) = true ->
  ends_clear is_wrapper (opt_text (doi r)) = true ->
  ends_clear is_wrapper (opt_text (arxiv_id r)) = true ->
  exists c,
    create_citation_from_bibtex (_generate_basic_bibtex r) = Some c
    /\ journal c = (if truthy_opt (journal r) then journal r else None)
    /\ doi c = (if truthy_opt (doi r) then doi r else None)
    /\ arxiv_id c = (if truthy_opt (arxiv_id r) then arxiv_id r else None)
    /\ ads_bibcode c = None /\ ads_url c = None /\ publisher_url c = None
    /\ _citation_completeness c
       = _citation_completeness r + 2
         - (if truthy_opt (ads_bibcode r) then 3 else 0).
Proof.
  intros Hr Hj Hd Hx. eexists. split.
  { apply (parse_generated_fields r Hr Hj Hd Hx). }
  repeat (split; [reflexivity|]).
  destruct (round_trips_parts r Hr) as (_ & Hb & _).
  unfold _citation_completeness, new_citation.
  cbn [ads_bibcode doi arxiv_id journal bibtex_entry]. rewrite Hb.
  assert (Hg : truthy_str (_generate_basic_bibtex r) = true) by reflexivity.
  rewrite Hg. cbn [truthy_opt truthy_str].
  destruct (journal r) as [j|], (doi r) as [d|], (arxiv_id r) as [x|];
    cbn [truthy_opt];
    repeat match goal with
           | |- context [truthy_str ?s] =>
               is_var s; destruct s; cbn [truthy_str truthy_opt]
           end;
    destruct (truthy_opt (ads_bibcode r)); lia.
Qed.

Lemma generate_then_parse_optional_fields_witness :
  exists c,
    create_citation_from_bibtex (_generate_basic_bibtex tully1977) = Some c
    /\ journal c = Some (lit "Astronomy and Astrophysics")
    /\ doi c = None
    /\ arxiv_id c = None
    /\ ads_bibcode c = None /\ ads_url c = None /\ publisher_url c = None
    /\ _citation_completeness c = 3.
Proof.
  apply (generate_then_parse_optional_fields tully1977);
    vm_compute; reflexivity.
Defined.

Section ParsedShape.

Lemma takeWhile_dropWhile {A} (p : A -> bool) (l : list A) :
  l = takeWhile p l ++ dropWhile p l /\ forallb p (takeWhile p l) = true.
Proof.
  induction l as [|x l [IH1 IH2]]; [split; reflexivity|]. simpl.
  destruct (p x) eqn:E; simpl; [|split; reflexivity].
  rewrite E, IH2. split; [f_equal; exact IH1 | reflexivity].
Qed.

(** What a line that matches the header pattern looks like. *)
Lemma match_header_shape (line ck : str) :
  match_header line = Some ck ->
  ck <> [] /\ forallb not_comma ck = true
  /\ exists kind rest,
       line = "@"%char :: kind ++ "{"%char :: ck ++ ","%char :: rest
       /\ kind <> [] /\ forallb is_word kind = true.
Proof.
  unfold match_header. destruct line as [|c rest]; [discriminate|].
  destruct (Ascii.eqb c "@") eqn:Ec; [|discriminate].
  apply Ascii.eqb_eq in Ec. subst c.
  destruct (takeWhile_dropWhile is_word rest) as [E1 W1].
  destruct (takeWhile is_word rest) as [|k0 kind] eqn:Ek; [discriminate|].
  destruct (dropWhile is_word rest) as [|b rest2] eqn:Ed; [discriminate|].
  destruct (Ascii.eqb b "{") eqn:Eb; [|discriminate].
  apply Ascii.eqb_eq in Eb. subst b.
  destruct (takeWhile_dropWhile not_comma rest2) as [E2 W2].
  destruct (takeWhile not_comma rest2) as [|c0 key] eqn:Ec; [discriminate|].
  destruct (dropWhile not_comma rest2) as [|d rest3] eqn:Er; [discriminate|].
  destruct (Ascii.eqb d ",") eqn:Edd; [|discriminate].
  apply Ascii.eqb_eq in Edd. subst d.
  intros H. injection H as <-.
  split; [discriminate|]. split; [exact W2|].
  exists (k0 :: kind), rest3. split; [|split; [discriminate | exact W1]].
  rewrite E1 at 1. rewrite E2 at 1. reflexivity.
Qed.

Lemma dropWhile_snoc {A} (p : A -> bool) (l : list A) (x : A) :
  p x = false -> dropWhile p (l ++ [x]) = dropWhile p l ++ [x].
Proof.
  intros H. induction l as [|y l IH]; simpl; [rewrite H; reflexivity|].
  destruct (p y); [exact IH | reflexivity].
Qed.

Lemma dropWhile_first {A} (p : A -> bool) (l : list A) (x : A) (r : list A) :
  dropWhile p l = x :: r -> p x = false.
Proof.
  induction l as [|y l IH]; simpl; [discriminate|].
  destruct (p y) eqn:E; [exact IH|]. intros H. injection H as <- _. exact E.
Qed.

(** What a strip leaves neither begins nor ends with a stripped
    character. *)
Lemma strip_by_clear (p : ascii -> bool) (s : str) :
  ends_clear p (strip_by p s) = true.
Proof.
  unfold strip_by, lstrip_by, rstrip_by.
  destruct (dropWhile p s) as [|x t] eqn:E; [reflexivity|].
  pose proof (dropWhile_first p s x t E) as Hx.
  cbn [rev]. rewrite dropWhile_snoc by exact Hx.
  rewrite rev_app_distr. cbn [rev app].
  unfold ends_clear. rewrite Hx. cbn [negb andb].
  apply negb_true_iff.
  destruct (dropWhile p (rev t)) as [|y u] eqn:Eu; [exact Hx|].
  cbn [rev]. change (x :: rev u ++ [y]) with ((x :: rev u) ++ [y]).
  rewrite last_last. apply (dropWhile_first p (rev t) y u Eu).
Qed.

(** The authors that the loop of the parser holds are stripped. *)
Lemma parse_line_authors (f : Fields) (line : str) :
  forallb (ends_clear isspace) (f_authors f) = true ->
  forallb (ends_clear isspace) (f_authors (parse_line f line)) = true.
Proof.
  intros H. unfold parse_line.
  destruct (contains "=" _); [|exact H].
  destruct (split_once "=" _) as [key value]. unfold assign.
  repeat match goal with
         | |- context [if str_eqb ?a ?b then _ else _] =>
             destruct (str_eqb a b)
         end; try exact H.
  - cbn [f_authors]. apply forallb_forall. intros a Ha.
    apply in_map_iff in Ha as (a0 & <- & _). apply strip_by_clear.
  - destruct (py_int _); exact H.
Qed.

Lemma fold_authors (lines : list str) (f : Fields) :
  forallb (ends_clear isspace) (f_authors f) = true ->
  forallb (ends_clear isspace) (f_authors (fold_left parse_line lines f))
  = true.
Proof.
  revert f. induction lines as [|l lines IH]; intros f H; [exact H|].
  cbn [fold_left]. apply IH. apply parse_line_authors. exact H.
Qed.

End ParsedShape.

(** X14.  Every record that [create_citation_from_bibtex] returns is valid
    (non-empty citekey and title, at least one author, a year that is not
    0); its citekey has no comma and is what stands between the brace and
    the first comma of a first line of the form [@kind{citekey,...]; its
    authors have no white space at either end; it carries no ADS bibcode,
    no URL and no trace of a verification; and its completeness score lies
    between 2 and 6. *)
Theorem parsed_record_shape (entry : str) (c : Citation) :
  create_citation_from_bibtex entry = Some c ->
  valid_record c = true
  /\ forallb not_comma (citekey c) = true
  /\ (exists kind rest,
        hd [] (split [NL] (strip entry))
        = "@"%char :: kind ++ "{"%char :: citekey c ++ ","%char :: rest
        /\ kind <> [] /\ forallb is_word kind = true)
  /\ forallb (ends_clear isspace) (authors c) = true
  /\ ads_bibcode c = None /\ ads_url c = None /\ publisher_url c = None
  /\ last_verified c = None
  /\ http_status_ads c = None /\ http_status_doi c = None
  /\ crossref_match c = false /\ ads_match c = false /\ notes c = []
  /\ 2 <= _citation_completeness c <= 6.
Proof.
  intros H. assert (Hne : entry <> []) by (intros ->; discriminate H).
  unfold create_citation_from_bibtex in H.
  destruct (split [NL] (strip entry)) as [|first rest]; [discriminate|].
  destruct (match_header first) as [ck|] eqn:Eh; [|discriminate].
  destruct (match_header_shape first ck Eh) as (Hck & Hcomma & Hshape).
  set (f := fold_left parse_line rest init_fields) in *.
  destruct (py_all _) eqn:Eall; [|discriminate].
  injection H as <-. unfold new_citation.
  cbn [citekey authors ads_bibcode ads_url publisher_url last_verified
       http_status_ads http_status_doi crossref_match ads_match notes hd].
  split.
  { unfold valid_record. cbn [citekey title authors year].
    unfold py_all in Eall. cbn [forallb] in Eall.
    rewrite andb_true_r in Eall. rewrite !andb_assoc in Eall. exact Eall. }
  split; [exact Hcomma|]. split; [exact Hshape|].
  split; [apply fold_authors; reflexivity|].
  repeat (split; [reflexivity|]).
  unfold _citation_completeness.
  cbn [ads_bibcode doi arxiv_id journal bibtex_entry truthy_opt].
  destruct entry as [|e0 entry]; [contradiction|]. cbn [truthy_str].
  destruct (truthy_opt (f_doi f)), (truthy_opt (f_arxiv_id f)),
           (truthy_opt (f_journal f)); lia.
Qed.

Lemma parsed_record_shape_witness :
  let entry := _generate_basic_bibtex tully1977 in
  exists c,
    create_citation_from_bibtex entry = Some c
    /\ valid_record c = true
    /\ forallb not_comma (citekey c) = true
    /\ 2 <= _citation_completeness c <= 6.
Proof.
  intros entry.
  destruct (create_citation_from_bibtex entry) as [c|] eqn:E;
    [|discriminate E].
  exists c. split; [reflexivity|].
  destruct (parsed_record_shape entry c E) as (Hv & Hc & _ & _ & _ & _ & _
    & _ & _ & _ & _ & _ & _ & Hs).
  auto.
Defined.

(* ================================================================== *)
(** * Further properties: bibliography files *)
(* ================================================================== *)

Section SplitterFacts.

(** Lines that open no entry, met outside an entry, are dropped. *)
Lemma split_fold_outside (ls : list str) (st : SplitState) :
  in_entry st = false ->
  forallb (fun l => negb (opens l)) ls = true ->
  fold_left split_step ls st = st.
Proof.
  intros Hin. induction ls as [|l ls IH]; [reflexivity|].
  cbn [forallb fold_left]. rewrite andb_true_iff, negb_true_iff.
  intros [Hl Hls]. unfold split_step at 2. fold (opens l).
  rewrite Hl, Hin. apply IH. exact Hls.
Qed.

(** Lines that open no entry, met inside an entry, are kept up to the
    first that closes. *)
Lemma split_fold_inside (ls : list str) (st : SplitState) :
  in_entry st = true ->
  forallb (fun l => negb (opens l)) ls = true ->
  fold_left split_step ls st
  = mkSplit (entries st) (current_entry st ++ until_close ls)
            (negb (existsb closes ls)).
Proof.
  revert st. induction ls as [|l ls IH]; intros st Hin.
  - intros _. cbn [fold_left until_close existsb negb].
    rewrite app_nil_r, <- Hin. destruct st; reflexivity.
  - cbn [forallb fold_left until_close existsb].
    rewrite andb_true_iff, negb_true_iff. intros [Hl Hls].
    unfold split_step at 2. fold (opens l) (closes l). rewrite Hl, Hin.
    destruct (closes l) eqn:Ec.
    + rewrite split_fold_outside by auto. reflexivity.
    + rewrite IH by auto. cbn [entries current_entry orb].
      rewrite <- app_assoc. reflexivity.
Qed.

(** One entry: its first line and the lines up to the next first line. *)
Lemma split_fold_chunk (h : str) (ls : list str) (st : SplitState) :
  opens h = true ->
  forallb (fun l => negb (opens l)) ls = true ->
  fold_left split_step (h :: ls) st
  = mkSplit (flush_entry st) (h :: until_close ls)
            (negb (existsb closes ls)).
Proof.
  intros Hh Hls. cbn [fold_left]. unfold split_step at 2. fold (opens h).
  rewrite Hh. rewrite split_fold_inside by auto. reflexivity.
Qed.

Lemma split_fold_chunks (chunks : list (str * list str)) (st : SplitState) :
  forallb (fun ch => opens (fst ch)
                     && forallb (fun l => negb (opens l)) (snd ch))%bool
          chunks = true ->
  flush_entry
    (fold_left split_step
       (List.concat (map (fun ch => fst ch :: snd ch) chunks)) st)
  = flush_entry st
    ++ map (fun ch => join [NL] (fst ch :: until_close (snd ch))) chunks.
Proof.
  revert st. induction chunks as [|[h ls] chunks IH]; intros st.
  - intros _. cbn [map List.concat fold_left]. rewrite app_nil_r. reflexivity.
  - cbn [forallb map List.concat fst snd].
    rewrite !andb_true_iff. intros [[Hh Hls] Hrest].
    rewrite fold_left_app.
    rewrite split_fold_chunk by auto. rewrite IH by exact Hrest.
    unfold flush_entry at 1. cbn [current_entry entries truthy_list].
    rewrite <- app_assoc. reflexivity.
Qed.

End SplitterFacts.

(** X15.  What [_load_existing_bibliography] takes as the entries of a
    file.  Cut the lines of the file at the lines that, once stripped,
    begin with [@]: some lines before the first such line, then chunks
    made of such a line and the lines up to the next.  The lines before
    the first chunk are dropped; each chunk gives one entry, in order, made
    of its first line and the lines after it up to the first that strips
    to a closing brace, that line included; the rest of the chunk is
    dropped. *)
Theorem split_entries_chunks
    (pre : list str) (chunks : list (str * list str)) :
  let file := pre ++ List.concat (map (fun ch => fst ch :: snd ch) chunks) in
  file <> [] ->
  forallb no_newline file = true ->
  forallb (fun l => negb (opens l)) pre = true ->
  forallb (fun ch => opens (fst ch)
                     && forallb (fun l => negb (opens l)) (snd ch))%bool
          chunks = true ->
  split_entries (join [NL] file)
  = map (fun ch => join [NL] (fst ch :: until_close (snd ch))) chunks.
Proof.
  intros file Hne Hnl Hpre Hchunks. unfold split_entries.
  destruct file as [|x lines] eqn:Ef; [contradiction|].
  rewrite split_join_char by exact Hnl. rewrite <- Ef. unfold file.
  rewrite fold_left_app.
  rewrite (split_fold_outside pre) by auto.
  rewrite split_fold_chunks by exact Hchunks. reflexivity.
Qed.

Lemma split_entries_chunks_witness :
  split_entries
    (join [NL] [lit "% my library"; lit "@misc{a,"; lit "  title={T},";
                lit "}"; lit "stray"; lit " @book{b,"; lit "  year={1}"])
  = [join [NL] [lit "@misc{a,"; lit "  title={T},"; lit "}"];
     join [NL] [lit " @book{b,"; lit "  year={1}"]].
Proof.
  apply (split_entries_chunks [lit "% my library"]
           [(lit "@misc{a,", [lit "  title={T},"; lit "}"; lit "stray"]);
            (lit " @book{b,", [lit "  year={1}"])]);
    [discriminate | reflexivity | reflexivity | reflexivity].
Defined.

Section SortingFacts.

Context {A : Type} (key : A -> Z * str).

Lemma str_leb_total (a b : str) : str_leb a b = false -> str_leb b a = true.
Proof.
  revert b. induction a as [|x a IH]; intros [|y b]; simpl; try discriminate;
    try reflexivity.
  destruct (N.ltb (code x) (code y)) eqn:E1; [discriminate|].
  destruct (N.ltb (code y) (code x)) eqn:E2; [reflexivity|]. apply IH.
Qed.

Lemma tuple_leb_total (a b : Z * str) :
  tuple_leb a b = false -> tuple_leb b a = true.
Proof.
  unfold tuple_leb.
  destruct (fst a <? fst b) eqn:E1; [discriminate|].
  destruct (fst b <? fst a) eqn:E2; [reflexivity|]. apply str_leb_total.
Qed.

Lemma insert_sorted_perm (x : A) (l : list A) :
  Permutation (insert_sorted key x l) (x :: l).
Proof.
  induction l as [|y l IH]; simpl; [reflexivity|].
  destruct (tuple_leb (key x) (key y)); [reflexivity|].
  rewrite IH. apply perm_swap.
Qed.

Lemma sorted_perm (l : list A) : Permutation (sorted key l) l.
Proof.
  induction l as [|x l IH]; simpl; [reflexivity|].
  rewrite insert_sorted_perm. constructor. exact IH.
Qed.

Lemma insert_sorted_ordered (x : A) (l : list A) :
  ordered key l = true -> ordered key (insert_sorted key x l) = true.
Proof.
  induction l as [|y l IH]; [reflexivity|]. intros Ho.
  cbn [insert_sorted]. destruct (tuple_leb (key x) (key y)) eqn:E.
  - cbn [ordered]. rewrite E. exact Ho.
  - apply tuple_leb_total in E.
    assert (Hl : ordered key l = true).
    { destruct l as [|z l]; [reflexivity|]. cbn [ordered] in Ho.
      apply andb_true_iff in Ho as [_ Ho]. exact Ho. }
    specialize (IH Hl). destruct l as [|z l].
    + cbn [insert_sorted ordered]. rewrite E. reflexivity.
    + cbn [insert_sorted] in *.
      destruct (tuple_leb (key x) (key z)) eqn:Ez.
      * cbn [ordered] in *. rewrite E, Ez. cbn [andb].
        apply andb_true_iff in Ho as [_ Ho]. exact Ho.
      * cbn [ordered] in Ho. apply andb_true_iff in Ho as [Hyz _].
        change (ordered key (y :: z :: insert_sorted key x l))
          with (tuple_leb (key y) (key z)
                && ordered key (z :: insert_sorted key x l))%bool.
        rewrite Hyz. exact IH.
Qed.

Lemma sorted_ordered (l : list A) : ordered key (sorted key l) = true.
Proof.
  induction l as [|x l IH]; [reflexivity|]. simpl.
  apply insert_sorted_ordered. exact IH.
Qed.

(** Sorting a list that is in order leaves it as it is. *)
Lemma sorted_fixed (l : list A) : ordered key l = true -> sorted key l = l.
Proof.
  induction l as [|x l IH]; [reflexivity|]. intros Ho.
  assert (Hl : ordered key l = true).
  { destruct l as [|z l]; [reflexivity|]. cbn [ordered] in Ho.
    apply andb_true_iff in Ho as [_ Ho]. exact Ho. }
  change (sorted key (x :: l)) with (insert_sorted key x (sorted key l)).
  rewrite (IH Hl). destruct l as [|y l]; [reflexivity|].
  cbn [ordered] in Ho. apply andb_true_iff in Ho as [Hxy _].
  cbn [insert_sorted]. rewrite Hxy. reflexivity.
Qed.

End SortingFacts.

Lemma ordered_same_keys {A B} (ka : A -> Z * str) (kb : B -> Z * str)
    (la : list A) (lb : list B) :
  map ka la = map kb lb -> ordered ka la = ordered kb lb.
Proof.
  revert lb. induction la as [|x la IH]; intros [|y lb] H;
    try discriminate; [reflexivity|].
  cbn [map] in H. injection H as Hxy H.
  destruct la as [|x' la], lb as [|y' lb]; try discriminate; [reflexivity|].
  specialize (IH (y' :: lb) H). cbn [map] in H. injection H as Hxy' _.
  change (ordered ka (x :: x' :: la))
    with (tuple_leb (ka x) (ka x') && ordered ka (x' :: la))%bool.
  change (ordered kb (y :: y' :: lb))
    with (tuple_leb (kb y) (kb y') && ordered kb (y' :: lb))%bool.
  rewrite Hxy, Hxy', IH. reflexivity.
Qed.

Section GeneratedFile.

Lemma join_app (sep : str) (l l' : list str) :
  l <> [] -> l' <> [] ->
  join sep (l ++ l') = join sep l ++ sep ++ join sep l'.
Proof.
  intros Hl Hl'. induction l as [|x l IH]; [contradiction|].
  destruct l as [|y l].
  - destruct l' as [|z l']; [contradiction|]. reflexivity.
  - change (join sep ((x :: y :: l) ++ l'))
      with (x ++ sep ++ join sep ((y :: l) ++ l')).
    rewrite IH by discriminate.
    change (join sep (x :: y :: l)) with (x ++ sep ++ join sep (y :: l)).
    rewrite <- !app_assoc. reflexivity.
Qed.

Lemma split_join_lines (lines : list str) :
  lines <> [] -> forallb no_newline lines = true ->
  split [NL] (join [NL] lines) = lines.
Proof.
  destruct lines as [|x lines]; [contradiction|]. intros _ H.
  apply split_join_char. exact H.
Qed.

(** The text of a file of entries, each followed by a blank line, is its
    lines joined. *)
Lemma file_text (blocks : list (list str)) :
  Forall (fun ls => ls <> []) blocks ->
  List.concat (map (fun ls => join [NL] ls ++ [NL; NL]) blocks)
  = join [NL] (List.concat (map (fun ls => ls ++ [[]]) blocks) ++ [[]]).
Proof.
  induction 1 as [|ls blocks Hls _ IH]; [reflexivity|].
  cbn [map List.concat]. rewrite IH.
  assert (Hstep : forall rest, rest <> [] ->
            (join [NL] ls ++ [NL; NL]) ++ join [NL] rest
            = join [NL] ((ls ++ [[]]) ++ rest)).
  { intros rest Hrest.
    rewrite (join_app [NL] (ls ++ [[]]) rest);
      [| destruct ls; [contradiction | discriminate] | exact Hrest].
    rewrite (join_app [NL] ls [[]]) by (auto; discriminate).
    cbn [join]. rewrite <- !app_assoc. reflexivity. }
  rewrite <- (app_assoc (ls ++ [[]])). apply Hstep.
  intros H. apply app_eq_nil in H as [_ H]. discriminate H.
Qed.

Lemma strip_field_line (n0 : ascii) (name value : str) :
  isspace n0 = false ->
  exists rest, strip (field_line (n0 :: name) value) = n0 :: rest.
Proof.
  intros Hn.
  set (X := n0 :: name ++ "="%char :: "{"%char :: value).
  assert (E : field_line (n0 :: name) value
              = " "%char :: " "%char :: ((X ++ ["}"%char]) ++ [","%char])).
  { unfold field_line, lit, X. simpl. rewrite <- !app_assoc. reflexivity. }
  rewrite E. unfold strip, strip_by, lstrip_by.
  assert (D : dropWhile isspace
                (" "%char :: " "%char :: ((X ++ ["}"%char]) ++ [","%char]))
              = (X ++ ["}"%char]) ++ [","%char]).
  { unfold X. simpl. rewrite Hn. reflexivity. }
  rewrite D. rewrite (rstrip_by_last isspace _ ","%char eq_refl).
  unfold X. eexists. reflexivity.
Qed.

(** A field line neither opens nor closes an entry. *)
Lemma field_line_inner (n0 : ascii) (name value : str) :
  isspace n0 = false -> Ascii.eqb "@" n0 = false ->
  Ascii.eqb n0 "}" = false ->
  (negb (opens (field_line (n0 :: name) value))
   && negb (closes (field_line (n0 :: name) value)))%bool = true.
Proof.
  intros Hs Ha Hc. unfold opens, closes.
  destruct (strip_field_line n0 name value Hs) as [rest ->].
  cbv [lit list_ascii_of_string]. cbn [starts_with str_eqb].
  rewrite Ha, Hc. reflexivity.
Qed.

Lemma until_close_app (body : list str) (c : str) (junk : list str) :
  forallb (fun l => negb (closes l)) body = true -> closes c = true ->
  until_close (body ++ c :: junk) = body ++ [c].
Proof.
  intros Hb Hc. induction body as [|l body IH]; cbn [app until_close].
  - rewrite Hc. reflexivity.
  - cbn [forallb] in Hb. apply andb_true_iff in Hb as [Hl Hb].
    apply negb_true_iff in Hl. rewrite Hl, IH by exact Hb. reflexivity.
Qed.

(** The lines of a generated entry after the first: field lines, then the
    closing brace. *)
Lemma entry_body (c : Citation) :
  exists body,
    tl (entry_lines c) = body ++ [lit "}"]
    /\ forallb (fun l => negb (opens l) && negb (closes l))%bool body = true.
Proof.
  exists (field_line (lit "title") (title c)
          :: field_line (lit "author") (join (lit " and ") (authors c))
          :: field_line (lit "year") (str_of_int (year c))
          :: when (truthy_opt (journal c))
               [field_line (lit "journal") (opt_text (journal c))]
          ++ when (truthy_opt (doi c))
               [field_line (lit "doi") (opt_text (doi c))]
          ++ when (truthy_opt (arxiv_id c))
               [field_line (lit "eprint") (opt_text (arxiv_id c));
                field_line (lit "archivePrefix") (lit "arXiv")]
          ++ when (truthy_opt (ads_bibcode c))
               [field_line (lit "adsurl") (adsurl_value c)]
          ++ when (truthy_opt (publisher_url c))
               [field_line (lit "url") (opt_text (publisher_url c))]).
  split.
  - unfold entry_lines, tail_lines. cbn [tl app].
    rewrite <- !app_assoc. reflexivity.
  - cbn [forallb]. rewrite !forallb_app.
    destruct (truthy_opt (journal c)), (truthy_opt (doi c)),
             (truthy_opt (arxiv_id c)), (truthy_opt (ads_bibcode c)),
             (truthy_opt (publisher_url c));
      cbn [when forallb]; cbv [lit list_ascii_of_string];
      rewrite !field_line_inner by reflexivity; reflexivity.
Qed.

(** A generated entry, followed by a blank line, as a chunk of the file. *)
Lemma entry_chunk (c : Citation) :
  opens (hd [] (entry_lines c)) = true
  /\ forallb (fun l => negb (opens l)) (tl (entry_lines c) ++ [[]]) = true
  /\ existsb closes (tl (entry_lines c) ++ [[]]) = true
  /\ hd [] (entry_lines c) :: until_close (tl (entry_lines c) ++ [[]])
     = entry_lines c.
Proof.
  destruct (entry_body c) as (body & Eb & Hb).
  assert (Hopen : forallb (fun l => negb (opens l)) body = true
                  /\ forallb (fun l => negb (closes l)) body = true).
  { clear Eb. induction body as [|l body IH]; [split; reflexivity|].
    cbn [forallb] in *. rewrite !andb_true_iff in Hb.
    destruct Hb as [[H1 H2] Hb]. destruct (IH Hb) as [-> ->].
    rewrite H1, H2. split; reflexivity. }
  destruct Hopen as [Ho Hc]. rewrite Eb. split; [|split; [|split]].
  - unfold entry_lines, opens, strip. cbn [hd].
    replace ("{"%char :: citekey c ++ [","%char])
      with (("{"%char :: citekey c) ++ [","%char]) by reflexivity.
    rewrite app_assoc.
    rewrite (strip_by_bounded isspace "@" "," _ eq_refl eq_refl).
    reflexivity.
  - rewrite <- app_assoc, forallb_app, Ho. reflexivity.
  - rewrite !existsb_app. apply orb_true_iff. left.
    apply orb_true_iff. right. reflexivity.
  - rewrite <- app_assoc. cbn [app].
    rewrite until_close_app by (auto; reflexivity).
    rewrite <- Eb. reflexivity.
Qed.

Lemma split_fold_closed (chunks : list (str * list str)) (st : SplitState) :
  in_entry st = false ->
  forallb (fun ch => opens (fst ch)
                     && forallb (fun l => negb (opens l)) (snd ch)
                     && existsb closes (snd ch))%bool
          chunks = true ->
  in_entry
    (fold_left split_step
       (List.concat (map (fun ch => fst ch :: snd ch) chunks)) st) = false.
Proof.
  revert st. induction chunks as [|[h ls] chunks IH]; intros st Hin.
  - intros _. exact Hin.
  - cbn [forallb map List.concat fst snd].
    rewrite !andb_true_iff. intros [[[Hh Hls] Hc] Hrest].
    rewrite fold_left_app, split_fold_chunk by auto.
    apply IH; [|exact Hrest]. cbn [in_entry]. rewrite Hc. reflexivity.
Qed.

(** The entries of the file written for the records [rs], none of which
    has a cached text. *)
Lemma split_generated (rs : list Citation) :
  Forall (fun r => forallb no_newline (entry_lines r) = true) rs ->
  split_entries
    (List.concat
       (map (fun r => _generate_basic_bibtex r ++ [NL; NL]) rs))
  = map _generate_basic_bibtex rs.
Proof.
  intros Hnl.
  set (chunks := map (fun r => (hd [] (entry_lines r),
                                tl (entry_lines r) ++ [[]])) rs).
  assert (Elines :
    List.concat (map (fun ls => ls ++ [[]]) (map entry_lines rs))
    = List.concat (map (fun ch => fst ch :: snd ch) chunks)).
  { unfold chunks. rewrite !map_map. f_equal. }
  assert (Etext :
    List.concat (map (fun r => _generate_basic_bibtex r ++ [NL; NL]) rs)
    = join [NL]
        (List.concat (map (fun ch => fst ch :: snd ch) chunks) ++ [[]])).
  { rewrite <- Elines, <- file_text.
    - rewrite map_map. reflexivity.
    - apply Forall_forall. intros ls Hls.
      apply in_map_iff in Hls as (r & <- & _). discriminate. }
  rewrite Etext. unfold split_entries.
  assert (Hall : forallb no_newline
                   (List.concat (map (fun ch => fst ch :: snd ch) chunks)
                    ++ [[]]) = true).
  { rewrite <- Elines. rewrite forallb_app. cbn [forallb].
    rewrite andb_true_r. clear -Hnl.
    induction Hnl as [|r rs Hr _ IH]; [reflexivity|].
    cbn [map List.concat]. rewrite !forallb_app.
    apply andb_true_iff. split; [|exact IH].
    apply andb_true_iff. split; [exact Hr | reflexivity]. }
  assert (Hchunks :
    forallb (fun ch => opens (fst ch)
                       && forallb (fun l => negb (opens l)) (snd ch)
                       && existsb closes (snd ch))%bool chunks = true).
  { unfold chunks. apply forallb_forall. intros ch Hch.
    apply in_map_iff in Hch as (r & <- & _). cbn [fst snd].
    destruct (entry_chunk r) as (-> & -> & -> & _). reflexivity. }
  rewrite split_join_lines;
    [| intros H; apply app_eq_nil in H as [_ H]; discriminate H | exact Hall].
  rewrite fold_left_app.
  rewrite (split_fold_outside [[]]);
    [| apply split_fold_closed; [reflexivity | exact Hchunks] | reflexivity].
  rewrite split_fold_chunks.
  - unfold flush_entry at 1. cbn [current_entry entries truthy_list app].
    unfold chunks. rewrite map_map. apply map_ext. intros r. cbn [fst snd].
    destruct (entry_chunk r) as (_ & _ & _ & E).
    exact (f_equal (join [NL]) E).
  - apply forallb_forall. intros ch Hch.
    pose proof (proj1 (forallb_forall _ _) Hchunks ch Hch) as H.
    rewrite !andb_true_iff in H. destruct H as [[-> ->] _]. reflexivity.
Qed.

Lemma entry_lines_no_newline (r : Citation) :
  round_trips r = true -> forallb no_newline (entry_lines r) = true.
Proof.
  intros Hr.
  destruct (round_trips_parts r Hr)
    as (Hv & Hb & Hc & Hk & Ht & Htw & Ha & Haw & Htail).
  destruct (forallb_author_ok _ Ha) as (Han & Has & Hac).
  unfold entry_lines. cbn [forallb].
  rewrite (header_no_newline r Hr), Htail.
  rewrite !no_newline_field_line; auto using str_of_int_no_newline.
  apply no_newline_join; auto.
Qed.

End GeneratedFile.

Section TextFiles.

(** A text without carriage return is read back as it was written, on
    either platform. *)
Lemma read_write_text (linesep t : str) :
  linesep = [NL] \/ linesep = [CR; NL] ->
  no_return t = true ->
  read_text (write_text linesep t) = t.
Proof.
  intros Hsep. unfold no_return. rewrite negb_true_iff.
  induction t as [|c t IH]; [reflexivity|].
  cbn [contains existsb]. fold (contains CR t).
  rewrite orb_false_iff. intros [Hc Ht]. specialize (IH Ht).
  cbn [write_text]. destruct (Ascii.eqb c NL) eqn:En.
  - apply Ascii.eqb_eq in En. subst c.
    destruct Hsep as [->| ->]; cbn [app read_text];
      change (Ascii.eqb NL CR) with false;
      change (Ascii.eqb CR CR) with true;
      change (Ascii.eqb NL NL) with true; cbv iota; rewrite IH; reflexivity.
  - cbn [read_text]. rewrite Ascii.eqb_sym, Hc, IH. reflexivity.
Qed.

Lemma no_return_app (a b : str) :
  no_return (a ++ b) = (no_return a && no_return b)%bool.
Proof. unfold no_return. rewrite contains_app, negb_orb. reflexivity. Qed.

Lemma no_return_join (l : list str) :
  forallb no_return l = true -> no_return (join [NL] l) = true.
Proof.
  induction l as [|x l IH]; [reflexivity|].
  cbn [forallb]. rewrite andb_true_iff. intros [Hx Hl].
  destruct l as [|y l]; [exact Hx|].
  change (join [NL] (x :: y :: l)) with (x ++ [NL] ++ join [NL] (y :: l)).
  rewrite !no_return_app, Hx, IH; auto.
Qed.

(** The text written for records whose generated lines hold no carriage
    return holds none. *)
Lemma generated_no_return (rs : list Citation) :
  Forall (fun r => forallb no_return (entry_lines r) = true) rs ->
  no_return
    (List.concat (map (fun r => _generate_basic_bibtex r ++ [NL; NL]) rs))
  = true.
Proof.
  induction 1 as [|r rs Hr _ IH]; [reflexivity|].
  cbn [map List.concat]. rewrite !no_return_app, IH.
  rewrite generated_lines. fold (entry_lines r).
  rewrite (no_return_join _ Hr). reflexivity.
Qed.

(** The text that [generate_bibtex] writes for records without cached
    text. *)
Lemma generate_bibtex_text (self : CitationManager) :
  (forall c, In c (map snd (citations self)) -> bibtex_entry c = []) ->
  generate_bibtex self
  = List.concat
      (map (fun r => _generate_basic_bibtex r ++ [NL; NL])
         (sorted (fun x => (year x, citekey x)) (map snd (citations self)))).
Proof.
  intros H. unfold generate_bibtex. f_equal. apply map_ext_in.
  intros r Hr. unfold bibtex_block. rewrite H; [reflexivity|].
  apply (Permutation_in r
           (sorted_perm (fun x => (year x, citekey x))
              (map snd (citations self)))).
  exact Hr.
Qed.

End TextFiles.

(** X16.  The file that [generate_bibtex] writes, read back in text mode,
    is cut by the loader into exactly the entries written, in the order
    written (by year, then citekey), on a platform whose line separator is
    a line feed or a carriage return and a line feed, when no record of the
    store has a cached text and no line of a generated entry holds a line
    feed or a carriage return. *)
Theorem generated_file_splits_into_its_entries
    (self : CitationManager) (linesep : str) :
  linesep = [NL] \/ linesep = [CR; NL] ->
  (forall c, In c (map snd (citations self)) ->
     bibtex_entry c = []
     /\ forallb no_newline (entry_lines c) = true
     /\ forallb no_return (entry_lines c) = true) ->
  split_entries (read_text (write_text linesep (generate_bibtex self)))
  = map _generate_basic_bibtex
      (sorted (fun x => (year x, citekey x)) (map snd (citations self))).
Proof.
  intros Hsep H.
  rewrite generate_bibtex_text by (intros c Hc; apply (H c Hc)).
  set (rs := sorted (fun x => (year x, citekey x)) (map snd (citations self))).
  assert (Hrs : forall c, In c rs ->
                  bibtex_entry c = []
                  /\ forallb no_newline (entry_lines c) = true
                  /\ forallb no_return (entry_lines c) = true).
  { intros c Hc. apply H.
    apply (Permutation_in c
             (sorted_perm (fun x => (year x, citekey x))
                (map snd (citations self)))).
    exact Hc. }
  rewrite read_write_text; [|exact Hsep|].
  - apply split_generated. apply Forall_forall. intros r Hr.
    apply (Hrs r Hr).
  - apply generated_no_return. apply Forall_forall. intros r Hr.
    apply (Hrs r Hr).
Qed.

Lemma generated_file_splits_into_its_entries_witness :
  let later := mkCitation (lit "haynes2011alfalfa") (lit "The ALFALFA Survey")
                 [lit "M. P. Haynes"] 2011 None None
                 (Some (lit "10.1088/0004-6256/142/5/170")) None None None
                 None None None false false [] [] in
  let self := mkManager [(lit "haynes2011alfalfa", later);
                         (lit "tully1977new", tully1977)] 10 3 in
  split_entries (read_text (write_text [CR; NL] (generate_bibtex self)))
  = [_generate_basic_bibtex tully1977; _generate_basic_bibtex later].
Proof.
  intros later self.
  apply (generated_file_splits_into_its_entries self [CR; NL]).
  - right. reflexivity.
  - intros c [<-|[<-|[]]]; repeat split; reflexivity.
Defined.

Section Reload.

(** One turn of the loop of the loader over the entries. *)
Let load_step (m : CitationManager) (entry : str) : CitationManager :=
  match create_citation_from_bibtex entry with
  | Some citation => add_citation m citation
  | None => m
  end.

(** The records read back from the entries generated for [rs]. *)
Lemma load_fold_parsed (rs : list Citation) (m : CitationManager) :
  Forall (fun r => round_trips r = true) rs ->
  exists cs,
    fold_left load_step (map _generate_basic_bibtex rs) m
    = fold_left ledger_put cs m
    /\ Forall2 (fun r c => citekey c = citekey r /\ title c = title r
                           /\ authors c = authors r /\ year c = year r
                           /\ bibtex_entry c = _generate_basic_bibtex r)
               rs cs.
Proof.
  intros H. revert m. induction H as [|r rs Hr _ IH]; intros m.
  - exists []. split; [reflexivity | constructor].
  - destruct (parse_generated r Hr) as (j & d & x & Hp).
    cbn [map fold_left]. unfold load_step at 2. rewrite Hp.
    destruct (IH (add_citation m
                    (new_citation (citekey r) (title r) (authors r) (year r)
                       j d x (_generate_basic_bibtex r))))
      as (cs & E & Hcs).
    eexists (_ :: cs). split; [exact E|].
    constructor; [|exact Hcs]. repeat split.
Qed.

End Reload.

(** X17.  Writing the bibliography file and loading it, read in text mode,
    into an empty manager, on a platform whose line separator is a line
    feed or a carriage return and a line feed: when every record of the
    store round-trips, no line of a generated entry holds a carriage
    return, and the citekeys of the records are distinct, the manager
    loaded holds one record per record of the store, in the order of the
    file (by year, then citekey), each under its citekey and with the
    citekey, title, authors and year of the original and the generated
    entry as its cached text; and writing the file again from the manager
    loaded gives the same file. *)
Theorem generated_file_reloads
    (self : CitationManager) (timeout retries : Z) (linesep : str) :
  linesep = [NL] \/ linesep = [CR; NL] ->
  (forall c, In c (map snd (citations self)) ->
     round_trips c = true /\ forallb no_return (entry_lines c) = true) ->
  NoDup (map citekey (map snd (citations self))) ->
  let loaded :=
    _load_existing_bibliography (mkManager [] timeout retries)
      (read_text (write_text linesep (generate_bibtex self))) in
  Forall2 (fun r kc => fst kc = citekey r
                       /\ citekey (snd kc) = citekey r
                       /\ title (snd kc) = title r
                       /\ authors (snd kc) = authors r
                       /\ year (snd kc) = year r
                       /\ bibtex_entry (snd kc) = bibtex_block r)
          (sorted (fun x => (year x, citekey x)) (map snd (citations self)))
          (citations loaded)
  /\ generate_bibtex loaded = generate_bibtex self
  /\ write_text linesep (generate_bibtex loaded)
     = write_text linesep (generate_bibtex self).
Proof.
  intros Hsep H Hnd loaded.
  set (key := fun x : Citation => (year x, citekey x)) in *.
  set (rs := sorted key (map snd (citations self))).
  pose proof (sorted_perm key (map snd (citations self))) as Hperm.
  fold rs in Hperm.
  assert (Hrs : Forall (fun r => round_trips r = true) rs).
  { apply Forall_forall. intros r Hr. apply H.
    apply (Permutation_in r Hperm). exact Hr. }
  assert (Hcr : Forall (fun r => forallb no_return (entry_lines r) = true) rs).
  { apply Forall_forall. intros r Hr. apply H.
    apply (Permutation_in r Hperm). exact Hr. }
  assert (Hfile : split_entries
                    (read_text (write_text linesep (generate_bibtex self)))
                  = map _generate_basic_bibtex rs).
  { rewrite generate_bibtex_text.
    2:{ intros c Hc.
        destruct (round_trips_parts c (proj1 (H c Hc))) as (_ & Hb & _).
        exact Hb. }
    fold key. fold rs.
    rewrite read_write_text;
      [| exact Hsep | apply generated_no_return; exact Hcr].
    apply split_generated. apply Forall_forall. intros r Hr.
    apply entry_lines_no_newline.
    apply (proj1 (Forall_forall _ _) Hrs r Hr). }
  destruct (load_fold_parsed rs (mkManager [] timeout retries) Hrs)
    as (cs & Eload & Hcs).
  assert (Ekeys : map citekey cs = map citekey rs).
  { clear -Hcs. induction Hcs as [|r c rs cs (E & _) _ IH]; [reflexivity|].
    cbn [map]. rewrite E, IH. reflexivity. }
  assert (Eorder : map key cs = map key rs).
  { clear -Hcs. induction Hcs as [|r c rs cs (E1 & _ & _ & E2 & _) _ IH];
      [reflexivity|].
    cbn [map]. unfold key at 1 3. rewrite E1, E2, IH. reflexivity. }
  assert (Eloaded : citations loaded = map (fun c => (citekey c, c)) cs).
  { unfold loaded, _load_existing_bibliography. rewrite Hfile.
    etransitivity; [exact (f_equal citations Eload)|].
    rewrite load_fold_append; [reflexivity|].
    cbn [citations map app]. rewrite Ekeys.
    apply (Permutation_NoDup (l := map citekey (map snd (citations self))));
      [|exact Hnd].
    apply Permutation_map. symmetry. exact Hperm. }
  assert (Hsame : generate_bibtex loaded = generate_bibtex self).
  { unfold generate_bibtex at 1. fold key. rewrite Eloaded, map_map.
    cbn [snd]. rewrite map_id.
    rewrite sorted_fixed.
    2:{ rewrite (ordered_same_keys key key cs rs Eorder).
        apply sorted_ordered. }
    unfold generate_bibtex. fold key. fold rs. f_equal.
    clear -Hcs Hrs.
    induction Hcs as [|r c rs cs (_ & _ & _ & _ & E5) _ IH]; [reflexivity|].
    inversion Hrs as [|? ? Hr Hrs']; subst.
    cbn [map]. rewrite (IH Hrs'). f_equal. f_equal.
    unfold bibtex_block. rewrite E5.
    destruct (round_trips_parts r Hr) as (_ & -> & _). reflexivity. }
  split; [|split; [exact Hsame | rewrite Hsame; reflexivity]].
  rewrite Eloaded. clear -Hcs Hrs.
  induction Hcs as [|r c rs cs (E1 & E2 & E3 & E4 & E5) _ IH];
    [constructor|].
  inversion Hrs as [|? ? Hr Hrs']; subst.
  cbn [map]. constructor; [|exact (IH Hrs')]. cbn [fst snd].
  repeat split; auto.
  rewrite E5. unfold bibtex_block.
  destruct (round_trips_parts r Hr) as (_ & -> & _). reflexivity.
Qed.

Lemma generated_file_reloads_witness :
  let self := mkManager [(lit "tully1977new", tully1977)] 10 3 in
  generate_bibtex
    (_load_existing_bibliography (mkManager [] 10 3)
       (read_text (write_text [CR; NL] (generate_bibtex self))))
  = generate_bibtex self.
Proof.
  intros self.
  refine (proj1 (proj2 (generated_file_reloads self 10 3 [CR; NL] _ _ _))).
  - right. reflexivity.
  - intros c [<-|[]]. split; reflexivity.
  - repeat constructor. intros [].
Defined.

Section OrderFacts.

Lemma code_inj (x y : ascii) : code x = code y -> x = y.
Proof.
  unfold code. intros H.
  rewrite <- (ascii_N_embedding x), <- (ascii_N_embedding y), H.
  reflexivity.
Qed.

Lemma str_leb_antisym (a b : str) :
  str_leb a b = true -> str_leb b a = true -> a = b.
Proof.
  revert b. induction a as [|x a IH]; intros [|y b]; simpl;
    try discriminate; [reflexivity|].
  destruct (N.ltb (code x) (code y)) eqn:E1;
    destruct (N.ltb (code y) (code x)) eqn:E2; try discriminate.
  - apply N.ltb_lt in E1, E2. lia.
  - intros H1 H2. apply N.ltb_ge in E1, E2.
    rewrite (code_inj x y) by lia. f_equal. apply IH; assumption.
Qed.

Lemma str_leb_trans (a b c : str) :
  str_leb a b = true -> str_leb b c = true -> str_leb a c = true.
Proof.
  revert b c. induction a as [|x a IH]; intros [|y b] [|z c]; simpl;
    try discriminate; try reflexivity.
  destruct (N.ltb (code x) (code y)) eqn:E1;
    destruct (N.ltb (code y) (code x)) eqn:E2; try discriminate;
    destruct (N.ltb (code y) (code z)) eqn:E3;
    destruct (N.ltb (code z) (code y)) eqn:E4; try discriminate;
    destruct (N.ltb (code x) (code z)) eqn:E5; try reflexivity;
    destruct (N.ltb (code z) (code x)) eqn:E6;
    repeat match goal with
           | H : N.ltb _ _ = true |- _ => apply N.ltb_lt in H
           | H : N.ltb _ _ = false |- _ => apply N.ltb_ge in H
           end;
    try lia.
  apply IH.
Qed.

Lemma tuple_leb_antisym (a b : Z * str) :
  tuple_leb a b = true -> tuple_leb b a = true -> a = b.
Proof.
  destruct a as [a1 a2], b as [b1 b2]. unfold tuple_leb. cbn [fst snd].
  destruct (a1 <? b1) eqn:E1; destruct (b1 <? a1) eqn:E2; try discriminate.
  - lia.
  - intros H1 H2. f_equal; [lia | apply str_leb_antisym; assumption].
Qed.

Lemma tuple_leb_trans (a b c : Z * str) :
  tuple_leb a b = true -> tuple_leb b c = true -> tuple_leb a c = true.
Proof.
  destruct a as [a1 a2], b as [b1 b2], c as [c1 c2].
  unfold tuple_leb. cbn [fst snd].
  destruct (a1 <? b1) eqn:E1; destruct (b1 <? a1) eqn:E2; try discriminate;
    destruct (b1 <? c1) eqn:E3; destruct (c1 <? b1) eqn:E4;
    try discriminate;
    destruct (a1 <? c1) eqn:E5; try reflexivity;
    destruct (c1 <? a1) eqn:E6; try lia.
  apply str_leb_trans.
Qed.

Context {A : Type} (key : A -> Z * str).

Lemma ordered_tail (x : A) (l : list A) :
  ordered key (x :: l) = true -> ordered key l = true.
Proof.
  destruct l as [|y l]; [reflexivity|]. cbn [ordered].
  rewrite andb_true_iff. tauto.
Qed.

(** The first element of a list in order is below every other. *)
Lemma ordered_head (x : A) (l : list A) :
  ordered key (x :: l) = true ->
  forall y, In y l -> tuple_leb (key x) (key y) = true.
Proof.
  revert x. induction l as [|z l IH]; intros x Ho y Hy; [destruct Hy|].
  change (ordered key (x :: z :: l))
    with (tuple_leb (key x) (key z) && ordered key (z :: l))%bool in Ho.
  apply andb_true_iff in Ho as [Hxz Hz].
  destruct Hy as [<-|Hy]; [exact Hxz|].
  apply (tuple_leb_trans _ (key z)); [exact Hxz | apply IH; assumption].
Qed.

(** Two lists in order with the same elements, of pairwise distinct keys,
    are the same list. *)
Lemma ordered_unique (l1 l2 : list A) :
  NoDup (map key l1) -> Permutation l1 l2 ->
  ordered key l1 = true -> ordered key l2 = true -> l1 = l2.
Proof.
  revert l2. induction l1 as [|x l1 IH]; intros l2 Hnd Hp H1 H2.
  - apply Permutation_nil in Hp. subst. reflexivity.
  - destruct l2 as [|y l2].
    { apply Permutation_sym, Permutation_nil in Hp. discriminate. }
    assert (Hy : In y (x :: l1)).
    { apply (Permutation_in y (Permutation_sym Hp)). left; reflexivity. }
    assert (Hx : In x (y :: l2)).
    { apply (Permutation_in x Hp). left; reflexivity. }
    assert (Exy : x = y).
    { destruct Hy as [Hy|Hy]; [exact Hy|].
      destruct Hx as [Hx|Hx]; [symmetry; exact Hx|]. exfalso.
      assert (Ek : key x = key y).
      { apply tuple_leb_antisym.
        - apply (ordered_head x l1 H1 y Hy).
        - apply (ordered_head y l2 H2 x Hx). }
      cbn [map] in Hnd. apply NoDup_cons_iff in Hnd as [Hout _].
      apply Hout. rewrite Ek. apply in_map. exact Hy. }
    subst y. f_equal. apply IH.
    + cbn [map] in Hnd. apply NoDup_cons_iff in Hnd. tauto.
    + apply (Permutation_cons_inv Hp).
    + apply (ordered_tail x l1 H1).
    + apply (ordered_tail x l2 H2).
Qed.

End OrderFacts.

(** X18.  [generate_bibtex] writes one block per record of the store, the
    cached text when there is one and the generated entry otherwise, each
    followed by a blank line; every record is written once, and the blocks
    come in non-decreasing order of the pair (year, citekey), years as
    integers and citekeys by code point. *)
Theorem generate_bibtex_writes_every_record_in_order (self : CitationManager) :
  exists rs,
    Permutation rs (map snd (citations self))
    /\ ordered (fun x => (year x, citekey x)) rs = true
    /\ generate_bibtex self
       = List.concat
           (map (fun c => (if truthy_str (bibtex_entry c)
                           then bibtex_entry c
                           else _generate_basic_bibtex c) ++ [NL; NL]) rs).
Proof.
  exists (sorted (fun x => (year x, citekey x)) (map snd (citations self))).
  split; [apply sorted_perm|]. split; [apply sorted_ordered|]. reflexivity.
Qed.

(** X19.  The file written does not depend on the order in which the
    records were put in the store: two stores that hold the same records,
    with pairwise distinct (year, citekey) pairs, write the same file. *)
Theorem generate_bibtex_ignores_insertion_order
    (self other : CitationManager) :
  Permutation (map snd (citations self)) (map snd (citations other)) ->
  NoDup (map (fun x => (year x, citekey x)) (map snd (citations self))) ->
  generate_bibtex self = generate_bibtex other.
Proof.
  intros Hp Hnd. unfold generate_bibtex. do 2 f_equal.
  set (key := fun x : Citation => (year x, citekey x)) in *.
  apply (ordered_unique key).
  - apply (Permutation_NoDup (l := map key (map snd (citations self))));
      [|exact Hnd].
    apply Permutation_map. symmetry. apply sorted_perm.
  - rewrite (sorted_perm key (map snd (citations self))).
    rewrite (sorted_perm key (map snd (citations other))). exact Hp.
  - apply sorted_ordered.
  - apply sorted_ordered.
Qed.

Lemma generate_bibtex_ignores_insertion_order_witness :
  let later := mkCitation (lit "haynes2011alfalfa") (lit "The ALFALFA Survey")
                 [lit "M. P. Haynes"] 2011 None None
                 (Some (lit "10.1088/0004-6256/142/5/170")) None None None
                 None None None false false [] [] in
  generate_bibtex (mkManager [(lit "haynes2011alfalfa", later);
                              (lit "tully1977new", tully1977)] 10 3)
  = generate_bibtex (mkManager [(lit "tully1977new", tully1977);
                                (lit "haynes2011alfalfa", later)] 10 3).
Proof.
  intros later.
  apply (generate_bibtex_ignores_insertion_order
           (mkManager [(lit "haynes2011alfalfa", later);
                       (lit "tully1977new", tully1977)] 10 3)
           (mkManager [(lit "tully1977new", tully1977);
                       (lit "haynes2011alfalfa", later)] 10 3)).
  - apply perm_swap.
  - repeat constructor; simpl; intuition discriminate.
Defined.

Section LoaderFacts.

(** The loader begins one entry at each line that opens one. *)
Lemma split_count (lines : list str) (st : SplitState) :
  (in_entry st = true -> current_entry st <> []) ->
  List.length (flush_entry (fold_left split_step lines st))
  = (List.length (flush_entry st) + List.length (filter opens lines))%nat.
Proof.
  revert st. induction lines as [|l lines IH]; intros st Hst.
  - cbn [fold_left filter List.length]. lia.
  - cbn [fold_left filter]. unfold split_step at 2. fold (opens l).
    destruct (opens l) eqn:Eo.
    + rewrite IH by (intros _; discriminate).
      unfold flush_entry at 1. cbn [current_entry entries truthy_list].
      rewrite length_app. cbn [List.length]. lia.
    + destruct (in_entry st) eqn:Ein.
      * rewrite IH.
        2:{ cbn [current_entry]. intros _ H.
            apply app_eq_nil in H as [_ H]. discriminate H. }
        f_equal. unfold flush_entry. cbn [current_entry entries].
        destruct (current_entry st) as [|c0 cur] eqn:Ec.
        { exfalso. apply Hst; reflexivity. }
        cbn [app truthy_list]. rewrite !length_app. reflexivity.
      * apply IH. rewrite Ein. exact Hst.
Qed.

(** Adding the records parsed from a list of entries. *)
Lemma load_fold_grows (es : list str) (m : CitationManager) :
  let m' := fold_left
              (fun m entry =>
                 match create_citation_from_bibtex entry with
                 | Some citation => add_citation m citation
                 | None => m
                 end) es m in
  (exists new,
     map fst (citations m') = map fst (citations m) ++ new
     /\ (List.length new <= List.length es)%nat)
  /\ (forall k,
        (forall e c, In e es -> create_citation_from_bibtex e = Some c ->
                     citekey c <> k) ->
        dict_get str_eqb k (citations m') = dict_get str_eqb k (citations m))
  /\ verification_timeout m' = verification_timeout m
  /\ max_retries m' = max_retries m.
Proof.
  revert m. induction es as [|e es IH]; intros m.
  - cbn [fold_left]. split; [|split; [|split]]; try reflexivity.
    exists []. rewrite app_nil_r. split; [reflexivity | cbn; lia].
  - cbn [fold_left].
    destruct (create_citation_from_bibtex e) as [c|] eqn:Ec.
    + destruct (IH (add_citation m c)) as ((new & Ek & Hl) & Hother & Ht & Hr).
      cbv zeta. split; [|split; [|split]].
      * change (citations (add_citation m c))
          with (dict_set str_eqb (citekey c) c (citations m)) in Ek.
        destruct (dict_get str_eqb (citekey c) (citations m)) as [v0|] eqn:Eg.
        -- rewrite (dict_set_keys str_eqb (citekey c) c v0 _ Eg) in Ek.
           exists new. split; [exact Ek | cbn [List.length]; lia].
        -- destruct (dict_set_keys_new str_eqb str_eqb_eq (citekey c) c _ Eg)
             as [E' _].
           rewrite E', <- app_assoc in Ek.
           exists ([citekey c] ++ new). split; [exact Ek|].
           rewrite length_app. cbn [List.length]. lia.
      * intros k Hk. rewrite Hother.
        -- unfold add_citation. cbn [citations with_citations].
           apply dict_get_set_other; [exact str_eqb_eq|].
           intros ->. apply (Hk e c); [left; reflexivity | exact Ec | reflexivity].
        -- intros e' c' He' Hc'. apply (Hk e' c'); [right; exact He' | exact Hc'].
      * rewrite Ht. reflexivity.
      * rewrite Hr. reflexivity.
    + destruct (IH m) as ((new & Ek & Hl) & Hother & Ht & Hr).
      cbv zeta. split; [|split; [|split]]; auto.
      * exists new. split; [exact Ek | cbn [List.length]; lia].
      * intros k Hk. apply Hother.
        intros e' c' He' Hc'. apply (Hk e' c'); [right; exact He' | exact Hc'].
Qed.

End LoaderFacts.

(** X20.  [_load_existing_bibliography] begins one entry at each line of
    the file that, once stripped, begins with [@], and adds at most one
    record per entry: the keys of the store keep their order, the new keys
    come after them and are no more than the entries, every key that is
    the citekey of no parsed entry holds what it held, and the settings of
    the manager are kept. *)
Theorem load_existing_bibliography_grows
    (self : CitationManager) (content : str) :
  let loaded := _load_existing_bibliography self content in
  List.length (split_entries content)
  = List.length (filter opens (split [NL] content))
  /\ (exists new,
        map fst (citations loaded) = map fst (citations self) ++ new
        /\ (List.length new
            <= List.length (filter opens (split [NL] content)))%nat)
  /\ (forall k,
        (forall e c, In e (split_entries content) ->
                     create_citation_from_bibtex e = Some c ->
                     citekey c <> k) ->
        dict_get str_eqb k (citations loaded)
        = dict_get str_eqb k (citations self))
  /\ verification_timeout loaded = verification_timeout self
  /\ max_retries loaded = max_retries self.
Proof.
  intros loaded.
  assert (Hn : List.length (split_entries content)
               = List.length (filter opens (split [NL] content))).
  { unfold split_entries. rewrite split_count by discriminate. reflexivity. }
  split; [exact Hn|].
  destruct (load_fold_grows (split_entries content) self)
    as ((new & Ek & Hl) & Hother & Ht & Hr).
  split; [|split; [|split]]; auto.
  exists new. split; [exact Ek|]. rewrite <- Hn. exact Hl.
Qed.

Lemma load_existing_bibliography_grows_witness :
  let later := mkCitation (lit "haynes2011alfalfa") (lit "The ALFALFA Survey")
                 [lit "M. P. Haynes"] 2011 None None
                 (Some (lit "10.1088/0004-6256/142/5/170")) None None None
                 None None None false false [] [] in
  let self := mkManager [(lit "tully1977new", tully1977)] 10 3 in
  dict_get str_eqb (lit "tully1977new")
    (citations
       (_load_existing_bibliography self (_generate_basic_bibtex later)))
  = Some tully1977.
Proof.
  intros later self.
  destruct (load_existing_bibliography_grows self
              (_generate_basic_bibtex later)) as (_ & _ & H & _).
  rewrite H; [reflexivity|].
  intros e c He Hc. vm_compute in He. destruct He as [<-|[]].
  vm_compute in Hc. injection Hc as <-. intros E. discriminate E.
Defined.

(* ================================================================== *)
(** * Further properties: the provenance report *)
(* ================================================================== *)

Section TallyFacts.











End TallyFacts.



(** X22.  The three counts of the decisions summary never exceed the number
    of decisions reviewed, and they add up to it exactly when every
    decision is labelled included, excluded or pending. *)
Theorem decision_counts_partition (self : ProvenanceTracker) :
  let included := decisions_with (lit "included") self in
  let excluded := decisions_with (lit "excluded") self in
  let pending := decisions_with (lit "pending") self in
  (List.length included + List.length excluded + List.length pending
   <= List.length (decisions self))%nat
  /\ ((List.length included + List.length excluded + List.length pending
       = List.length (decisions self))%nat <->
      forall k d, In (k, d) (decisions self) ->
        decision d = lit "included" \/ decision d = lit "excluded"
        \/ decision d = lit "pending").
Proof.
  intros included excluded pending.
  unfold included, excluded, pending, decisions_with.
  induction (decisions self) as [|[k d] l [IH1 IH2]].
  - split; [cbn; lia|]. split; [intros _ k d [] | reflexivity].
  - cbn [map snd filter].
    assert (Hcase :
      (decision d = lit "included"
       /\ str_eqb (decision d) (lit "included") = true
       /\ str_eqb (decision d) (lit "excluded") = false
       /\ str_eqb (decision d) (lit "pending") = false)
      \/ (decision d = lit "excluded"
          /\ str_eqb (decision d) (lit "included") = false
          /\ str_eqb (decision d) (lit "excluded") = true
          /\ str_eqb (decision d) (lit "pending") = false)
      \/ (decision d = lit "pending"
          /\ str_eqb (decision d) (lit "included") = false
          /\ str_eqb (decision d) (lit "excluded") = false
          /\ str_eqb (decision d) (lit "pending") = true)
      \/ (decision d <> lit "included" /\ decision d <> lit "excluded"
          /\ decision d <> lit "pending"
          /\ str_eqb (decision d) (lit "included") = false
          /\ str_eqb (decision d) (lit "excluded") = false
          /\ str_eqb (decision d) (lit "pending") = false)).
    { destruct (str_eqb (decision d) (lit "included")) eqn:E1.
      { apply str_eqb_eq in E1. rewrite E1. left. repeat split. }
      destruct (str_eqb (decision d) (lit "excluded")) eqn:E2.
      { apply str_eqb_eq in E2. rewrite E2. right; left. repeat split. }
      destruct (str_eqb (decision d) (lit "pending")) eqn:E3.
      { apply str_eqb_eq in E3. rewrite E3. right; right; left.
        repeat split. }
      right; right; right. repeat split; try reflexivity;
        intros H; rewrite H in *; discriminate. }
    destruct Hcase as [(Hd & -> & -> & ->)|[(Hd & -> & -> & ->)
                      |[(Hd & -> & -> & ->)|(N1 & N2 & N3 & -> & -> & ->)]]];
      cbn [List.length]; (split; [lia|]); split.
    1,3,5: intros H k' d' [Heq|Hin];
           [injection Heq as <- <-; tauto | eapply (proj1 IH2); [lia | exact Hin]].
    1,2,3: intros H;
           assert (Hl : forall k0 d0, In (k0, d0) l ->
                     decision d0 = lit "included"
                     \/ decision d0 = lit "excluded"
                     \/ decision d0 = lit "pending")
             by (intros k0 d0 H0; apply (H k0 d0); right; exact H0);
           apply (proj2 IH2) in Hl; lia.
    + intros H. exfalso. lia.
    + intros H. exfalso.
      destruct (H k d (or_introl eq_refl)) as [H1|[H1|H1]]; contradiction.
Qed.

Lemma decision_counts_partition_witness :
  let d1 := mkDecision (lit "a2001") (lit "A") (lit "included")
              (lit "TF survey") [] [] (lit "2025-01-01") (lit "automated") in
  let d2 := mkDecision (lit "b2002") (lit "B") (lit "excluded")
              (lit "no distances") [] [] (lit "2025-01-01") (lit "automated") in
  let self := mkTracker
                (mkConfig (Some (mkSearch (Some []) (Some []) (Some []))))
                [] [(lit "a2001", d1); (lit "b2002", d2)] in
  (List.length (decisions_with (lit "included") self)
   + List.length (decisions_with (lit "excluded") self)
   + List.length (decisions_with (lit "pending") self)
   = List.length (decisions self))%nat.
Proof.
  intros d1 d2 self.
  apply (proj2 (proj2 (decision_counts_partition self))).
  intros k d [H|[H|[]]]; injection H as <- <-; cbn [decision]; tauto.
Defined.

(* ================================================================== *)
(** * Further properties: the text that the parser accepts *)
(* ================================================================== *)

(** X23.  The first line of an entry is accepted, with citekey [ck],
    exactly when it reads [@kind{ck,rest] for a non-empty run [kind] of
    word characters and a non-empty [ck] without a comma; [rest] is
    free. *)
Theorem match_header_accepts (line ck : str) :
  match_header line = Some ck <->
  exists kind rest,
    line = "@"%char :: kind ++ "{"%char :: ck ++ ","%char :: rest
    /\ kind <> [] /\ forallb is_word kind = true
    /\ ck <> [] /\ forallb not_comma ck = true.
Proof.
  split.
  - intros H.
    destruct (match_header_shape line ck H) as (Hck & Hc & kind & rest & E).
    exists kind, rest. tauto.
  - intros (kind & rest & -> & Hk & Hw & Hck & Hc).
    apply match_header_ok; assumption.
Qed.

Lemma match_header_accepts_witness :
  match_header (lit "@article{tully1977new, title={A New Method},")
  = Some (lit "tully1977new").
Proof.
  apply (proj2 (match_header_accepts _ _)).
  exists (lit "article"), (lit " title={A New Method},").
  repeat split; discriminate.
Defined.

(** Both sides of an equation on lists, as one run of conses and
    appends. *)
Ltac flatten_lists :=
  repeat (first [rewrite <- app_assoc | progress cbn [app]]); reflexivity.

Section LineSyntax.

Lemma dropWhile_all {A} (p : A -> bool) (ws l : list A) :
  forallb p ws = true -> dropWhile p (ws ++ l) = dropWhile p l.
Proof.
  induction ws as [|x ws IH]; [reflexivity|]. cbn [forallb app dropWhile].
  rewrite andb_true_iff. intros [-> H]. apply IH. exact H.
Qed.

Lemma rstrip_by_all (p : ascii -> bool) (s ws : str) :
  forallb p ws = true -> rstrip_by p (s ++ ws) = rstrip_by p s.
Proof.
  intros H. unfold rstrip_by. rewrite rev_app_distr.
  rewrite dropWhile_all; [reflexivity|].
  rewrite forallb_forall in *. intros x Hx. apply H.
  apply in_rev. exact Hx.
Qed.

(** White space on either side of a text that begins and ends with other
    characters is what the strip removes. *)
Lemma strip_padded (l r : str) (c d : ascii) (m : str) :
  forallb isspace l = true -> forallb isspace r = true ->
  isspace c = false -> isspace d = false ->
  strip (l ++ (c :: m ++ [d]) ++ r) = c :: m ++ [d].
Proof.
  intros Hl Hr Hc Hd. unfold strip, strip_by, lstrip_by.
  rewrite dropWhile_all by exact Hl.
  cbn [app]. rewrite dropWhile_head by exact Hc.
  change (c :: (m ++ [d]) ++ r) with ((c :: m ++ [d]) ++ r).
  rewrite rstrip_by_all by exact Hr.
  apply (rstrip_by_last isspace (c :: m) d Hd).
Qed.

Lemma space_not_equals (ws : str) :
  forallb isspace ws = true -> contains "=" ws = false.
Proof.
  induction ws as [|x ws IH]; [reflexivity|]. cbn [forallb contains existsb].
  rewrite andb_true_iff. intros [Hx Hws].
  fold (contains "=" ws). rewrite (IH Hws), orb_false_r.
  destruct (Ascii.eqb "=" x) eqn:E; [|reflexivity].
  apply Ascii.eqb_eq in E. subst x. discriminate Hx.
Qed.

Lemma unwrap_quoted (v : str) :
  ends_clear is_wrapper v = true ->
  unwrap (DQUOTE :: v ++ [DQUOTE]) = v.
Proof.
  intros H. unfold unwrap, strip.
  rewrite (strip_by_bounded isspace DQUOTE DQUOTE v eq_refl eq_refl).
  unfold strip_chars.
  rewrite (strip_by_bounded (mem_char (lit "{}")) DQUOTE DQUOTE v
             eq_refl eq_refl).
  apply (strip_by_wrapped (mem_char [DQUOTE]) DQUOTE DQUOTE v
           eq_refl eq_refl).
  revert H. apply ends_clear_weaken.
  intros c Hc. apply (mem_char_weaken (lit "{}") [DQUOTE] c Hc).
Qed.

Lemma unwrap_padded (ws : str) (o c : ascii) (v : str) :
  forallb isspace ws = true -> isspace o = false -> isspace c = false ->
  unwrap (ws ++ o :: v ++ [c]) = unwrap (o :: v ++ [c]).
Proof.
  intros Hws Ho Hc. unfold unwrap.
  rewrite <- (app_nil_r (o :: v ++ [c])) at 1.
  rewrite (strip_padded ws [] o c v Hws eq_refl Ho Hc).
  unfold strip. rewrite (strip_by_bounded isspace o c v Ho Hc). reflexivity.
Qed.

End LineSyntax.

(** X24.  The field lines that the parser reads.  A line made of a name
    and a value wrapped in braces or in double quotes, with any white
    space before the name, around the equals sign and at the end of the
    line, and with or without a comma after the value, assigns the bare
    value to the field of that name, when the name has no equals sign and
    no white space at its ends and the value neither begins nor ends with
    a brace or a double quote. *)
Theorem parse_line_reads_field
    (f : Fields) (indent sp1 sp2 trail name value : str)
    (o c : ascii) (comma : bool) :
  forallb isspace indent = true -> forallb isspace sp1 = true ->
  forallb isspace sp2 = true -> forallb isspace trail = true ->
  name <> [] -> ends_clear isspace name = true ->
  contains "=" name = false ->
  (o = "{"%char /\ c = "}"%char) \/ (o = DQUOTE /\ c = DQUOTE) ->
  ends_clear is_wrapper value = true ->
  parse_line f
    (indent ++ name ++ sp1 ++ "="%char :: sp2 ++ o :: value ++ c
     :: (if comma then [","%char] else []) ++ trail)
  = assign f name value.
Proof.
  intros Hi H1 H2 Ht Hne Hname Heq Hoc Hv.
  destruct name as [|n0 name]; [contradiction|].
  assert (Hn0 : isspace n0 = false).
  { unfold ends_clear in Hname. apply andb_true_iff in Hname as [Hn _].
    apply negb_true_iff in Hn. exact Hn. }
  assert (Ho : isspace o = false /\ isspace c = false
               /\ mem_char (lit ",") c = false).
  { destruct Hoc as [[-> ->]|[-> ->]]; repeat split. }
  destruct Ho as (Ho & Hc & Hcc).
  set (key := (n0 :: name) ++ sp1).
  set (val := sp2 ++ o :: value ++ [c]).
  assert (Estrip :
    rstrip_chars (lit ",")
      (strip (indent ++ (n0 :: name) ++ sp1 ++ "="%char :: sp2 ++ o :: value
              ++ c :: (if comma then [","%char] else []) ++ trail))
    = key ++ "="%char :: val).
  { destruct comma.
    - replace (indent ++ (n0 :: name) ++ sp1 ++ "="%char :: sp2 ++ o :: value
               ++ c :: [","%char] ++ trail)
        with (indent
              ++ (n0 :: (name ++ sp1 ++ "="%char :: sp2 ++ o :: value ++ [c])
                        ++ [","%char])
              ++ trail)
        by flatten_lists.
      rewrite (strip_padded indent trail n0 "," _ Hi Ht Hn0 eq_refl).
      unfold rstrip_chars.
      change (n0 :: (name ++ sp1 ++ "="%char :: sp2 ++ o :: value ++ [c])
                    ++ [","%char])
        with ((n0 :: name ++ sp1 ++ "="%char :: sp2 ++ o :: value ++ [c])
              ++ [","%char]).
      rewrite rstrip_by_drop by reflexivity.
      replace (n0 :: name ++ sp1 ++ "="%char :: sp2 ++ o :: value ++ [c])
        with ((n0 :: name ++ sp1 ++ "="%char :: sp2 ++ o :: value) ++ [c])
        by flatten_lists.
      rewrite rstrip_by_last by exact Hcc.
      unfold key, val. flatten_lists.
    - replace (indent ++ (n0 :: name) ++ sp1 ++ "="%char :: sp2 ++ o :: value
               ++ c :: [] ++ trail)
        with (indent
              ++ (n0 :: (name ++ sp1 ++ "="%char :: sp2 ++ o :: value)
                        ++ [c])
              ++ trail)
        by flatten_lists.
      rewrite (strip_padded indent trail n0 c _ Hi Ht Hn0 Hc).
      unfold rstrip_chars.
      change (n0 :: (name ++ sp1 ++ "="%char :: sp2 ++ o :: value) ++ [c])
        with ((n0 :: name ++ sp1 ++ "="%char :: sp2 ++ o :: value) ++ [c]).
      rewrite rstrip_by_last by exact Hcc.
      unfold key, val. flatten_lists. }
  unfold parse_line. rewrite Estrip.
  assert (Hkey : contains "=" key = false).
  { unfold key. rewrite contains_app, Heq, (space_not_equals sp1 H1).
    reflexivity. }
  destruct (split_once_found "="%char key val Hkey) as [E1 E2].
  rewrite E2, E1.
  assert (Ekey : strip key = n0 :: name).
  { unfold key, strip, strip_by, lstrip_by. cbn [app].
    rewrite dropWhile_head by exact Hn0.
    change (n0 :: name ++ sp1) with ((n0 :: name) ++ sp1).
    rewrite rstrip_by_all by exact H1.
    pose proof (ends_clear_strip isspace (n0 :: name) Hname) as E.
    unfold strip_by, lstrip_by in E.
    rewrite dropWhile_head in E by exact Hn0. exact E. }
  rewrite Ekey. unfold val. rewrite unwrap_padded by assumption.
  destruct Hoc as [[-> ->]|[-> ->]].
  - rewrite unwrap_braced by exact Hv. reflexivity.
  - rewrite unwrap_quoted by exact Hv. reflexivity.
Qed.

Lemma parse_line_reads_field_witness :
  parse_line init_fields
    (lit "    title = " ++ DQUOTE :: lit "A New Method" ++ [DQUOTE])
  = mkFields (lit "A New Method") [] 0 None None None.
Proof.
  apply (parse_line_reads_field init_fields (lit "    ") (lit " ") (lit " ")
           [] (lit "title") (lit "A New Method") DQUOTE DQUOTE false);
    try reflexivity; [discriminate | right; split; reflexivity].
Defined.
